(** * Budget tracker

    A shallow embedding of [budget_tracker.py]: the six SQLite tables, the
    helper functions that read and write them, and the menu actions built on
    top of them; then the vocabulary of the properties, and the properties
    themselves.

    Conventions of the model.
    - The database file is a record of six tables.  A table keeps its rows in
      rowid order together with the AUTOINCREMENT counter of [sqlite_sequence].
    - A Python float and a REAL value are IEEE 754 binary64 numbers
      ([PrimFloat.float]), infinities and NaN included; Python's [-], [>] and
      [>=] on floats are the operations of that format.  A REAL column may
      hold NULL, which Python reads as [None].
    - The terminal is a list of pending input lines and a log of what was
      written; [input] at the end of the input raises [EOFError], as in Python.
    - Python built-ins and SQLite behaviour whose definition lies outside
      the program ([str.title], [int], [float], the summation loops of [sum]
      and of [SUM], column affinity, the storage of a float) are the fields
      of the class [Runtime]; every result holds for any instance.
    - Keys range over [Z].  The keys SQLite hands out are 64-bit integers, and
      [sqlite3] raises [OverflowError] on a Python integer outside 64 bits;
      see [as_key]. *)

From Stdlib Require Import ZArith QArith List String Ascii Bool Lia Floats.
From Stdlib Require Import DecimalString.
Import ListNotations.
Local Open Scope string_scope.
Local Open Scope list_scope.
Local Open Scope Z_scope.

(** ** Data model *)

(** [category_id INTEGER] of [expenses] and [income].  [update_record] binds
    the text typed by the user; SQLite's INTEGER affinity stores an integer
    when the text converts to one and keeps any other value as it is. *)
Inductive idcell :=
| IdInt (z : Z)
| IdOther (s : string).

(** [target REAL] and [progress REAL] of [financial_goals]: NULL, a number,
    or text, as [update_record] also fills them from raw text. *)
Inductive numcell :=
| NumNull
| NumReal (x : float)
| NumText (s : string).

(** [amount REAL] of [expenses], [income] and [budgets] is only ever filled
    from a Python float: it holds a number or NULL ([None]). *)
Record category := { cat_id : Z; cat_name : string }.
Record entry := {
  entry_id : Z;
  entry_category : idcell;
  entry_amount : option float }.
Record budget := {
  budget_id : Z;
  budget_category : Z;
  budget_amount : option float }.
Record goal := {
  goal_id : Z;
  goal_description : string;
  goal_target : numcell;
  goal_progress : numcell }.

(** Rows in rowid order, and the largest rowid ever handed out. *)
Record table (R : Type) := { rows : list R; seq : Z }.
Arguments rows {R} _.
Arguments seq {R} _.

Inductive category_table := expense_category | income_category.
Inductive entry_table := expenses | income.
Inductive table_name :=
| Cat (t : category_table)
| Ent (t : entry_table)
| budgets
| financial_goals.
Coercion Cat : category_table >-> table_name.
Coercion Ent : entry_table >-> table_name.

Record database := {
  db_expense_category : table category;
  db_expenses : table entry;
  db_income_category : table category;
  db_income : table entry;
  db_budgets : table budget;
  db_financial_goals : table goal }.

Definition empty_table {R} : table R := {| rows := []; seq := 0 |}.

(** [create_database] on a fresh file: six empty tables. *)
Definition create_database : database :=
  {| db_expense_category := empty_table;
     db_expenses := empty_table;
     db_income_category := empty_table;
     db_income := empty_table;
     db_budgets := empty_table;
     db_financial_goals := empty_table |}.

Definition row_of (t : table_name) : Type :=
  match t with
  | Cat _ => category
  | Ent _ => entry
  | budgets => budget
  | financial_goals => goal
  end.

Definition row_id {t : table_name} : row_of t -> Z :=
  match t return row_of t -> Z with
  | Cat _ => cat_id
  | Ent _ => entry_id
  | budgets => budget_id
  | financial_goals => goal_id
  end.

Definition from (t : table_name) (d : database) : table (row_of t) :=
  match t return table (row_of t) with
  | Cat expense_category => db_expense_category d
  | Cat income_category => db_income_category d
  | Ent expenses => db_expenses d
  | Ent income => db_income d
  | budgets => db_budgets d
  | financial_goals => db_financial_goals d
  end.

Definition categories (c : category_table) (d : database) : list category :=
  rows (from (Cat c) d).
Definition entries (e : entry_table) (d : database) : list entry :=
  rows (from (Ent e) d).

Definition set_expense_category x d :=
  {| db_expense_category := x; db_expenses := db_expenses d;
     db_income_category := db_income_category d; db_income := db_income d;
     db_budgets := db_budgets d; db_financial_goals := db_financial_goals d |}.
Definition set_expenses x d :=
  {| db_expense_category := db_expense_category d; db_expenses := x;
     db_income_category := db_income_category d; db_income := db_income d;
     db_budgets := db_budgets d; db_financial_goals := db_financial_goals d |}.
Definition set_income_category x d :=
  {| db_expense_category := db_expense_category d; db_expenses := db_expenses d;
     db_income_category := x; db_income := db_income d;
     db_budgets := db_budgets d; db_financial_goals := db_financial_goals d |}.
Definition set_income x d :=
  {| db_expense_category := db_expense_category d; db_expenses := db_expenses d;
     db_income_category := db_income_category d; db_income := x;
     db_budgets := db_budgets d; db_financial_goals := db_financial_goals d |}.
Definition set_budgets x d :=
  {| db_expense_category := db_expense_category d; db_expenses := db_expenses d;
     db_income_category := db_income_category d; db_income := db_income d;
     db_budgets := x; db_financial_goals := db_financial_goals d |}.
Definition set_financial_goals x d :=
  {| db_expense_category := db_expense_category d; db_expenses := db_expenses d;
     db_income_category := db_income_category d; db_income := db_income d;
     db_budgets := db_budgets d; db_financial_goals := x |}.

Definition into (t : table_name) : table (row_of t) -> database -> database :=
  match t return table (row_of t) -> database -> database with
  | Cat expense_category => set_expense_category
  | Cat income_category => set_income_category
  | Ent expenses => set_expenses
  | Ent income => set_income
  | budgets => set_budgets
  | financial_goals => set_financial_goals
  end.

(** The transaction table whose [category_id] references a category table. *)
Definition entries_of (c : category_table) : entry_table :=
  match c with
  | expense_category => expenses
  | income_category => income
  end.
Definition category_of (e : entry_table) : category_table :=
  match e with
  | expenses => expense_category
  | income => income_category
  end.

(** ** SQL statements *)

(** [INSERT INTO t VALUES (NULL, ...)] on an AUTOINCREMENT key. *)
Definition insert {R} (mk : Z -> R) (tb : table R) : table R :=
  {| rows := rows tb ++ [mk (seq tb + 1)]; seq := seq tb + 1 |}.

(** [DELETE FROM t WHERE p]. *)
Definition delete_where {R} (p : R -> bool) (tb : table R) : table R :=
  {| rows := filter (fun r => negb (p r)) (rows tb); seq := seq tb |}.

(** [UPDATE t SET ... WHERE id = ?]. *)
Definition update_where {R} (key : R -> Z) (id : Z) (f : R -> R) (tb : table R)
  : table R :=
  {| rows := map (fun r => if key r =? id then f r else r) (rows tb);
     seq := seq tb |}.

(** [category_id = id] on a stored cell: only an integer equals a key. *)
Definition references (id : Z) (c : idcell) : bool :=
  match c with
  | IdInt z => z =? id
  | IdOther _ => false
  end.

(** [DELETE FROM t WHERE id = ?] under [PRAGMA foreign_keys = ON]: when a
    category row goes, the [ON DELETE CASCADE] clauses of [expenses] and
    [budgets] (on [expense_category]) and of [income] (on [income_category])
    fire.  Without a row of that key nothing is deleted, here or there. *)
Definition delete_cascade (t : table_name) (id : Z) (d : database) : database :=
  let found := existsb (fun r => row_id r =? id) (rows (from t d)) in
  let d' := into t (delete_where (fun r => row_id r =? id) (from t d)) d in
  match t with
  | Cat expense_category =>
      if found then
        set_budgets
          (delete_where (fun b => budget_category b =? id) (db_budgets d'))
          (set_expenses
             (delete_where (fun e => references id (entry_category e))
                (db_expenses d')) d')
      else d'
  | Cat income_category =>
      if found then
        set_income
          (delete_where (fun e => references id (entry_category e))
             (db_income d')) d'
      else d'
  | _ => d'
  end.

(** The values of a column that are not NULL. *)
Definition non_null {A} (l : list (option A)) : list A :=
  flat_map (fun x => match x with Some a => [a] | None => [] end) l.

(** The values of a column, when none of them is NULL. *)
Fixpoint numbers {A} (l : list (option A)) : option (list A) :=
  match l with
  | [] => Some []
  | None :: _ => None
  | Some a :: l' => option_map (cons a) (numbers l')
  end.

(** A Python integer that [sqlite3] can pass to SQLite. *)
Definition int64 (i : Z) : bool := (- 2 ^ 63 <=? i) && (i <? 2 ^ 63).

(** ** Runtime: what Python and SQLite supply *)

Class Runtime := {
  (** [str.title] *)
  title : string -> string;
  (** [int(s)]; [None] stands for [ValueError] *)
  py_int : string -> option Z;
  (** [float(s)]; [None] stands for [ValueError] *)
  py_float : string -> option float;
  (** [sum] over one or more floats, in the order given: the additions the
      interpreter performs (plain or compensated, by its version) *)
  float_sum : list float -> float;
  (** INTEGER affinity on a text value: the integer it converts to, if any *)
  integer_affinity : string -> option Z;
  (** REAL affinity on a text value: the number it converts to, if any *)
  real_affinity : string -> option float;
  (** a Python float bound to a REAL column, as it is read back; [None] is
      NULL, which is what SQLite stores for a NaN *)
  real_storage : float -> option float;
  (** [SUM] over one or more REAL values, in the order given; [None] is
      NULL, which is what SQLite returns for a sum that is a NaN *)
  real_sum : list float -> option float }.

(** ** Terminal and store *)

Inductive piece :=
| Str (s : string)
| Int (z : Z)
| Amt (x : float)        (* a float formatted with [.2f] *)
| Blank                  (* [None] in a table: the cell is left empty *)
| Ids (l : list Z).      (* a list of identifiers *)

Inductive out :=
| Prompt (s : string)
| Print (ps : list piece)
| Tabulate (headers : list string) (body : list (list piece)).

Record world := {
  store : database;
  stdin : list string;
  stdout : list out }.

Inductive error :=
| EOFError
| ValueError
| TypeError
| IndexError
| OverflowError
| OperationalError
| Diverged.              (* a [while True] loop that ran out of fuel *)

Inductive outcome (A : Type) :=
| Ok (a : A) (w : world)
| Raise (e : error) (w : world).
Arguments Ok {A} _ _.
Arguments Raise {A} _ _.

Definition M (A : Type) : Type := world -> outcome A.

Definition ret {A} (a : A) : M A := fun w => Ok a w.
Definition bind {A B} (m : M A) (k : A -> M B) : M B :=
  fun w =>
    match m w with
    | Ok a w' => k a w'
    | Raise e w' => Raise e w'
    end.
Definition raise {A} (e : error) : M A := fun w => Raise e w.

Declare Scope prog_scope.
Delimit Scope prog_scope with prog.
Notation "x <- c1 ;; c2" := (bind c1 (fun x => c2))
  (at level 61, c1 at next level, right associativity) : prog_scope.
Notation "c1 ;; c2" := (bind c1 (fun _ => c2))
  (at level 61, right associativity) : prog_scope.
Local Open Scope prog_scope.

Definition emit (o : out) : M unit :=
  fun w => Ok tt {| store := store w; stdin := stdin w;
                    stdout := stdout w ++ [o] |}.

(** [print(...)] *)
Definition print (ps : list piece) : M unit := emit (Print ps).

(** [print(tabulate(rows, headers=...))] *)
Definition tabulate (headers : list string) (body : list (list piece))
  : M unit :=
  emit (Tabulate headers body).

(** [input(prompt)] *)
Definition input (prompt : string) : M string :=
  fun w =>
    match stdin w with
    | [] => Raise EOFError {| store := store w; stdin := [];
                              stdout := stdout w ++ [Prompt prompt] |}
    | l :: rest => Ok l {| store := store w; stdin := rest;
                           stdout := stdout w ++ [Prompt prompt] |}
    end.

(** A [SELECT]. *)
Definition query {A} (q : database -> A) : M A := fun w => Ok (q (store w)) w.

(** An [INSERT], [UPDATE] or [DELETE], committed. *)
Definition execute (u : database -> database) : M unit :=
  fun w => Ok tt {| store := u (store w); stdin := stdin w;
                    stdout := stdout w |}.

(** [while True: ...]: the body is run until it breaks with a value.  Every
    loop of the program reads a line in each round, so the number of pending
    lines bounds the rounds ([while_true_terminates]). *)
Fixpoint iterate {A} (fuel : nat) (body : M (option A)) : M A :=
  match fuel with
  | O => raise Diverged
  | S n => r <- body ;;
           match r with
           | Some a => ret a
           | None => iterate n body
           end
  end.

Definition while_true {A} (body : M (option A)) : M A :=
  fun w => iterate (S (List.length (stdin w))) body w.

Definition nl : string := String (ascii_of_nat 10) EmptyString.

(** [print("\n", "-"*10, "\n")] *)
Definition border_line : out := Print [Str nl; Str "----------"; Str nl].
Definition border : M unit := emit border_line.

(** ** Helper functions *)

Section Program.
Context {RT : Runtime}.

Definition table_label (t : table_name) : string :=
  match t with
  | Cat expense_category => "expense_category"
  | Cat income_category => "income_category"
  | Ent expenses => "expenses"
  | Ent income => "income"
  | budgets => "budgets"
  | financial_goals => "financial_goals"
  end.

Definition add_category (t : category_table) (name : string)
  (unique_message : string) : M unit :=
  let name := title name in
  found <- query (fun d =>
             existsb (fun c => String.eqb (cat_name c) name)
               (categories t d)) ;;
  if found then
    print [Str unique_message] ;;
    border
  else
    execute (fun d =>
      into (Cat t)
        (insert (fun i => {| cat_id := i; cat_name := name |}) (from (Cat t) d))
        d) ;;
    print [Str nl; Str "Category '"; Str name;
           Str "' added successfully to '"; Str (table_label t); Str "'."] ;;
    border.

(** A Python integer passed as a statement parameter where the key of a row
    of [t] is expected.  [sqlite3] raises [OverflowError] on an integer
    outside 64 bits.  Keys range over [Z] in this model while every key that
    SQLite holds is a 64-bit integer, so the key of a stored row passes as
    well. *)
Definition as_key (t : table_name) (i : Z) : M unit :=
  stored <- query (fun d =>
              existsb (fun r => row_id r =? i) (rows (from t d))) ;;
  if int64 i || stored then ret tt else raise OverflowError.

(** The tuple [values] of [add_record], by table. *)
Definition values_of (t : table_name) : Type :=
  match t with
  | Cat _ => string
  | Ent _ => (Z * float)%type
  | budgets => (Z * float)%type
  | financial_goals => (string * float * float)%type
  end.

(** A float stored in [target] or [progress]. *)
Definition of_real (x : float) : numcell :=
  match real_storage x with
  | Some y => NumReal y
  | None => NumNull
  end.

Definition new_row (t : table_name) : values_of t -> Z -> row_of t :=
  match t return values_of t -> Z -> row_of t with
  | Cat _ => fun name i => {| cat_id := i; cat_name := name |}
  | Ent _ => fun '(category_id, amount) i =>
      {| entry_id := i; entry_category := IdInt category_id;
         entry_amount := real_storage amount |}
  | budgets => fun '(category_id, amount) i =>
      {| budget_id := i; budget_category := category_id;
         budget_amount := real_storage amount |}
  | financial_goals => fun '(description, target, progress) i =>
      {| goal_id := i; goal_description := description;
         goal_target := of_real target; goal_progress := of_real progress |}
  end.

(** The integers among [values]: the [category_id] of a transaction or of a
    budget, which names an expense or income category. *)
Definition bind_values (t : table_name) : values_of t -> M unit :=
  match t return values_of t -> M unit with
  | Cat _ => fun _ => ret tt
  | Ent e => fun '(category_id, _) => as_key (category_of e) category_id
  | budgets => fun '(category_id, _) => as_key expense_category category_id
  | financial_goals => fun _ => ret tt
  end.

Definition add_record (t : table_name) (values : values_of t) : M unit :=
  bind_values t values ;;
  execute (fun d => into t (insert (new_row t values) (from t d)) d) ;;
  print [Str nl; Str "Record added to "; Str (table_label t); Str "."] ;;
  border.

Inductive field :=
| col_category_id
| col_amount
| col_description
| col_target
| col_progress.

Definition field_name (f : field) : string :=
  match f with
  | col_category_id => "category_id"
  | col_amount => "amount"
  | col_description => "description"
  | col_target => "target"
  | col_progress => "progress"
  end.

(** [field.capitalize()] *)
Definition field_capitalized (f : field) : string :=
  match f with
  | col_category_id => "Category_id"
  | col_amount => "Amount"
  | col_description => "Description"
  | col_target => "Target"
  | col_progress => "Progress"
  end.

(** The Python value [update_record] passes on: a float for an amount, the
    raw line for every other field. *)
Definition value_of (f : field) : Type :=
  match f with
  | col_amount => float
  | _ => string
  end.

Definition to_idcell (s : string) : idcell :=
  match integer_affinity s with
  | Some z => IdInt z
  | None => IdOther s
  end.

Definition to_numcell (s : string) : numcell :=
  match real_affinity s with
  | Some x => NumReal x
  | None => NumText s
  end.

(** [UPDATE t SET field = ? WHERE id = ?], for the columns the program
    updates; any other pair names no updatable column of the model. *)
Definition set_field (t : table_name) (f : field)
  : option (value_of f -> row_of t -> row_of t) :=
  match t, f return option (value_of f -> row_of t -> row_of t) with
  | Ent _, col_category_id => Some (fun v e =>
      {| entry_id := entry_id e; entry_category := to_idcell v;
         entry_amount := entry_amount e |})
  | Ent _, col_amount => Some (fun v e =>
      {| entry_id := entry_id e; entry_category := entry_category e;
         entry_amount := real_storage v |})
  | budgets, col_amount => Some (fun v b =>
      {| budget_id := budget_id b; budget_category := budget_category b;
         budget_amount := real_storage v |})
  | financial_goals, col_description => Some (fun v g =>
      {| goal_id := goal_id g; goal_description := v;
         goal_target := goal_target g; goal_progress := goal_progress g |})
  | financial_goals, col_target => Some (fun v g =>
      {| goal_id := goal_id g; goal_description := goal_description g;
         goal_target := to_numcell v; goal_progress := goal_progress g |})
  | financial_goals, col_progress => Some (fun v g =>
      {| goal_id := goal_id g; goal_description := goal_description g;
         goal_target := goal_target g; goal_progress := to_numcell v |})
  | _, _ => None
  end.

Definition perform_update (t : table_name) (f : field) (new_value : value_of f)
  (record_id : Z) : M unit :=
  match set_field t f with
  | None => raise OperationalError
  | Some set =>
      as_key t record_id ;;
      execute (fun d =>
        into t (update_where row_id record_id (set new_value) (from t d)) d) ;;
      print [Str nl; Str (field_capitalized f); Str " updated successfully."] ;;
      border
  end.

Definition delete_record (t : table_name) (record_id : Z) : M unit :=
  as_key t record_id ;;
  execute (delete_cascade t record_id) ;;
  print [Str "Record deleted from "; Str (table_label t); Str "."] ;;
  border.

Definition fetch_all (t : table_name) : M (list (row_of t)) :=
  query (fun d => rows (from t d)).

(** [SELECT e.id, c.name, e.amount FROM e JOIN c ON e.category_id = c.id] *)
Definition join_category (es : list entry) (cs : list category)
  : list (Z * string * option float) :=
  flat_map (fun e =>
    map (fun c => (entry_id e, cat_name c, entry_amount e))
      (filter (fun c => references (cat_id c) (entry_category e)) cs)) es.

Definition fetch_joined (e : entry_table)
  : M (list (Z * string * option float)) :=
  query (fun d => join_category (entries e d) (categories (category_of e) d)).

Definition fetch_expenses : M (list (Z * string * option float)) :=
  fetch_joined expenses.
Definition fetch_income : M (list (Z * string * option float)) :=
  fetch_joined income.

Definition validate_int_input (prompt : string) : M Z :=
  while_true (
    line <- input prompt ;;
    match py_int line with
    | Some value => ret (Some value)
    | None =>
        print [Str nl; Str "Invalid input. Please enter a valid integer.";
               Str nl] ;;
        ret None
    end).

Definition validate_range (value : Z) (valid_range : list Z) : M (option Z) :=
  if existsb (Z.eqb value) valid_range then ret (Some value)
  else
    print [Str nl; Str "Invalid input. Please select from the list: ";
           Ids valid_range; Str "."; Str nl] ;;
    ret None.

Definition validate_float_input (prompt : string) : M float :=
  while_true (
    line <- input prompt ;;
    match py_float line with
    | Some value => ret (Some value)
    | None =>
        print [Str "Invalid input. Please enter amount in numerals."] ;;
        ret None
    end).

(** [column_exists(table, column, value)] on a text column, the column being
    given by its projection. *)
Definition column_exists (t : table_name) (column : row_of t -> string)
  (value : string) : M bool :=
  query (fun d =>
    existsb (fun r => String.eqb (column r) value) (rows (from t d))).

Definition update_record (t : table_name) (record_id : Z) (fields : list field)
  : M unit :=
  print [Str "Which field would you like to update?"] ;;
  (fix menu (i : Z) (fs : list field) : M unit :=
     match fs with
     | [] => ret tt
     | f :: fs' => print [Int (i + 1); Str ". "; Str (field_name f)] ;;
                   menu (i + 1) fs'
     end) 0 fields ;;
  n <- validate_int_input "Enter field number: " ;;
  let field_index := n - 1 in
  if (field_index <? 0) || (Z.of_nat (List.length fields) <=? field_index) then
    print [Str "Invalid selection."]
  else
    match nth_error fields (Z.to_nat field_index) with
    | None => raise IndexError
    | Some f =>
        new_value <-
          match f return M (value_of f) with
          | col_amount =>
              validate_float_input
                ("Enter new " ++ field_name col_amount ++ ": ")%string
          | col_category_id =>
              input ("Enter new " ++ field_name col_category_id ++ ": ")%string
          | col_description =>
              input ("Enter new " ++ field_name col_description ++ ": ")%string
          | col_target =>
              input ("Enter new " ++ field_name col_target ++ ": ")%string
          | col_progress =>
              input ("Enter new " ++ field_name col_progress ++ ": ")%string
          end ;;
        perform_update t f new_value record_id
    end.

(** The retry loop that the menu actions repeat: [attempts] starts at 0, is
    tested against 3 at the top of each round and grows on an identifier
    outside [valid]; [remaining] is [3 - attempts].  [None] is the early
    [return] after the third failure. *)
Fixpoint select_id (prompt : string) (valid : list Z) (remaining : nat)
  : M (option Z) :=
  match remaining with
  | O =>
      print [Str "Too many invalid attempts. Please try again later."] ;;
      border ;;
      ret None
  | S k =>
      id <- validate_int_input prompt ;;
      r <- validate_range id valid ;;
      match r with
      | Some _ => ret (Some id)
      | None => select_id prompt valid k
      end
  end.

(** [sum(row[k] for row in rows)] over the amounts of fetched rows: [0] for
    no row, [TypeError] when an amount is [None], the float sum otherwise. *)
Definition py_sum (l : list (option float)) : M float :=
  match l with
  | [] => ret 0%float
  | _ :: _ =>
      match numbers l with
      | Some xs => ret (float_sum xs)
      | None => raise TypeError
      end
  end.

(** [SUM(amount)]: NULL values are skipped; NULL when no value is left. *)
Definition sql_sum (l : list (option float)) : option float :=
  match non_null l with
  | [] => None
  | x :: xs => real_sum (x :: xs)
  end.

(** An amount in a table printed with [floatfmt=".2f"]. *)
Definition cell (x : option float) : piece :=
  match x with
  | Some a => Amt a
  | None => Blank
  end.

(** [if not valid_ids]: [None] and the empty list are both falsy. *)
Definition falsy (v : option (list Z)) : bool :=
  match v with
  | None | Some [] => true
  | Some (_ :: _) => false
  end.

Definition the_list (v : option (list Z)) : list Z :=
  match v with
  | Some l => l
  | None => []
  end.

(** ** Menu functions: expenses *)

Definition add_expense_category : M unit :=
  line <- input "Enter expense category name: " ;;
  let name := title line in
  add_category expense_category name "This category already exists.".

Definition view_expense_categories : M (option (list Z)) :=
  categories <- fetch_all expense_category ;;
  match categories with
  | _ :: _ =>
      print [Str "EXPENSE CATEGORIES:"; Str nl] ;;
      tabulate ["ID"; "Name"]
        (map (fun c => [Int (cat_id c); Str (cat_name c)]) categories) ;;
      border ;;
      ret (Some (map cat_id categories))
  | [] =>
      print [Str nl; Str "No expense categories have been entered."] ;;
      border ;;
      ret (Some [])
  end.

Definition delete_expense_category : M unit :=
  valid_category_ids <- view_expense_categories ;;
  if falsy valid_category_ids then
    print [Str "No valid categories available."]
  else
    category_id <-
      while_true (
        category_id <- validate_int_input "Enter category ID to delete: " ;;
        r <- validate_range category_id (the_list valid_category_ids) ;;
        match r with
        | Some _ => ret (Some category_id)
        | None => ret None
        end) ;;
    delete_record expense_category category_id.

Definition add_expense : M unit :=
  valid_category_ids <- view_expense_categories ;;
  if falsy valid_category_ids then
    print [Str "No valid categories available. Please add a category first."]
  else
    r <- select_id "Enter category ID to add expense: "
           (the_list valid_category_ids) 3 ;;
    match r with
    | None => ret tt
    | Some category_id =>
        amount <- validate_float_input "Enter expense amount: £" ;;
        add_record expenses (category_id, amount)
    end.

Definition view_expenses : M (option (list Z)) :=
  expense_rows <- fetch_expenses ;;
  match expense_rows with
  | _ :: _ =>
      print [Str "CURRENT EXPENSES:"; Str nl] ;;
      tabulate ["ID"; "Category"; "Amount"]
        (map (fun '(i, name, a) => [Int i; Str name; cell a]) expense_rows) ;;
      total_expenses <- py_sum (map snd expense_rows) ;;
      print [Str nl; Str "Total Expenses: "; Amt total_expenses] ;;
      border ;;
      ret (Some (map (fun x => fst (fst x)) expense_rows))
  | [] =>
      print [Str nl; Str "No expenses have been entered."] ;;
      border ;;
      ret (Some [])
  end.

(** The tail shared by the two by-category views:
    [SELECT amount FROM t WHERE category_id = ?], its table and its total. *)
Definition amounts_in (e : entry_table) (category_id : Z) (d : database)
  : list (option float) :=
  map entry_amount
    (filter (fun r => references category_id (entry_category r)) (entries e d)).

Definition view_expenses_by_category : M unit :=
  valid_category_ids <- view_expense_categories ;;
  if falsy valid_category_ids then ret tt
  else
    r <- select_id "Enter category ID to view: "
           (the_list valid_category_ids) 3 ;;
    match r with
    | None => ret tt
    | Some category_id =>
        as_key expense_category category_id ;;
        amounts <- query (amounts_in expenses category_id) ;;
        tabulate ["Amount"] (map (fun a => [cell a]) amounts) ;;
        total_expenses <- py_sum amounts ;;
        print [Str nl; Str "Total Expenses in Category: ";
               Amt total_expenses] ;;
        border
    end.

Definition update_expense : M unit :=
  valid_expense_ids <- view_expenses ;;
  if falsy valid_expense_ids then ret tt
  else
    r <- select_id "Enter expense ID to update: "
           (the_list valid_expense_ids) 3 ;;
    match r with
    | None => ret tt
    | Some expense_id =>
        update_record expenses expense_id [col_category_id; col_amount]
    end.

Definition delete_expense : M unit :=
  valid_expense_ids <- view_expenses ;;
  if falsy valid_expense_ids then ret tt
  else
    r <- select_id "Enter expense ID to delete: "
           (the_list valid_expense_ids) 3 ;;
    match r with
    | None => ret tt
    | Some expense_id => delete_record expenses expense_id
    end.

(** ** Menu functions: income *)

Definition add_income_category : M unit :=
  line <- input "Enter income category name: " ;;
  let name := title line in
  add_category income_category name "This category already exists.".

(** The empty case falls off the end of the function: Python's [None]. *)
Definition view_income_categories : M (option (list Z)) :=
  categories <- fetch_all income_category ;;
  match categories with
  | _ :: _ =>
      print [Str nl; Str "INCOME CATEGORIES:"; Str nl] ;;
      tabulate ["ID"; "Name"]
        (map (fun c => [Int (cat_id c); Str (cat_name c)]) categories) ;;
      border ;;
      ret (Some (map cat_id categories))
  | [] =>
      print [Str nl; Str "No income categories have been entered."] ;;
      border ;;
      ret None
  end.

Definition delete_income_category : M unit :=
  valid_category_ids <- view_income_categories ;;
  if falsy valid_category_ids then ret tt
  else
    r <- select_id "Enter category ID to delete: "
           (the_list valid_category_ids) 3 ;;
    match r with
    | None => ret tt
    | Some category_id => delete_record income_category category_id
    end.

Definition add_income : M unit :=
  valid_category_ids <- view_income_categories ;;
  if falsy valid_category_ids then ret tt
  else
    r <- select_id "Enter category ID to add income: "
           (the_list valid_category_ids) 3 ;;
    match r with
    | None => ret tt
    | Some category_id =>
        amount <- validate_float_input "Enter income amount: £" ;;
        add_record income (category_id, amount)
    end.

Definition view_income : M (option (list Z)) :=
  incomes <- fetch_income ;;
  match incomes with
  | _ :: _ =>
      print [Str nl; Str "CURRENT INCOME:"; Str nl] ;;
      tabulate ["ID"; "Category"; "Amount"]
        (map (fun '(i, name, a) => [Int i; Str name; cell a]) incomes) ;;
      total_income <- py_sum (map snd incomes) ;;
      print [Str nl; Str "Total Income: "; Amt total_income] ;;
      border ;;
      ret (Some (map (fun x => fst (fst x)) incomes))
  | [] =>
      print [Str nl; Str "No income records have been entered."] ;;
      border ;;
      ret (Some [])
  end.

Definition view_income_by_category : M unit :=
  valid_category_ids <- view_income_categories ;;
  if falsy valid_category_ids then ret tt
  else
    r <- select_id "Enter category ID to view income: "
           (the_list valid_category_ids) 3 ;;
    match r with
    | None => ret tt
    | Some category_id =>
        as_key income_category category_id ;;
        incomes <- query (amounts_in income category_id) ;;
        tabulate ["Amount"] (map (fun a => [cell a]) incomes) ;;
        total_income <- py_sum incomes ;;
        print [Str nl; Str "Total Income in Category: "; Amt total_income] ;;
        border
    end.

Definition update_income : M unit :=
  valid_income_ids <- view_income ;;
  if falsy valid_income_ids then ret tt
  else
    r <- select_id "Enter income ID to update: "
           (the_list valid_income_ids) 3 ;;
    match r with
    | None => ret tt
    | Some income_id =>
        update_record income income_id [col_category_id; col_amount]
    end.

Definition delete_income : M unit :=
  valid_income_ids <- view_income ;;
  if falsy valid_income_ids then ret tt
  else
    r <- select_id "Enter income ID to delete: "
           (the_list valid_income_ids) 3 ;;
    match r with
    | None => ret tt
    | Some income_id => delete_record income income_id
    end.

(** ** Menu functions: budgets *)

(** [x or 0] on the single column of [SELECT SUM(amount)]: [None] and a
    zero of either sign are falsy and give the integer [0], which formats and
    subtracts as the float [0.0] does. *)
Definition or_zero (x : option float) : float :=
  match x with
  | None => 0%float
  | Some s => if PrimFloat.is_zero s then 0%float else s
  end.

Definition display_current_budget : M unit :=
  s <- query (fun d => sql_sum (map entry_amount (entries income d))) ;;
  let total_income := or_zero s in
  s <- query (fun d => sql_sum (map entry_amount (entries expenses d))) ;;
  let total_expenses := or_zero s in
  let current_budget := (total_income - total_expenses)%float in
  print [Str nl; Str "Total Income: "; Amt total_income] ;;
  print [Str "Total Expenses: "; Amt total_expenses] ;;
  print [Str "Current Overall Budget: "; Amt current_budget].

Definition set_category_budget : M unit :=
  valid_category_ids <- view_expense_categories ;;
  if falsy valid_category_ids then ret tt
  else
    r <- select_id "Enter category ID to set budget: "
           (the_list valid_category_ids) 3 ;;
    match r with
    | None => ret tt
    | Some category_id =>
        amount <- validate_float_input "Enter budget amount: £" ;;
        as_key expense_category category_id ;;
        found <- query (fun d =>
                   existsb (fun b => budget_category b =? category_id)
                     (rows (db_budgets d))) ;;
        if found then
          print [Str "Budget for category ID "; Int category_id;
                 Str " already exists."]
        else add_record budgets (category_id, amount)
    end.

Definition view_all_budgets : M (option (list Z)) :=
  budget_rows <- fetch_all budgets ;;
  match budget_rows with
  | _ :: _ =>
      print [Str nl; Str "CURRENT BUDGETS:"; Str nl] ;;
      tabulate ["ID"; "Category"; "Amount"]
        (map (fun b => [Int (budget_id b); Int (budget_category b);
                        cell (budget_amount b)]) budget_rows) ;;
      border ;;
      ret (Some (map budget_id budget_rows))
  | [] =>
      print [Str nl; Str "No category budgets have been created."] ;;
      border ;;
      ret (Some [])
  end.

(** [budgets LEFT JOIN expenses ON budgets.category_id = expenses.category_id
    WHERE budgets.id = ?]: every selected budget row paired with each of its
    expenses, or once with NULL when it has none. *)
Definition budget_join (id : Z) (d : database) : list (budget * option entry) :=
  flat_map (fun b =>
    match filter (fun e => references (budget_category b) (entry_category e))
            (rows (db_expenses d)) with
    | [] => [(b, None)]
    | es => map (fun e => (b, Some e)) es
    end)
    (filter (fun b => budget_id b =? id) (rows (db_budgets d))).

(** The column [expenses.amount] of the joined rows; NULL where the budget
    has no expense. *)
Definition joined_amounts (j : list (budget * option entry))
  : list (option float) :=
  map (fun p => match snd p with
                | Some e => entry_amount e
                | None => None
                end) j.

(** [SELECT budgets.amount, IFNULL(SUM(expenses.amount), 0) ...]: an aggregate
    without GROUP BY yields exactly one row.  The bare column [budgets.amount]
    is read from a joined row (the first one here; SQLite leaves the choice
    open) and is NULL when the join is empty.  The integer [0] of [IFNULL]
    formats, compares and subtracts as the float [0.0] does. *)
Definition budget_spent (id : Z) (d : database)
  : option (option float * float) :=
  let j := budget_join id d in
  Some (match hd_error j with
        | Some p => budget_amount (fst p)
        | None => None
        end,
        match sql_sum (joined_amounts j) with
        | Some s => s
        | None => 0%float
        end).

(** [f"{x:.2f}"] on a column that may hold NULL. *)
Definition format_amount (x : option float) : M piece :=
  match x with
  | Some a => ret (Amt a)
  | None => raise TypeError
  end.

Definition view_category_budget : M unit :=
  valid_budget_ids <- view_all_budgets ;;
  if falsy valid_budget_ids then ret tt
  else
    r <- select_id "Enter budget ID to view details: "
           (the_list valid_budget_ids) 3 ;;
    match r with
    | None => ret tt
    | Some budget_id =>
        as_key budgets budget_id ;;
        cat_budget <- query (budget_spent budget_id) ;;
        match cat_budget with
        | Some (budget_amount, total_spent) =>
            print [Str nl; Str "Details for Budget ID "; Int budget_id;
                   Str ":"] ;;
            a <- format_amount budget_amount ;;
            print [Str "Budget Amount: £"; a] ;;
            print [Str "Total Spent: £"; Amt total_spent] ;;
            match budget_amount with
            | None => raise TypeError
            | Some budget_amount =>
                (if (budget_amount <? total_spent)%float then
                   let excess := (total_spent - budget_amount)%float in
                   print [Str "Expenditure is £"; Amt excess;
                          Str " over budget."]
                 else print [Str "Expenditure is within the budget."]) ;;
                print [Str "----------"; Str nl]
            end
        | None =>
            print [Str "No budget found with the given ID."] ;;
            border
        end
    end.

Definition update_category_budget : M unit :=
  valid_budget_ids <- view_all_budgets ;;
  if falsy valid_budget_ids then ret tt
  else
    r <- select_id "Enter budget ID to update: "
           (the_list valid_budget_ids) 3 ;;
    match r with
    | None => ret tt
    | Some budget_id => update_record budgets budget_id [col_amount]
    end.

Definition delete_category_budget : M unit :=
  valid_budget_ids <- view_all_budgets ;;
  r <- select_id "Enter budget ID to delete: " (the_list valid_budget_ids) 3 ;;
  match r with
  | None => ret tt
  | Some budget_id => delete_record budgets budget_id
  end.

(** ** Menu functions: goals *)

Definition set_financial_goal : M unit :=
  line <- input "Enter goal description: " ;;
  let description := title line in
  target <- validate_float_input "Enter target amount: £" ;;
  progress <- validate_float_input "Enter current progress amount: £" ;;
  found <- column_exists financial_goals goal_description description ;;
  if negb found then
    add_record financial_goals (description, target, progress)
  else
    print [Str "The goal you are trying to set already exists."] ;;
    border.

(** With goals present the function returns inside the [if]; with none it
    prints and falls off the end, returning [None].  The table is printed
    together with a blank line. *)
Definition view_current_goals : M (option (list Z)) :=
  goals <- fetch_all financial_goals ;;
  match goals with
  | _ :: _ =>
      print [Str nl; Str "CURRENT FINANCIAL GOALS:"; Str nl] ;;
      tabulate ["ID"; "Description"]
        (map (fun g => [Int (goal_id g); Str (goal_description g)]) goals) ;;
      ret (Some (map goal_id goals))
  | [] =>
      print [Str nl; Str "No goals have been created."] ;;
      border ;;
      ret None
  end.

(** [f"{x:.2f}"] on a REAL column: [None] does not take a format, and a
    text value has no format code [f]. *)
Definition format_real (x : numcell) : M float :=
  match x with
  | NumReal a => ret a
  | NumNull => raise TypeError
  | NumText _ => raise ValueError
  end.

Definition view_goal_progress : M unit :=
  valid_goal_ids <- view_current_goals ;;
  if falsy valid_goal_ids then ret tt
  else
    r <- select_id "Enter goal ID to view progress: "
           (the_list valid_goal_ids) 3 ;;
    match r with
    | None => ret tt
    | Some goal_id' =>
        as_key financial_goals goal_id' ;;
        found <- query (fun d =>
                   find (fun g => goal_id g =? goal_id')
                     (rows (db_financial_goals d))) ;;
        match found with
        | None => raise TypeError
        | Some g =>
            print [Str nl; Str "Goal: "; Str (goal_description g)] ;;
            target <- format_real (goal_target g) ;;
            print [Str "Target Amount: £"; Amt target] ;;
            progress <- format_real (goal_progress g) ;;
            print [Str "Current Progress: £"; Amt progress] ;;
            (if (target <=? progress)%float then
               print [Str nl; Str "You have reached your saving target!"]
             else
               print [Str nl; Str "You are £"; Amt (target - progress)%float;
                      Str " short of your target."]) ;;
            border
        end
    end.

Definition update_goal : M unit :=
  valid_goal_ids <- view_current_goals ;;
  if falsy valid_goal_ids then ret tt
  else
    r <- select_id "Enter goal ID to update: " (the_list valid_goal_ids) 3 ;;
    match r with
    | None => ret tt
    | Some goal_id' =>
        update_record financial_goals goal_id'
          [col_description; col_target; col_progress]
    end.

Definition delete_goal : M unit :=
  valid_goal_ids <- view_current_goals ;;
  if falsy valid_goal_ids then ret tt
  else
    r <- select_id "Enter goal ID to delete: " (the_list valid_goal_ids) 3 ;;
    match r with
    | None => ret tt
    | Some goal_id' => delete_record financial_goals goal_id'
    end.

(** ** User interface: the sub-menus

    One round of a sub-menu, from the selection read as an integer to the
    return of the action; [0] leaves the menu. *)

Definition invalid_selection : M unit :=
  print [Str nl; Str "Invalid selection - please try again."] ;;
  border.

Definition expenses_menu (user_choice : Z) : M unit :=
  match user_choice with
  | 1 => add_expense_category
  | 2 => delete_expense_category
  | 3 => add_expense
  | 4 => _ <- view_expenses ;; ret tt
  | 5 => _ <- view_expense_categories ;; ret tt
  | 6 => view_expenses_by_category
  | 7 => update_expense
  | 8 => delete_expense
  | 0 => ret tt
  | _ => invalid_selection
  end.

Definition income_menu (user_choice : Z) : M unit :=
  match user_choice with
  | 1 => add_income_category
  | 2 => delete_income_category
  | 3 => add_income
  | 4 => _ <- view_income ;; ret tt
  | 5 => _ <- view_income_categories ;; ret tt
  | 6 => view_income_by_category
  | 7 => update_income
  | 8 => delete_income
  | 0 => ret tt
  | _ => invalid_selection
  end.

Definition budgets_menu (user_choice : Z) : M unit :=
  match user_choice with
  | 1 => display_current_budget
  | 2 => set_category_budget
  | 3 => _ <- view_all_budgets ;; ret tt
  | 4 => view_category_budget
  | 5 => update_category_budget
  | 6 => delete_category_budget
  | 0 => ret tt
  | _ => invalid_selection
  end.

Definition goals_menu (user_choice : Z) : M unit :=
  match user_choice with
  | 1 => set_financial_goal
  | 2 => _ <- view_current_goals ;; ret tt
  | 3 => view_goal_progress
  | 4 => update_goal
  | 5 => delete_goal
  | 0 => ret tt
  | _ => invalid_selection
  end.

(** The four sub-menus the main menu opens on 1, 2, 3 and 4. *)
Inductive submenu := ExpensesMenu | IncomeMenu | BudgetsMenu | GoalsMenu.

Definition submenu_round (m : submenu) (user_choice : Z) : M unit :=
  match m with
  | ExpensesMenu => expenses_menu user_choice
  | IncomeMenu => income_menu user_choice
  | BudgetsMenu => budgets_menu user_choice
  | GoalsMenu => goals_menu user_choice
  end.

End Program.

(** ** User interface: the menu loops

    [str.isnumeric] is the one built-in the loops add to [Runtime]; it is a
    parameter of this section. *)

Section Interface.
Context {RT : Runtime}.
Variable isnumeric : string -> bool.

(** The text of a menu: its entries, the blank line under them (spaces
    only) and the request for a selection. *)
Definition menu_text (entries : list string) (blank : string) : string :=
  (nl ++ "Would you like to:" ++ nl
   ++ String.concat "" (map (fun e => "    " ++ e ++ nl) entries)
   ++ blank ++ nl ++ "Enter selection: ")%string.

Definition main_menu_text : string :=
  menu_text ["1. Manage expenses"; "2. Manage income"; "3. Manage budgets";
             "4. Manage financial goals"; "0. Exit"]
    "                            ".

Definition submenu_text (m : submenu) : string :=
  match m with
  | ExpensesMenu =>
      menu_text ["1. Add an expense category"; "2. Delete expense category";
                 "3. Add new expense"; "4. View all expenses";
                 "5. View all expense categories";
                 "6. View expenses by category"; "7. Update expense";
                 "8. Delete expense"; "0. Return to main menu"] "    "
  | IncomeMenu =>
      menu_text ["1. Add an income category"; "2. Delete an income category";
                 "3. Add new income"; "4. View all income";
                 "5. View income categories"; "6. View income by category";
                 "7. Update income"; "8. Delete income";
                 "0. Return to main menu"] "    "
  | BudgetsMenu =>
      menu_text ["1. Display current budget"; "2. Set a category budget";
                 "3. View current category budgets";
                 "4. View a category budget"; "5. Update a category budget";
                 "6. Delete a category budget"; "0. Return to main menu"]
        "    "
  | GoalsMenu =>
      menu_text ["1. Set a financial goal"; "2. View current goals";
                 "3. View progress towards financial goals";
                 "4. Update a financial goal"; "5. Delete goal";
                 "0. Return to main menu"] "    "
  end.

(** [user_choice = input(...)], then [int(user_choice)] when
    [user_choice.isnumeric()], else the complaint and [continue] ([None]).
    [int] on a numeric string it cannot read raises [ValueError]. *)
Definition read_choice (text complaint : string) : M (option Z) :=
  user_choice <- input text ;;
  if isnumeric user_choice then
    match py_int user_choice with
    | Some n => ret (Some n)
    | None => raise ValueError
    end
  else
    print [Str nl; Str complaint] ;;
    border ;;
    ret None.

(** The [while True] of a sub-menu: [0] breaks, any other integer runs its
    round. *)
Definition submenu_loop (m : submenu) : M unit :=
  while_true (
    c <- read_choice (submenu_text m)
           "Invalid input. Please enter selection as an integer." ;;
    match c with
    | None => ret None
    | Some user_choice =>
        if user_choice =? 0 then ret (Some tt)
        else submenu_round m user_choice ;; ret None
    end).

(** The program after [create_database()]: the main menu loop. *)
Definition main : M unit :=
  while_true (
    c <- read_choice main_menu_text
           "Invalid input - please enter selection as an integer." ;;
    match c with
    | None => ret None
    | Some 1 => submenu_loop ExpensesMenu ;; ret None
    | Some 2 => submenu_loop IncomeMenu ;; ret None
    | Some 3 => submenu_loop BudgetsMenu ;; ret None
    | Some 4 => submenu_loop GoalsMenu ;; ret None
    | Some 0 =>
        print [Str (nl ++ "Exiting program - goodbye." ++ nl)%string;
               Str "----------"] ;;
        ret (Some tt)
    | Some _ => invalid_selection ;; ret None
    end).

End Interface.

(** ** A runtime for closed runs

    Plain ASCII behaviour of the built-ins, enough to run the program on
    concrete terminals: [str.title] on ASCII letters; [int] on decimal
    numerals with an optional sign; [float] on decimal numerals with an
    optional sign and an optional fraction, rounded to the nearest double,
    and on [nan], [inf] and [infinity]; both sums as plain left-to-right
    additions from zero, the one of SQLite being NULL when it is a NaN. *)

Module AsciiRuntime.

Definition is_lower (c : ascii) : bool :=
  let n := nat_of_ascii c in (97 <=? n)%nat && (n <=? 122)%nat.
Definition is_upper (c : ascii) : bool :=
  let n := nat_of_ascii c in (65 <=? n)%nat && (n <=? 90)%nat.
Definition to_upper (c : ascii) : ascii :=
  if is_lower c then ascii_of_nat (nat_of_ascii c - 32) else c.
Definition to_lower (c : ascii) : ascii :=
  if is_upper c then ascii_of_nat (nat_of_ascii c + 32) else c.

(** A letter that follows an uncased character is upper-cased, a letter that
    follows a letter is lower-cased. *)
Fixpoint title_from (previous_is_cased : bool) (s : string) : string :=
  match s with
  | EmptyString => EmptyString
  | String c s' =>
      let cased := is_lower c || is_upper c in
      String (if previous_is_cased then to_lower c else to_upper c)
        (title_from cased s')
  end.

Definition digit (c : ascii) : option Z :=
  let n := nat_of_ascii c in
  if (48 <=? n)%nat && (n <=? 57)%nat then Some (Z.of_nat (n - 48)) else None.

(** Value and number of digits of a run of decimal digits. *)
Fixpoint digits (acc : Z) (count : nat) (s : string) : option (Z * nat) :=
  match s with
  | EmptyString => Some (acc, count)
  | String c s' =>
      match digit c with
      | Some d => digits (10 * acc + d) (S count) s'
      | None => None
      end
  end.

Definition unsigned (s : string) : option Z :=
  match digits 0 0 s with
  | Some (v, S _) => Some v
  | _ => None
  end.

Definition signed {A} (neg : A -> A) (parse : string -> option A) (s : string)
  : option A :=
  match s with
  | String "-"%char s' => option_map neg (parse s')
  | String "+"%char s' => parse s'
  | _ => parse s
  end.

Definition integer (s : string) : option Z := signed Z.opp unsigned s.

Fixpoint split_dot (s : string) : string * option string :=
  match s with
  | EmptyString => (EmptyString, None)
  | String "."%char s' => (EmptyString, Some s')
  | String c s' => let (a, b) := split_dot s' in (String c a, b)
  end.

(** The double nearest to [n / d], for [n >= 0]: the quotient is taken to
    more than 64 bits, with one more bit that tells whether anything was cut
    off, and rounded from there to nearest, ties to even. *)
Definition nearest (n : Z) (d : positive) : float :=
  if n =? 0 then 0%float
  else
    let k := Z.max 0 (66 + Z.log2 (Zpos d) - Z.log2 n) in
    let m := (n * 2 ^ k) / Zpos d in
    let sticky := if (n * 2 ^ k) mod Zpos d =? 0 then 0 else 1 in
    SF2Prim (binary_normalize prec emax (2 * m + sticky) (- k - 1) false).

(** Digits, optionally a point and more digits; at least one digit. *)
Definition unsigned_decimal (s : string) : option float :=
  let (whole, frac) := split_dot s in
  match digits 0 0 whole,
        digits 0 0 (match frac with Some f => f | None => EmptyString end) with
  | Some (w, kw), Some (f, kf) =>
      match (kw + kf)%nat with
      | O => None
      | S _ => Some (nearest (w * 10 ^ Z.of_nat kf + f)
                       (Z.to_pos (10 ^ Z.of_nat kf)))
      end
  | _, _ => None
  end.

Definition unsigned_float (s : string) : option float :=
  if String.eqb s "nan" then Some nan
  else if String.eqb s "inf" || String.eqb s "infinity" then Some infinity
  else unsigned_decimal s.

(** [float(s)] *)
Definition decimal (s : string) : option float :=
  signed PrimFloat.opp unsigned_float s.

(** A float in a REAL column: NaN is stored as NULL; a value without
    fractional part is kept as an integer, so that a negative zero is read
    back as [0.0]. *)
Definition stored_real (x : float) : option float :=
  if PrimFloat.is_nan x then None
  else if PrimFloat.is_zero x then Some 0%float
  else Some x.

(** Text in a REAL column: a decimal numeral becomes the number. *)
Definition text_to_real (s : string) : option float :=
  match signed PrimFloat.opp unsigned_decimal s with
  | Some x => stored_real x
  | None => None
  end.

(** Left to right from zero. *)
Definition plain_sum (l : list float) : float :=
  fold_left PrimFloat.add l 0%float.

(** The same sum as an SQL result: a NaN comes out as NULL. *)
Definition sum_result (l : list float) : option float :=
  let s := plain_sum l in
  if PrimFloat.is_nan s then None else Some s.

#[export] Instance runtime : Runtime := {|
  title := title_from false;
  py_int := integer;
  py_float := decimal;
  float_sum := plain_sum;
  integer_affinity := integer;
  real_affinity := text_to_real;
  real_storage := stored_real;
  real_sum := sum_result |}.

(** [str.isnumeric] for closed runs: decimal digits, and the superscript
    two, which Python counts as numeric although [int] cannot read it. *)
Definition isnumeric (s : string) : bool :=
  match digits 0 0 s with
  | Some (_, S _) => true
  | _ => String.eqb s "²"
  end.

End AsciiRuntime.


(** * Vocabulary of the properties *)

(** What a terminal interaction leaves alone: the store is the same and the
    log only grows. *)
Definition frame (w w' : world) : Prop :=
  store w' = store w /\ exists o, stdout w' = stdout w ++ o.

(** A loop body that reads at least one line in every round that does not
    break. *)
Definition consumes {A} (body : M (option A)) : Prop :=
  forall w w', body w = Ok None w' ->
    (List.length (stdin w') < List.length (stdin w))%nat.

Definition never_diverges {A} (m : M A) : Prop :=
  forall w w', m w <> Raise Diverged w'.

(** The body the two validating readers share: read a line, break with its
    value when it parses, complain otherwise. *)
Definition reader {A} (parse : string -> option A) (prompt : string)
  (complaint : list piece) : M (option A) :=
  line <- input prompt ;;
  match parse line with
  | Some value => ret (Some value)
  | None => print complaint ;; ret None
  end.

Definition int_complaint : list piece :=
  [Str nl; Str "Invalid input. Please enter a valid integer."; Str nl].
Definition float_complaint : list piece :=
  [Str "Invalid input. Please enter amount in numerals."].

Definition range_complaint (valid : list Z) : out :=
  Print [Str nl; Str "Invalid input. Please select from the list: ";
         Ids valid; Str "."; Str nl].

Definition too_many_attempts : out :=
  Print [Str "Too many invalid attempts. Please try again later."].

(** The rows of a category table that carry a given name. *)
Definition named (c : category_table) (n : string) (d : database)
  : list category :=
  filter (fun r => String.eqb (cat_name r) n) (categories c d).

(** An amount that is a number, not NULL. *)
Definition priced (e : entry) : Prop := entry_amount e <> None.

(** The real number a float stands for; infinities and NaN stand for
    none. *)
Definition exact (x : float) : option Q :=
  match Prim2SF x with
  | S754_zero _ => Some 0%Q
  | S754_finite s m e =>
      Some ((if s then - inject_Z (Zpos m) else inject_Z (Zpos m)) * 2 ^ e)%Q
  | S754_infinity _ | S754_nan => None
  end.

(** The arithmetic sum of a list of amounts, over the real numbers they
    stand for. *)
Fixpoint arithmetic_sum (l : list (option float)) : option Q :=
  match l with
  | [] => Some 0%Q
  | x :: l' =>
      match x, arithmetic_sum l' with
      | Some a, Some s =>
          match exact a with
          | Some q => Some (q + s)%Q
          | None => None
          end
      | _, _ => None
      end
  end.

Definition decimal_text (n : Z) : string :=
  NilZero.string_of_uint (N.to_uint (Z.to_N n)).

(** The size of a rational number in hundredths, rounded to nearest with
    ties to even. *)
Definition hundredths (q : Q) : Z :=
  let n := (100 * Z.abs (Qnum q))%Z in
  let d := Zpos (Qden q) in
  let h := (n / d)%Z in
  let r := (2 * (n mod d))%Z in
  if (r <? d)%Z then h
  else if (d <? r)%Z then (h + 1)%Z
  else if Z.even h then h else (h + 1)%Z.

(** A rational number written with two decimals, as [.2f] writes the float
    that stands for it. *)
Definition two_decimals (q : Q) : string :=
  let h := hundredths q in
  ((if (Qnum q <? 0)%Z then "-" else "")
   ++ decimal_text (h / 100)%Z ++ "."
   ++ (if (h mod 100 <? 10)%Z then "0" else "")
   ++ decimal_text (h mod 100)%Z)%string.

(** [f"{x:.2f}"]: the text that a piece [Amt x] stands for. *)
Definition amount_text (x : float) : string :=
  match Prim2SF x with
  | S754_nan => "nan"
  | S754_infinity s => if s then "-inf" else "inf"
  | S754_zero s => if s then "-0.00" else "0.00"
  | S754_finite _ _ _ =>
      match exact x with
      | Some q => two_decimals q
      | None => ""
      end
  end.

(** The float that Python reads from a line, for closed runs. *)
Definition typed (s : string) : float :=
  match AsciiRuntime.decimal s with
  | Some x => x
  | None => nan
  end.

(** An entry whose [category_id] is the key of some category row. *)
Definition has_category (cs : list category) (e : entry) : bool :=
  existsb (fun c => references (cat_id c) (entry_category e)) cs.

(** The entries the joined listing shows. *)
Definition listed (t : entry_table) (d : database) : list entry :=
  filter (has_category (categories (category_of t) d)) (entries t d).

Definition joined (t : entry_table) (d : database)
  : list (Z * string * option float) :=
  join_category (entries t d) (categories (category_of t) d).

Definition listing_rows (l : list (Z * string * option float))
  : list (list piece) :=
  map (fun '(i, name, a) => [Int i; Str name; cell a]) l.

(** What [view_expenses] writes before it adds up the amounts. *)
Definition expense_table (l : list (Z * string * option float)) : list out :=
  [Print [Str "CURRENT EXPENSES:"; Str nl];
   Tabulate ["ID"; "Category"; "Amount"] (listing_rows l)].

(** What [view_expenses] writes for a fetched list of rows whose amounts are
    all numbers. *)
Definition expense_listing {RT : Runtime}
  (l : list (Z * string * option float)) : list out :=
  match l with
  | [] => [Print [Str nl; Str "No expenses have been entered."]; border_line]
  | _ :: _ =>
      expense_table l ++
      [Print [Str nl; Str "Total Expenses: ";
              Amt (float_sum (non_null (map snd l)))];
       border_line]
  end.


(** What [view_income] writes before it adds up the amounts. *)
Definition income_table (l : list (Z * string * option float)) : list out :=
  [Print [Str nl; Str "CURRENT INCOME:"; Str nl];
   Tabulate ["ID"; "Category"; "Amount"] (listing_rows l)].


(** An entry filed under the category of key [c]. *)
Definition filed_under (c : Z) (e : entry) : bool :=
  match entry_category e with
  | IdInt z => z =? c
  | IdOther _ => false
  end.

(** The amounts, NULL or not, of the entries filed under a category, in
    rowid order. *)
Definition amounts_under (t : entry_table) (c : Z) (d : database)
  : list (option float) :=
  map entry_amount (filter (filed_under c) (entries t d)).

(** What SQLite's [SUM] makes of a column, with 0 for NULL: the sum of the
    values that are not NULL, and 0 when there is none or when their sum is
    a NaN. *)
Definition real_total {RT : Runtime} (l : list (option float)) : float :=
  match non_null l with
  | [] => 0%float
  | x :: xs =>
      match real_sum (x :: xs) with
      | Some s => s
      | None => 0%float
      end
  end.

(** What Python's [sum] makes of amounts that are all numbers: their float
    sum, 0 when there is none. *)
Definition float_total {RT : Runtime} (l : list (option float)) : float :=
  match non_null l with
  | [] => 0%float
  | x :: xs => float_sum (x :: xs)
  end.

(** What has been spent in a category, as the budget view computes it. *)
Definition spent {RT : Runtime} (category : Z) (d : database) : float :=
  real_total (amounts_under expenses category d).

(** The total of a whole transaction table, as the overall view computes
    it: a sum that is zero counts as 0. *)
Definition overall {RT : Runtime} (t : entry_table) (d : database) : float :=
  let s := real_total (map entry_amount (entries t d)) in
  if PrimFloat.is_zero s then 0%float else s.

Definition budget_listing (l : list budget) : list out :=
  match l with
  | [] => [Print [Str nl; Str "No category budgets have been created."];
           border_line]
  | _ :: _ =>
      [Print [Str nl; Str "CURRENT BUDGETS:"; Str nl];
       Tabulate ["ID"; "Category"; "Amount"]
         (map (fun b => [Int (budget_id b); Int (budget_category b);
                         cell (budget_amount b)]) l);
       border_line]
  end.

Definition category_listing (l : list category) : list out :=
  match l with
  | [] => [Print [Str nl; Str "No expense categories have been entered."];
           border_line]
  | _ :: _ =>
      [Print [Str "EXPENSE CATEGORIES:"; Str nl];
       Tabulate ["ID"; "Name"]
         (map (fun c => [Int (cat_id c); Str (cat_name c)]) l);
       border_line]
  end.

(** The loop of [delete_expense_category]. *)
Definition delete_expense_category_loop {RT : Runtime} (valid : list Z)
  : M (option Z) :=
  category_id <- validate_int_input "Enter category ID to delete: " ;;
  r <- validate_range category_id valid ;;
  match r with
  | Some _ => ret (Some category_id)
  | None => ret None
  end.

(** The world an action leaves behind, whether it returned or raised. *)
Definition after {A} (m : M A) (w : world) : world :=
  match m w with
  | Ok _ w' => w'
  | Raise _ w' => w'
  end.

(** A terminal session on store [d] with the given lines typed ahead. *)
Definition terminal (d : database) (lines : list string) : world :=
  {| store := d; stdin := lines; stdout := [] |}.

(** The key of some stored row of [t]. *)
Definition stored (t : table_name) (i : Z) (d : database) : Prop :=
  In i (map row_id (rows (from t d))).

(** A store with one expense category, two expenses in it and one that
    points nowhere, a budget, a goal, and an income row that points
    nowhere. *)
Definition demo_store : database :=
  {| db_expense_category :=
       {| rows := [{| cat_id := 1; cat_name := "Food" |}]; seq := 1 |};
     db_expenses :=
       {| rows := [{| entry_id := 1; entry_category := IdInt 1;
                      entry_amount := Some 12.5%float |};
                   {| entry_id := 2; entry_category := IdInt 1;
                      entry_amount := Some 7.5%float |};
                   {| entry_id := 3; entry_category := IdInt 42;
                      entry_amount := Some 4%float |}];
          seq := 3 |};
     db_income_category :=
       {| rows := [{| cat_id := 1; cat_name := "Salary" |}]; seq := 1 |};
     db_income :=
       {| rows := [{| entry_id := 1; entry_category := IdInt 1;
                      entry_amount := Some 3%float |};
                   {| entry_id := 2; entry_category := IdInt 99;
                      entry_amount := Some 5%float |}];
          seq := 2 |};
     db_budgets :=
       {| rows := [{| budget_id := 1; budget_category := 1;
                      budget_amount := Some 15%float |}];
          seq := 1 |};
     db_financial_goals :=
       {| rows := [{| goal_id := 1; goal_description := "Emergency Fund";
                      goal_target := NumReal 1000%float;
                      goal_progress := NumReal 1000%float |}];
          seq := 1 |} |}.


(** The session that builds [demo_store] from an empty database. *)
Definition demo_session : M unit :=
  let _ := AsciiRuntime.runtime in
  add_expense_category ;; add_expense ;; add_expense ;; add_expense ;;
  update_expense ;; set_category_budget ;; set_financial_goal ;;
  add_income_category ;; add_income ;; add_income ;; update_income.

Definition demo_lines : list string :=
  ["food"; "1"; "12.50"; "1"; "7.5"; "1"; "4";
   "3"; "1"; "42"; "1"; "15"; "emergency fund"; "1000"; "1000";
   "salary"; "1"; "3"; "1"; "5"; "2"; "1"; "99"].


(** C1 as it is worded, for a budget row [b] with amount [B]: with [S] the
    arithmetic sum of the expenses of its category, the view of that budget
    says "over budget" by [S - B] when [S > B], and "within the budget"
    otherwise. *)
Definition reports_variance (d : database) (b : budget) : Prop :=
  let _ := AsciiRuntime.runtime in
  let o := stdout (after view_category_budget
                     (terminal d [decimal_text (budget_id b)])) in
  exists B S,
    option_map exact (budget_amount b) = Some (Some B) /\
    arithmetic_sum (amounts_under expenses (budget_category b) d) = Some S /\
    ((B < S)%Q ->
     exists x, In (Print [Str "Expenditure is £"; Amt x; Str " over budget."])
                 o /\
               amount_text x = two_decimals (S - B)) /\
    (~ (B < S)%Q -> In (Print [Str "Expenditure is within the budget."]) o).

(** C5 as it is worded, for the goal of key [id] with target [T] and progress
    [P]: the view of that goal says that the target is reached when [P >= T],
    and otherwise reports the shortfall [T - P]. *)
Definition reports_shortfall (d : database) (id : Z) (target progress : float)
  : Prop :=
  let _ := AsciiRuntime.runtime in
  let o := stdout (after view_goal_progress (terminal d [decimal_text id])) in
  exists T P,
    exact target = Some T /\ exact progress = Some P /\
    ((T <= P)%Q ->
     In (Print [Str nl; Str "You have reached your saving target!"]) o) /\
    (~ (T <= P)%Q ->
     exists x, In (Print [Str nl; Str "You are £"; Amt x;
                          Str " short of your target."]) o /\
               amount_text x = two_decimals (T - P)).

(** C6 as it is worded: the overall view reports the arithmetic sum of all
    income amounts, that of all expense amounts, and their difference. *)
Definition reports_overall (d : database) : Prop :=
  let _ := AsciiRuntime.runtime in
  let o := stdout (after display_current_budget (terminal d [])) in
  exists I E x y z,
    arithmetic_sum (map entry_amount (entries income d)) = Some I /\
    arithmetic_sum (map entry_amount (entries expenses d)) = Some E /\
    In (Print [Str nl; Str "Total Income: "; Amt x]) o /\
    In (Print [Str "Total Expenses: "; Amt y]) o /\
    In (Print [Str "Current Overall Budget: "; Amt z]) o /\
    amount_text x = two_decimals I /\
    amount_text y = two_decimals E /\
    amount_text z = two_decimals (I - E).

(** A store with one expense category, the given budget for it and the given
    expenses in it, each the float read from the text. *)
Definition budget_store (budget_line : string) (expense_lines : list string)
  : database :=
  {| db_expense_category :=
       {| rows := [{| cat_id := 1; cat_name := "Food" |}]; seq := 1 |};
     db_expenses :=
       {| rows := map (fun '(i, l) =>
                    {| entry_id := Z.of_nat i; entry_category := IdInt 1;
                       entry_amount := Some (typed l) |})
                    (combine (List.seq 1 (List.length expense_lines))
                       expense_lines);
          seq := Z.of_nat (List.length expense_lines) |};
     db_income_category := empty_table;
     db_income := empty_table;
     db_budgets :=
       {| rows := [{| budget_id := 1; budget_category := 1;
                      budget_amount := Some (typed budget_line) |}];
          seq := 1 |};
     db_financial_goals := empty_table |}.

(** A store with one goal. *)
Definition goal_store (target_line progress_line : string) : database :=
  {| db_expense_category := empty_table;
     db_expenses := empty_table;
     db_income_category := empty_table;
     db_income := empty_table;
     db_budgets := empty_table;
     db_financial_goals :=
       {| rows := [{| goal_id := 1; goal_description := "House";
                      goal_target := NumReal (typed target_line);
                      goal_progress := NumReal (typed progress_line) |}];
          seq := 1 |} |}.

(** A store with one category on each side and the given income and expense
    amounts in them. *)
Definition ledger (income_lines expense_lines : list string) : database :=
  let entries_of_lines lines :=
    {| rows := map (fun '(i, l) =>
                 {| entry_id := Z.of_nat i; entry_category := IdInt 1;
                    entry_amount := Some (typed l) |})
                 (combine (List.seq 1 (List.length lines)) lines);
       seq := Z.of_nat (List.length lines) |} in
  {| db_expense_category :=
       {| rows := [{| cat_id := 1; cat_name := "Food" |}]; seq := 1 |};
     db_expenses := entries_of_lines expense_lines;
     db_income_category :=
       {| rows := [{| cat_id := 1; cat_name := "Salary" |}]; seq := 1 |};
     db_income := entries_of_lines income_lines;
     db_budgets := empty_table;
     db_financial_goals := empty_table |}.

(** A table whose keys are pairwise distinct and were all handed out by its
    AUTOINCREMENT counter. *)
Definition keyed {R} (key : R -> Z) (tb : table R) : Prop :=
  NoDup (map key (rows tb)) /\ forall r, In r (rows tb) -> key r <= seq tb.

(** PRIMARY KEY on every table. *)
Definition well_keyed (d : database) : Prop :=
  forall t, keyed row_id (from t d).

(** The worlds a session can be in: it starts on a fresh database and goes
    through rounds of the sub-menus. *)
Inductive reachable {RT : Runtime} : world -> Prop :=
| reachable_start lines : reachable (terminal create_database lines)
| reachable_round w m user_choice :
    reachable w -> reachable (after (submenu_round m user_choice) w).

(** An action that keeps a property of the store, whether it returns or
    raises. *)
Definition preserves {A} (P : database -> Prop) (m : M A) : Prop :=
  forall w, P (store w) -> P (store (after m w)).

(** What the validating readers write for the lines they turn down: the
    prompt and the complaint, once per line. *)
Definition turned_down (p : string) (c : list piece) (lines : list string)
  : list out :=
  List.concat (map (fun _ => [Prompt p; Print c]) lines).

(** The exceptions that the program can end in: [EOFError] when the input
    ends, [ValueError] when [int] or a format meets text it cannot take,
    [TypeError] when an amount that is NULL is added up or formatted. *)
Definition expected (e : error) : Prop :=
  e = EOFError \/ e = ValueError \/ e = TypeError.

(** An action that, run from [w], returns without having lengthened the
    pending input, or raises one of the [expected] exceptions: not
    [IndexError], [OverflowError] or [OperationalError], and not the
    [Diverged] of a loop that would go on without reading. *)
Definition sound_at {A} (w : world) (m : M A) : Prop :=
  match m w with
  | Ok _ w' => (List.length (stdin w') <= List.length (stdin w))%nat
  | Raise e _ => expected e
  end.

(** [sound_at] every world. *)
Definition sound {A} (m : M A) : Prop := forall w, sound_at w m.

(** [sound_at] every world whose store has a given property. *)
Definition sound_on {A} (P : database -> Prop) (m : M A) : Prop :=
  forall w, P (store w) -> sound_at w m.

(** An action that leaves the store alone when it returns. *)
Definition quiet {A} (m : M A) : Prop :=
  forall w a w', m w = Ok a w' -> store w' = store w.

(** An action that reads at least one line whenever it returns. *)
Definition reads {A} (m : M A) : Prop :=
  forall w a w', m w = Ok a w' ->
    (List.length (stdin w') < List.length (stdin w))%nat.

(** The numbered field menu of [update_record], counted from [i + 1]. *)
Fixpoint field_lines (i : Z) (fs : list field) : list out :=
  match fs with
  | [] => []
  | f :: fs' =>
      Print [Int (i + 1); Str ". "; Str (field_name f)]
      :: field_lines (i + 1) fs'
  end.

(** [SELECT * FROM t WHERE id = ?], first row. *)
Definition lookup {R} (key : R -> Z) (id : Z) (l : list R) : option R :=
  find (fun r => key r =? id) l.

(** The last line of the program. *)
Definition goodbye : out :=
  Print [Str (nl ++ "Exiting program - goodbye." ++ nl)%string;
         Str "----------"].

(** [demo_store] without its budget. *)
Definition unbudgeted_store : database := delete_cascade budgets 1 demo_store.

(** One round of the main menu loop. *)
Definition main_round {RT : Runtime} (isnumeric : string -> bool)
  : M (option unit) :=
  c <- read_choice isnumeric main_menu_text
         "Invalid input - please enter selection as an integer." ;;
  match c with
  | None => ret None
  | Some 1 => submenu_loop isnumeric ExpensesMenu ;; ret None
  | Some 2 => submenu_loop isnumeric IncomeMenu ;; ret None
  | Some 3 => submenu_loop isnumeric BudgetsMenu ;; ret None
  | Some 4 => submenu_loop isnumeric GoalsMenu ;; ret None
  | Some 0 =>
      print [Str (nl ++ "Exiting program - goodbye." ++ nl)%string;
             Str "----------"] ;;
      ret (Some tt)
  | Some _ => invalid_selection ;; ret None
  end.

(** At most one budget row per expense category. *)
Definition one_budget (d : database) : Prop :=
  NoDup (map budget_category (rows (db_budgets d))).

(** UNIQUE on the [name] of both category tables. *)
Definition unique_names (d : database) : Prop :=
  forall c, NoDup (map cat_name (categories c d)).

(** Every transaction is filed under an existing category. *)
Definition all_filed (t : entry_table) (d : database) : Prop :=
  forall e, In e (entries t d) ->
            has_category (categories (category_of t) d) e = true.

(** * Properties *)

(** ** Running programs *)

Lemma bind_ok {A B} (m : M A) (k : A -> M B) w a w' :
  m w = Ok a w' -> bind m k w = k a w'.
Proof. intros H. unfold bind. now rewrite H. Qed.

Lemma bind_raise {A B} (m : M A) (k : A -> M B) w e w' :
  m w = Raise e w' -> bind m k w = Raise e w'.
Proof. intros H. unfold bind. now rewrite H. Qed.

Lemma bind_inv {A B} (m : M A) (k : A -> M B) w b w' :
  bind m k w = Ok b w' -> exists a w1, m w = Ok a w1 /\ k a w1 = Ok b w'.
Proof.
  unfold bind. destruct (m w) as [a w1|e w1]; [|discriminate].
  intros H. now exists a, w1.
Qed.

Lemma iterate_S {A} fuel (body : M (option A)) w :
  iterate (S fuel) body w =
  match body w with
  | Ok (Some a) w' => Ok a w'
  | Ok None w' => iterate fuel body w'
  | Raise e w' => Raise e w'
  end.
Proof.
  simpl. unfold bind. destruct (body w) as [[a|] w'|e w']; reflexivity.
Qed.

Lemma frame_refl w : frame w w.
Proof. split; [reflexivity|]. exists []. now rewrite app_nil_r. Qed.

Lemma frame_trans w1 w2 w3 : frame w1 w2 -> frame w2 w3 -> frame w1 w3.
Proof.
  intros [S1 [o1 O1]] [S2 [o2 O2]]. split; [congruence|].
  exists (o1 ++ o2). now rewrite O2, O1, app_assoc.
Qed.

Lemma frame_emit o w u w' : emit o w = Ok u w' -> frame w w'.
Proof.
  unfold emit. intros H. injection H as _ <-. split; [reflexivity|].
  now exists [o].
Qed.

Lemma frame_input p w l w' :
  input p w = Ok l w' ->
  frame w w' /\ stdin w = l :: stdin w'.
Proof.
  unfold input. destruct (stdin w) as [|x rest] eqn:E; [discriminate|].
  intros H. injection H as <- <-. simpl. repeat split. now exists [Prompt p].
Qed.

Lemma iterate_terminates {A} (body : M (option A)) :
  consumes body -> never_diverges body ->
  forall fuel w, (List.length (stdin w) < fuel)%nat ->
    forall w', iterate fuel body w <> Raise Diverged w'.
Proof.
  intros Hc Hd. induction fuel as [|fuel IH]; intros w Hlt w'; [lia|].
  rewrite iterate_S. destruct (body w) as [[a|] w1|e w1] eqn:E.
  - discriminate.
  - apply IH. apply Hc in E. lia.
  - intros H. injection H as -> ->. now apply Hd in E.
Qed.

(** The fuel [while_true] hands to [iterate] is enough. *)
Lemma while_true_terminates {A} (body : M (option A)) :
  consumes body -> never_diverges body -> never_diverges (while_true body).
Proof.
  intros Hc Hd w w'. unfold while_true.
  apply iterate_terminates; auto.
Qed.

Lemma iterate_frame {A} (body : M (option A)) :
  (forall w r w', body w = Ok r w' ->
     frame w w' /\ (List.length (stdin w') <= List.length (stdin w))%nat) ->
  forall fuel w a w', iterate fuel body w = Ok a w' ->
    frame w w' /\ (List.length (stdin w') <= List.length (stdin w))%nat.
Proof.
  intros Hb. induction fuel as [|fuel IH]; intros w a w'; [discriminate|].
  rewrite iterate_S.
  destruct (body w) as [[x|] w1|e w1] eqn:E; [| |discriminate].
  - intros H. injection H as <- <-. eapply Hb; eauto.
  - intros H. apply Hb in E. apply IH in H.
    destruct E as [F1 L1], H as [F2 L2].
    split; [eapply frame_trans; eauto | lia].
Qed.

(** ** The input loops *)

Lemma reader_inv {A} (parse : string -> option A) p c w r w' :
  reader parse p c w = Ok r w' ->
  exists l, stdin w = l :: stdin w' /\ store w' = store w /\ parse l = r /\
    stdout w' = stdout w ++ Prompt p ::
                  match r with Some _ => [] | None => [Print c] end.
Proof.
  unfold reader, bind, input.
  destruct (stdin w) as [|l rest] eqn:E; [discriminate|].
  destruct (parse l) eqn:P; simpl; intros H; injection H as <- <-;
    exists l; simpl; repeat split; auto.
  now rewrite <- app_assoc.
Qed.

Lemma reader_consumes {A} (parse : string -> option A) p c :
  consumes (reader parse p c).
Proof.
  intros w w' H. apply reader_inv in H as (l & E & _). rewrite E. simpl. lia.
Qed.

Lemma reader_never_diverges {A} (parse : string -> option A) p c :
  never_diverges (reader parse p c).
Proof.
  intros w w'. unfold reader, bind, input.
  destruct (stdin w) as [|l rest]; [discriminate|].
  destruct (parse l); discriminate.
Qed.

Lemma reader_loop_frame {A} (parse : string -> option A) p c w a w' :
  while_true (reader parse p c) w = Ok a w' ->
  frame w w' /\ (List.length (stdin w') < List.length (stdin w))%nat.
Proof.
  unfold while_true. rewrite iterate_S.
  destruct (reader parse p c w) as [[x|] w1|e w1] eqn:E; [| |discriminate].
  - intros H. injection H as <- <-.
    apply reader_inv in E as (l & I & S & _ & O).
    split; [split; eauto|]. rewrite I. simpl. lia.
  - intros H. apply reader_inv in E as (l & I & S & _ & O).
    apply iterate_frame in H as [F L].
    + split; [eapply frame_trans; [split; eauto|exact F]|].
      rewrite I. simpl. lia.
    + intros v r v' Hr. apply reader_inv in Hr as (l' & I' & S' & _ & O').
      split; [split; eauto|]. rewrite I'. simpl. lia.
Qed.

(** A line that parses ends the loop at once. *)
Lemma reader_loop_accepts {A} (parse : string -> option A) p c d l rest o v :
  parse l = Some v ->
  while_true (reader parse p c) {| store := d; stdin := l :: rest; stdout := o |}
  = Ok v {| store := d; stdin := rest; stdout := o ++ [Prompt p] |}.
Proof.
  intros P. unfold while_true. rewrite iterate_S.
  unfold reader, bind, input. simpl. now rewrite P.
Qed.

(** A line that does not parse is answered with the complaint and the loop
    starts over on the rest of the input. *)
Lemma reader_loop_rejects {A} (parse : string -> option A) p c d l rest o :
  parse l = None ->
  while_true (reader parse p c) {| store := d; stdin := l :: rest; stdout := o |}
  = while_true (reader parse p c)
      {| store := d; stdin := rest; stdout := o ++ [Prompt p; Print c] |}.
Proof.
  intros P. unfold while_true at 1. rewrite iterate_S.
  unfold reader at 1, bind, input. simpl. rewrite P. simpl.
  now rewrite <- app_assoc.
Qed.

Section Readers.
Context {RT : Runtime}.

Lemma validate_int_input_reader p :
  validate_int_input p = while_true (reader py_int p int_complaint).
Proof. reflexivity. Qed.

Lemma validate_float_input_reader p :
  validate_float_input p = while_true (reader py_float p float_complaint).
Proof. reflexivity. Qed.

(** [validate_int_input] always comes back: with an integer, or with
    [EOFError] when the input ends. *)
Lemma validate_int_input_terminates p : never_diverges (validate_int_input p).
Proof.
  rewrite validate_int_input_reader.
  apply while_true_terminates;
    [apply reader_consumes | apply reader_never_diverges].
Qed.

Lemma validate_float_input_terminates p :
  never_diverges (validate_float_input p).
Proof.
  rewrite validate_float_input_reader.
  apply while_true_terminates;
    [apply reader_consumes | apply reader_never_diverges].
Qed.

Lemma validate_int_input_frame p w v w' :
  validate_int_input p w = Ok v w' ->
  frame w w' /\ (List.length (stdin w') < List.length (stdin w))%nat.
Proof. rewrite validate_int_input_reader. apply reader_loop_frame. Qed.

Lemma validate_float_input_frame p w v w' :
  validate_float_input p w = Ok v w' ->
  frame w w' /\ (List.length (stdin w') < List.length (stdin w))%nat.
Proof. rewrite validate_float_input_reader. apply reader_loop_frame. Qed.

Lemma validate_int_input_accepts p d l rest o v :
  py_int l = Some v ->
  validate_int_input p {| store := d; stdin := l :: rest; stdout := o |}
  = Ok v {| store := d; stdin := rest; stdout := o ++ [Prompt p] |}.
Proof. rewrite validate_int_input_reader. apply reader_loop_accepts. Qed.

Lemma validate_float_input_accepts p d l rest o v :
  py_float l = Some v ->
  validate_float_input p {| store := d; stdin := l :: rest; stdout := o |}
  = Ok v {| store := d; stdin := rest; stdout := o ++ [Prompt p] |}.
Proof. rewrite validate_float_input_reader. apply reader_loop_accepts. Qed.

Lemma validate_range_inv value valid w r w' :
  validate_range value valid w = Ok r w' ->
  (r = Some value /\ In value valid /\ w' = w) \/
  (r = None /\ ~ In value valid /\ store w' = store w /\ stdin w' = stdin w /\
   stdout w' = stdout w ++ [range_complaint valid]).
Proof.
  unfold validate_range.
  destruct (existsb (Z.eqb value) valid) eqn:E.
  - intros H. injection H as <- <-. left. repeat split.
    apply existsb_exists in E as (x & I & X). apply Z.eqb_eq in X. now subst.
  - unfold bind, print, emit, ret. intros H. injection H as <- <-. right.
    repeat split. intros I.
    assert (existsb (Z.eqb value) valid = true) as C.
    { apply existsb_exists. exists value.
      split; [assumption|apply Z.eqb_refl]. }
    congruence.
Qed.

Lemma validate_range_in value valid w :
  In value valid -> validate_range value valid w = Ok (Some value) w.
Proof.
  intros I. unfold validate_range.
  replace (existsb (Z.eqb value) valid) with true; [reflexivity|].
  symmetry. apply existsb_exists. exists value.
  split; [assumption|apply Z.eqb_refl].
Qed.

Lemma validate_range_out value valid d i o :
  ~ In value valid ->
  validate_range value valid {| store := d; stdin := i; stdout := o |}
  = Ok None {| store := d; stdin := i; stdout := o ++ [range_complaint valid] |}.
Proof.
  intros N. unfold validate_range.
  destruct (existsb (Z.eqb value) valid) eqn:E; [|reflexivity].
  apply existsb_exists in E as (x & I & X). apply Z.eqb_eq in X. now subst.
Qed.

(** The bounded retry loop leaves the store alone; the identifier it returns
    is one of the valid ones. *)
Lemma select_id_frame p valid n w r w' :
  select_id p valid n w = Ok r w' ->
  frame w w' /\ (List.length (stdin w') <= List.length (stdin w))%nat /\
  (forall id, r = Some id -> In id valid).
Proof.
  revert w. induction n as [|n IH]; intros w; simpl.
  - unfold bind, print, border, emit, ret. intros H. injection H as <- <-.
    simpl. repeat split; [|lia|discriminate].
    eexists. now rewrite <- app_assoc.
  - intros H. apply bind_inv in H as (v & w1 & H1 & H).
    apply bind_inv in H as (r1 & w2 & H2 & H).
    apply validate_int_input_frame in H1 as [F1 L1].
    apply validate_range_inv in H2
      as [(-> & I & ->)|(-> & N & S2 & I2 & O2)].
    + injection H as <- <-. repeat split; [apply F1|apply F1|lia|].
      intros id E. now injection E as <-.
    + apply IH in H as (F3 & L3 & V). repeat split.
      * destruct F3 as [S3 _]. destruct F1 as [S1 _]. congruence.
      * destruct F3 as [_ [o3 O3]], F1 as [_ [o1 O1]].
        exists (o1 ++ [range_complaint valid] ++ o3).
        rewrite O3, O2, O1. now rewrite <- !app_assoc.
      * rewrite I2 in L3. lia.
      * exact V.
Qed.

(** It never runs away either: every round reads a line, and there are at
    most three rounds that fail the range check. *)
Lemma select_id_terminates p valid n : never_diverges (select_id p valid n).
Proof.
  induction n as [|n IH]; intros w w'; simpl.
  - discriminate.
  - unfold bind at 1.
    destruct (validate_int_input p w) as [v w1|e w1] eqn:E1.
    + unfold bind. destruct (validate_range v valid w1) as [r w2|e w2] eqn:E2.
      * destruct r; [discriminate|apply IH].
      * unfold validate_range in E2.
        destruct (existsb (Z.eqb v) valid); discriminate.
    + intros H. injection H as -> ->.
      now apply validate_int_input_terminates in E1.
Qed.

End Readers.

(** ** Integers passed to SQLite *)

Lemma stored_found t i d :
  stored t i d <-> existsb (fun r => row_id r =? i) (rows (from t d)) = true.
Proof.
  unfold stored. rewrite existsb_exists, in_map_iff.
  split; intros (r & H1 & H2); exists r.
  - split; [exact H2|now apply Z.eqb_eq].
  - split; [now apply Z.eqb_eq|exact H1].
Qed.

(** The key of a stored row passes. *)
Lemma as_key_stored t i w : stored t i (store w) -> as_key t i w = Ok tt w.
Proof.
  intros H. apply stored_found in H. unfold as_key, bind, query.
  now rewrite H, orb_true_r.
Qed.

(** So does any integer of 64 bits. *)
Lemma as_key_int64 t i w : int64 i = true -> as_key t i w = Ok tt w.
Proof. intros H. unfold as_key, bind, query. now rewrite H. Qed.

(** Any other integer raises [OverflowError], before anything is written. *)
Lemma as_key_overflow t i w :
  int64 i = false -> ~ stored t i (store w) ->
  as_key t i w = Raise OverflowError w.
Proof.
  intros H N. unfold as_key, bind, query. rewrite H.
  destruct (existsb _ _) eqn:E; [|reflexivity].
  now apply stored_found in E.
Qed.

Lemma as_key_inv t i w u w' : as_key t i w = Ok u w' -> w' = w.
Proof.
  unfold as_key, bind, query. destruct (_ || _); [|discriminate].
  now intros [= _ <-].
Qed.

Lemma delete_record_run t id w :
  int64 id = true \/ stored t id (store w) ->
  delete_record t id w =
  Ok tt {| store := delete_cascade t id (store w); stdin := stdin w;
           stdout := stdout w ++
             [Print [Str "Record deleted from "; Str (table_label t); Str "."];
              border_line] |}.
Proof.
  intros H. unfold delete_record.
  rewrite (bind_ok _ _ w tt w)
    by (destruct H; [now apply as_key_int64|now apply as_key_stored]).
  unfold bind, execute, print, border, emit. simpl.
  now rewrite <- app_assoc.
Qed.

Lemma stored_row (t : table_name) (r : row_of t) d :
  In r (rows (from t d)) -> stored t (row_id r) d.
Proof. intros I. unfold stored. now apply in_map. Qed.

(** ** Deleting a category *)

Lemma references_spec id c : references id c = true <-> c = IdInt id.
Proof.
  destruct c as [z|s]; simpl.
  - rewrite Z.eqb_eq. split; [now intros ->|now intros [= ->]].
  - split; discriminate.
Qed.

Lemma key_found {R} (key : R -> Z) (l : list R) (r : R) :
  In r l -> existsb (fun x => key x =? key r) l = true.
Proof.
  intros I. apply existsb_exists. exists r. split; [exact I|apply Z.eqb_refl].
Qed.

Lemma filter_keeps_all {X} (p : X -> bool) (l : list X) :
  (forall x, In x l -> p x = true) -> filter p l = l.
Proof.
  induction l as [|x l IH]; simpl; intros H; [reflexivity|].
  rewrite (H x (or_introl eq_refl)). f_equal. apply IH. intros y I.
  apply H. now right.
Qed.

Lemma into_from t d : into t (from t d) d = d.
Proof. now destruct t as [[]|[]| |], d. Qed.

Section Cascade.

(** C3.  Deleting a category row [r0] through [delete_record] removes it
    and every row of the dependent transaction table ([expenses] for
    [expense_category], [income] for [income_category]) whose [category_id]
    equals its key; all other rows of the two tables stay. *)
Theorem delete_record_cascades (c : category_table) (r0 : category)
  (w : world) :
  In r0 (categories c (store w)) ->
  exists w',
    delete_record c (cat_id r0) w = Ok tt w' /\
    (forall r, In r (categories c (store w')) <->
               In r (categories c (store w)) /\ cat_id r <> cat_id r0) /\
    (forall e, In e (entries (entries_of c) (store w')) <->
               In e (entries (entries_of c) (store w)) /\
               entry_category e <> IdInt (cat_id r0)).
Proof.
  intros I0. eexists. split.
  { apply delete_record_run. right. exact (stored_row c r0 _ I0). }
  pose proof (key_found cat_id _ r0 I0) as F.
  destruct c; unfold categories, entries in *; simpl in *; rewrite F;
    simpl; split; intros x; rewrite filter_In, negb_true_iff.
  - now rewrite Z.eqb_neq.
  - now rewrite <- references_spec, not_true_iff_false.
  - now rewrite Z.eqb_neq.
  - now rewrite <- references_spec, not_true_iff_false.
Qed.

(** The budget of a deleted expense category goes with it. *)
Lemma delete_record_cascades_budgets (r0 : category) (w : world) :
  In r0 (categories expense_category (store w)) ->
  exists w',
    delete_record expense_category (cat_id r0) w = Ok tt w' /\
    forall b, In b (rows (db_budgets (store w'))) <->
              In b (rows (db_budgets (store w))) /\
              budget_category b <> cat_id r0.
Proof.
  intros I0. eexists. split.
  { apply delete_record_run. right.
    exact (stored_row expense_category r0 _ I0). }
  intros b.
  pose proof (key_found cat_id _ r0 I0) as F.
  unfold categories in *. simpl in *. rewrite F. simpl.
  rewrite filter_In, negb_true_iff. now rewrite Z.eqb_neq.
Qed.

(** Deleting a transaction touches no other table and no other row. *)
Lemma delete_record_entry_only (e : entry_table) (id : Z) (w : world) :
  int64 id = true \/ stored e id (store w) ->
  exists w',
    delete_record e id w = Ok tt w' /\
    store w' =
      into e (delete_where (fun r => entry_id r =? id) (from e (store w)))
        (store w).
Proof.
  intros H. eexists. split; [now apply delete_record_run|]. now destruct e.
Qed.

(** Deleting an identifier that no row of the table carries changes
    nothing. *)
Lemma delete_cascade_absent (t : table_name) (id : Z) (d : database) :
  (forall r, In r (rows (from t d)) -> row_id r <> id) ->
  delete_cascade t id d = d.
Proof.
  intros H. unfold delete_cascade.
  assert (existsb (fun r => row_id r =? id) (rows (from t d)) = false)
    as F.
  { apply not_true_iff_false. intros E.
    apply existsb_exists in E as (r & I & E). apply Z.eqb_eq in E.
    now apply (H r). }
  assert (delete_where (fun r => row_id r =? id) (from t d) = from t d) as D.
  { unfold delete_where. rewrite filter_keeps_all.
    - now destruct (from t d).
    - intros r I. apply negb_true_iff, Z.eqb_neq. now apply H. }
  rewrite F, D, into_from. now destruct t as [[]|[]| |].
Qed.

End Cascade.

(** ** Adding a category *)

Lemma existsb_filter_nil {X} (p : X -> bool) l :
  existsb p l = false <-> filter p l = [].
Proof.
  induction l as [|x l IH]; simpl; [tauto|].
  destruct (p x); simpl; [split; discriminate|exact IH].
Qed.

Lemma categories_into c tb d : categories c (into c tb d) = rows tb.
Proof. now destruct c. Qed.

Section AddCategory.
Context {RT : Runtime}.

Lemma add_category_present c n msg w :
  named c (title n) (store w) <> [] ->
  add_category c n msg w =
  Ok tt {| store := store w; stdin := stdin w;
           stdout := stdout w ++ [Print [Str msg]; border_line] |}.
Proof.
  intros H. unfold add_category, bind, query.
  destruct (existsb _ _) eqn:E.
  - unfold print, border, emit. simpl. now rewrite <- app_assoc.
  - apply existsb_filter_nil in E. now destruct H.
Qed.

Lemma add_category_absent c n msg w :
  named c (title n) (store w) = [] ->
  exists w',
    add_category c n msg w = Ok tt w' /\
    stdin w' = stdin w /\
    categories c (store w') =
      categories c (store w) ++
      [{| cat_id := seq (from c (store w)) + 1; cat_name := title n |}].
Proof.
  intros H. unfold add_category, bind, query.
  replace (existsb _ _) with false
    by (symmetry; now apply existsb_filter_nil).
  eexists. split; [reflexivity|]. split; [reflexivity|].
  simpl. now rewrite categories_into.
Qed.

(** C4.  Two [add_category] calls whose names agree after title-casing:
    both return, the second one prints its message and leaves the store as
    it was, and the table ends up with exactly one row of that title-cased
    name (the table held at most one before, as [UNIQUE] guarantees). *)
Theorem add_category_twice (c : category_table) (n1 n2 msg1 msg2 : string)
  (w : world) :
  title n1 = title n2 ->
  (List.length (named c (title n1) (store w)) <= 1)%nat ->
  exists w1 w2,
    add_category c n1 msg1 w = Ok tt w1 /\
    add_category c n2 msg2 w1 = Ok tt w2 /\
    store w2 = store w1 /\
    stdout w2 = stdout w1 ++ [Print [Str msg2]; border_line] /\
    List.length (named c (title n1) (store w2)) = 1%nat.
Proof.
  intros T U.
  assert (forall w1, List.length (named c (title n1) (store w1)) = 1%nat ->
            exists w2, add_category c n2 msg2 w1 = Ok tt w2 /\
              store w2 = store w1 /\
              stdout w2 = stdout w1 ++ [Print [Str msg2]; border_line] /\
              List.length (named c (title n1) (store w2)) = 1%nat) as Second.
  { intros w1 L. eexists. split.
    - apply add_category_present. rewrite <- T.
      intros N. rewrite N in L. discriminate.
    - simpl. auto. }
  destruct (named c (title n1) (store w)) as [|r rest] eqn:N.
  - destruct (add_category_absent c n1 msg1 w N) as (w1 & R1 & _ & C1).
    assert (List.length (named c (title n1) (store w1)) = 1%nat) as L1.
    { unfold named in *. rewrite C1, filter_app, N. simpl.
      now rewrite String.eqb_refl. }
    destruct (Second w1 L1) as (w2 & R2 & P).
    exists w1, w2. auto.
  - assert (rest = []) as -> by (destruct rest; [reflexivity|simpl in U; lia]).
    pose (w1 := {| store := store w; stdin := stdin w;
                   stdout := stdout w ++ [Print [Str msg1]; border_line] |}).
    assert (add_category c n1 msg1 w = Ok tt w1) as R1.
    { apply add_category_present. now rewrite N. }
    assert (List.length (named c (title n1) (store w1)) = 1%nat) as L1.
    { simpl. now rewrite N. }
    destruct (Second w1 L1) as (w2 & R2 & P).
    exists w1, w2. auto.
Qed.

End AddCategory.

(** ** Totals *)

Lemma numbers_non_null {A} (l : list (option A)) xs :
  numbers l = Some xs -> non_null l = xs.
Proof.
  revert xs. induction l as [|[a|] l IH]; simpl; intros xs H.
  - now injection H.
  - destruct (numbers l) as [ys|]; [|discriminate].
    injection H as <-. now rewrite (IH ys eq_refl).
  - discriminate.
Qed.

Lemma numbers_all {A} (l : list (option A)) :
  Forall (fun x => x <> None) l -> numbers l = Some (non_null l).
Proof.
  induction 1 as [|[a|] l H F IH]; simpl; [reflexivity| |now destruct H].
  now rewrite IH.
Qed.

Lemma numbers_none {A} (l : list (option A)) : In None l -> numbers l = None.
Proof.
  induction l as [|[a|] l IH]; simpl; [intros []| |reflexivity].
  intros [H|H]; [discriminate|]. now rewrite IH.
Qed.

Section Overall.
Context {RT : Runtime}.

Lemma or_zero_sql_sum l :
  or_zero (sql_sum l) =
  (if PrimFloat.is_zero (real_total l) then 0 else real_total l)%float.
Proof.
  unfold sql_sum, real_total. destruct (non_null l); [reflexivity|].
  now destruct (real_sum _).
Qed.

(** [py_sum] over amounts that are all numbers. *)
Lemma py_sum_numbers l w :
  Forall (fun x => x <> None) l -> py_sum l w = Ok (float_total l) w.
Proof.
  intros H. unfold py_sum, float_total. destruct l as [|x l]; [reflexivity|].
  rewrite (numbers_all _ H).
  inversion H as [|? ? Hx _]; subst. destruct x as [a|]; [|now destruct Hx].
  reflexivity.
Qed.

(** [py_sum] over amounts one of which is NULL. *)
Lemma py_sum_null l w : In None l -> py_sum l w = Raise TypeError w.
Proof.
  intros H. unfold py_sum. destruct l as [|x l]; [destruct H|].
  now rewrite (numbers_none _ H).
Qed.

(** C6, amended.  [display_current_budget] prints, for income and for
    expenses, the total that SQLite's [SUM] computes in double precision over
    the amounts of the table that are not NULL (0 when there is none, or when
    the sum is zero), then the double-precision difference of the two
    printed totals; it reads nothing and leaves the store as it found it. *)
Theorem display_current_budget_totals (w : world) :
  let total_income := overall income (store w) in
  let total_expenses := overall expenses (store w) in
  display_current_budget w =
  Ok tt {| store := store w; stdin := stdin w;
           stdout := stdout w ++
             [Print [Str nl; Str "Total Income: "; Amt total_income];
              Print [Str "Total Expenses: "; Amt total_expenses];
              Print [Str "Current Overall Budget: ";
                     Amt (total_income - total_expenses)%float]] |} /\
  (non_null (map entry_amount (entries income (store w))) = [] ->
   total_income = 0%float) /\
  (non_null (map entry_amount (entries expenses (store w))) = [] ->
   total_expenses = 0%float).
Proof.
  cbv zeta. split; [|split].
  - unfold display_current_budget, bind, query, print, emit. simpl.
    rewrite !or_zero_sql_sum. unfold overall.
    now rewrite <- !app_assoc.
  - intros E. unfold overall, real_total. now rewrite E.
  - intros E. unfold overall, real_total. now rewrite E.
Qed.

End Overall.

(** ** Listings through the category join *)


Lemma join_category_cons e es cs :
  join_category (e :: es) cs =
  map (fun c => (entry_id e, cat_name c, entry_amount e))
    (filter (fun c => references (cat_id c) (entry_category e)) cs)
  ++ join_category es cs.
Proof. reflexivity. Qed.




(** Rows without a category contribute nothing to the join. *)
Lemma join_category_listed es cs :
  join_category (filter (has_category cs) es) cs = join_category es cs.
Proof.
  induction es as [|e es IH]; [reflexivity|]. cbn [filter].
  destruct (has_category cs e) eqn:H.
  - rewrite !join_category_cons. now rewrite IH.
  - rewrite join_category_cons, IH.
    apply existsb_filter_nil in H. now rewrite H.
Qed.

(** A joined row is an entry that has a category, with its amount. *)
Lemma joined_row_entry es cs i name a :
  In (i, name, a) (join_category es cs) ->
  exists e, In e es /\ entry_id e = i /\ entry_amount e = a /\
            has_category cs e = true.
Proof.
  induction es as [|e es IH]; [intros []|].
  rewrite join_category_cons, in_app_iff. intros [H|H].
  - apply in_map_iff in H as (c & E & I). injection E as <- _ <-.
    exists e. split; [now left|]. repeat split.
    apply filter_In in I as [I R]. apply existsb_exists. now exists c.
  - destruct (IH H) as (x & I & E). exists x. split; [now right|exact E].
Qed.

(** An entry that has a category shows in the join, with its amount. *)
Lemma entry_joined_row es cs e :
  In e es -> has_category cs e = true ->
  exists name, In (entry_id e, name, entry_amount e) (join_category es cs).
Proof.
  intros I C. induction es as [|x es IH]; [destruct I|].
  destruct I as [->|I].
  - apply existsb_exists in C as (c & Ic & Rc). exists (cat_name c).
    rewrite join_category_cons, in_app_iff. left.
    apply in_map_iff. exists c. split; [reflexivity|].
    apply filter_In. now split.
  - destruct (IH I) as (name & H). exists name.
    rewrite join_category_cons, in_app_iff. now right.
Qed.

Lemma joined_priced t d :
  Forall priced (listed t d) ->
  Forall (fun x => x <> None) (map snd (joined t d)).
Proof.
  intros H. apply Forall_forall. intros a I.
  apply in_map_iff in I as ([[i name] a'] & E & I). simpl in E. subst a'.
  apply joined_row_entry in I as (e & Ie & _ & <- & C).
  rewrite Forall_forall in H. apply H. apply filter_In. now split.
Qed.

(** The amounts of the listed rows are all numbers, or one of them is
    NULL. *)
Lemma priced_or_null t d :
  Forall priced (listed t d) \/ In None (map snd (joined t d)).
Proof.
  assert (forall l : list (option float),
            Forall (fun x => x <> None) l \/ In None l) as D.
  { induction l as [|[a|] l IH].
    - left. constructor.
    - destruct IH as [IH|IH]; [left|right; now right].
      constructor; [discriminate|exact IH].
    - right. now left. }
  destruct (D (map snd (joined t d))) as [F|N]; [left|now right].
  apply Forall_forall. intros x Ix.
  unfold listed in Ix. apply filter_In in Ix as [Ix Cx].
  destruct (entry_joined_row _ _ x Ix Cx) as (name & Jx).
  rewrite Forall_forall in F. apply F.
  apply in_map_iff. now exists (entry_id x, name, entry_amount x).
Qed.

Section Views.
Context {RT : Runtime}.

Lemma view_expenses_run w :
  Forall priced (listed expenses (store w)) ->
  view_expenses w =
  Ok (Some (map (fun x => fst (fst x)) (joined expenses (store w))))
     {| store := store w; stdin := stdin w;
        stdout := stdout w ++ expense_listing (joined expenses (store w)) |}.
Proof.
  intros P. apply joined_priced in P.
  unfold view_expenses, fetch_expenses, fetch_joined, bind at 1, query.
  fold (joined expenses (store w)).
  destruct (joined expenses (store w)) as [|x l] eqn:J.
  - unfold bind, print, border, emit, ret. simpl. now rewrite <- !app_assoc.
  - unfold bind at 1 2. unfold print at 1, tabulate, emit.
    cbn [store stdin stdout].
    rewrite (bind_ok _ _ _ _ _ (py_sum_numbers _ _ P)).
    unfold bind, print, border, emit, ret, float_total. simpl.
    inversion P as [|? ? Hx _]; subst.
    destruct x as [[i name] [a|]]; [|now destruct Hx]. simpl.
    now rewrite <- !app_assoc.
Qed.


(** A listed row whose amount is NULL: the table is printed, then the sum
    fails. *)
Lemma view_expenses_null w :
  In None (map snd (joined expenses (store w))) ->
  view_expenses w =
  Raise TypeError
    {| store := store w; stdin := stdin w;
       stdout := stdout w ++ expense_table (joined expenses (store w)) |}.
Proof.
  intros N.
  unfold view_expenses, fetch_expenses, fetch_joined, bind at 1, query.
  fold (joined expenses (store w)).
  destruct (joined expenses (store w)) as [|x l] eqn:J; [destruct N|].
  unfold bind at 1 2. unfold print at 1, tabulate, emit.
  cbn [store stdin stdout].
  rewrite (bind_raise _ _ _ _ _ (py_sum_null _ _ N)).
  unfold expense_table. now rewrite <- app_assoc.
Qed.

Lemma view_income_null w :
  In None (map snd (joined income (store w))) ->
  view_income w =
  Raise TypeError
    {| store := store w; stdin := stdin w;
       stdout := stdout w ++ income_table (joined income (store w)) |}.
Proof.
  intros N.
  unfold view_income, fetch_income, fetch_joined, bind at 1, query.
  fold (joined income (store w)).
  destruct (joined income (store w)) as [|x l] eqn:J; [destruct N|].
  unfold bind at 1 2. unfold print at 1, tabulate, emit.
  cbn [store stdin stdout].
  rewrite (bind_raise _ _ _ _ _ (py_sum_null _ _ N)).
  unfold income_table. now rewrite <- app_assoc.
Qed.

(** Whenever a listing returns, it has written to the terminal only, and
    what it returns are keys of stored rows. *)
Lemma view_joined_inv (t : entry_table) w ids w' :
  match t with expenses => view_expenses | income => view_income end w
    = Ok ids w' ->
  store w' = store w /\ stdin w' = stdin w /\
  forall i, In i (the_list ids) -> stored t i (store w).
Proof.
  assert (forall i, In i (map (fun x => fst (fst x)) (joined t (store w))) ->
                    stored t i (store w)) as S.
  { intros i I. apply in_map_iff in I as ([[i' name] a] & E & I).
    simpl in E. subst i'.
    apply joined_row_entry in I as (e & Ie & <- & _).
    exact (stored_row t e _ Ie). }
  destruct t; intros H;
    [unfold view_expenses, fetch_expenses in H
    |unfold view_income, fetch_income in H];
    unfold fetch_joined, bind at 1, query in H;
    match type of H with
    | context [join_category ?es ?cs] =>
        change (join_category es cs) with (joined expenses (store w)) in H
        || change (join_category es cs) with (joined income (store w)) in H
    end.
  - destruct (joined expenses (store w)) as [|x l] eqn:J.
    + unfold bind, print, border, emit, ret in H. injection H as <- <-.
      simpl. repeat split. intros i [].
    + unfold bind at 1 2 in H. unfold print at 1, tabulate, emit in H.
      cbn [store stdin stdout] in H.
      unfold bind at 1 in H. unfold py_sum in H.
      destruct (numbers _); [|discriminate].
      unfold bind, print, border, emit, ret in H. injection H as <- <-.
      simpl. repeat split. exact S.
  - destruct (joined income (store w)) as [|x l] eqn:J.
    + unfold bind, print, border, emit, ret in H. injection H as <- <-.
      simpl. repeat split. intros i [].
    + unfold bind at 1 2 in H. unfold print at 1, tabulate, emit in H.
      cbn [store stdin stdout] in H.
      unfold bind at 1 in H. unfold py_sum in H.
      destruct (numbers _); [|discriminate].
      unfold bind, print, border, emit, ret in H. injection H as <- <-.
      simpl. repeat split. exact S.
Qed.

End Views.

Lemma joined_id_has_category es cs i :
  In i (map (fun x => fst (fst x)) (join_category es cs)) ->
  exists e, In e es /\ entry_id e = i /\ has_category cs e = true.
Proof.
  intros I. apply in_map_iff in I as ([[i' name] a] & E & I).
  simpl in E. subst i'.
  apply joined_row_entry in I as (e & Ie & Ei & _ & C). now exists e.
Qed.

Lemma joined_row_id l row :
  In row (listing_rows l) ->
  exists i, hd_error row = Some (Int i) /\ In i (map (fun x => fst (fst x)) l).
Proof.
  unfold listing_rows. intros H.
  apply in_map_iff in H as ([[i name] a] & <- & I).
  exists i. split; [reflexivity|]. apply in_map_iff. now exists (i, name, a).
Qed.

Lemma NoDup_key_eq {R} (key : R -> Z) l x y :
  NoDup (map key l) -> In x l -> In y l -> key x = key y -> x = y.
Proof.
  induction l as [|a l IH]; [intros _ []|]. simpl. intros N.
  inversion N as [|? ? NI N']; subst. intros [->|X] [->|Y] E; auto.
  - destruct NI. rewrite E. now apply in_map.
  - destruct NI. rewrite <- E. now apply in_map.
Qed.

Lemma join_category_without es cs id :
  (forall x, In x es -> entry_id x = id -> has_category cs x = false) ->
  join_category (filter (fun r => negb (entry_id r =? id)) es) cs =
  join_category es cs.
Proof.
  induction es as [|e es IH]; [reflexivity|]. intros H. cbn [filter].
  assert (join_category (filter (fun r => negb (entry_id r =? id)) es) cs =
          join_category es cs) as IH'.
  { apply IH. intros x I. apply H. now right. }
  destruct (entry_id e =? id) eqn:E; simpl negb; cbv iota.
  - rewrite join_category_cons, IH'. apply Z.eqb_eq in E.
    pose proof (H e (or_introl eq_refl) E) as C.
    apply existsb_filter_nil in C. now rewrite C.
  - now rewrite !join_category_cons, IH'.
Qed.

Lemma listed_without es cs id :
  (forall x, In x es -> entry_id x = id -> has_category cs x = false) ->
  filter (has_category cs) (filter (fun r => negb (entry_id r =? id)) es) =
  filter (has_category cs) es.
Proof.
  induction es as [|e es IH]; [reflexivity|]. intros H. cbn [filter].
  assert (filter (has_category cs)
            (filter (fun r => negb (entry_id r =? id)) es) =
          filter (has_category cs) es) as IH'.
  { apply IH. intros x I. apply H. now right. }
  destruct (entry_id e =? id) eqn:E; simpl negb; cbv iota.
  - apply Z.eqb_eq in E. rewrite (H e (or_introl eq_refl) E). exact IH'.
  - cbn [filter]. now rewrite IH'.
Qed.

Section Listings.
Context {RT : Runtime}.

(** C10.  An expense row whose [category_id] is the key of no expense
    category (the primary key [id] of [expenses] being unique) is left out of
    what [view_expenses] shows: no line of the printed table starts with its
    identifier, and the whole run is the one obtained on the store without
    that row.  When the amounts of the rows that are shown are all numbers,
    the run returns, with the table and the total, and the identifier is not
    in the returned list.  When one of them is NULL, the run stops with
    [TypeError] after the table, on both stores. *)
Theorem view_expenses_skips_uncategorised (w : world) (e : entry) :
  In e (entries expenses (store w)) ->
  has_category (categories expense_category (store w)) e = false ->
  NoDup (map entry_id (entries expenses (store w))) ->
  let d := delete_cascade expenses (entry_id e) (store w) in
  exists o,
    (forall headers body row,
       In (Tabulate headers body) o -> In row body ->
       hd_error row <> Some (Int (entry_id e))) /\
    (Forall priced (listed expenses (store w)) ->
     exists ids,
       view_expenses w =
         Ok (Some ids) {| store := store w; stdin := stdin w;
                          stdout := stdout w ++ o |} /\
       ~ In (entry_id e) ids /\
       view_expenses {| store := d; stdin := stdin w; stdout := stdout w |} =
         Ok (Some ids) {| store := d; stdin := stdin w;
                          stdout := stdout w ++ o |}) /\
    (~ Forall priced (listed expenses (store w)) ->
     view_expenses w =
       Raise TypeError {| store := store w; stdin := stdin w;
                          stdout := stdout w ++ o |} /\
     view_expenses {| store := d; stdin := stdin w; stdout := stdout w |} =
       Raise TypeError {| store := d; stdin := stdin w;
                          stdout := stdout w ++ o |}).
Proof.
  intros I C N d.
  assert (~ In (entry_id e)
            (map (fun x => fst (fst x)) (joined expenses (store w)))) as Out.
  { intros H. apply joined_id_has_category in H as (x & Ix & E & Cx).
    assert (x = e) as -> by (eapply NoDup_key_eq; eauto).
    unfold category_of in Cx. congruence. }
  assert (forall x, In x (entries expenses (store w)) ->
                    entry_id x = entry_id e ->
                    has_category (categories expense_category (store w)) x
                    = false) as Only.
  { intros x Ix E.
    assert (x = e) as -> by (eapply NoDup_key_eq; eauto). exact C. }
  assert (joined expenses d = joined expenses (store w)) as J.
  { unfold d, joined, entries, categories. simpl.
    now apply join_category_without. }
  assert (listed expenses d = listed expenses (store w)) as L.
  { unfold d, listed, entries, categories. simpl. now apply listed_without. }
  assert (forall headers body row,
            In (Tabulate headers body)
              (expense_listing (joined expenses (store w))) ->
            In row body -> hd_error row <> Some (Int (entry_id e))) as Lines.
  { intros headers body row T R H.
    destruct (joined expenses (store w)) as [|x l] eqn:Jx;
      unfold expense_listing, expense_table in T; cbn [In app] in T.
    - destruct T as [T|[T|[]]]; discriminate.
    - destruct T as [T|[T|[T|[T|[]]]]]; try discriminate.
      injection T as _ <-. change (In row (listing_rows (x :: l))) in R.
      apply joined_row_id in R as (i & Hi & Ii).
      rewrite Hi in H. injection H as ->. now apply Out. }
  destruct (priced_or_null expenses (store w)) as [P|Null].
  - exists (expense_listing (joined expenses (store w))).
    split; [exact Lines|]. split; [|intros NP; now destruct NP].
    intros _.
    exists (map (fun x => fst (fst x)) (joined expenses (store w))).
    split; [now apply view_expenses_run|]. split; [exact Out|].
    rewrite view_expenses_run; cbn [store stdin stdout].
    + now rewrite J.
    + now rewrite L.
  - exists (expense_table (joined expenses (store w))).
    split; [|split].
    + intros headers body row T. apply (Lines headers).
      unfold expense_listing.
      destruct (joined expenses (store w)); [destruct Null|].
      apply in_or_app. now left.
    + intros P. apply joined_priced in P. rewrite Forall_forall in P.
      now destruct (P None Null).
    + intros _. split; [now apply view_expenses_null|].
      rewrite view_expenses_null; cbn [store stdin stdout].
      * now rewrite J.
      * now rewrite J.
Qed.



End Listings.

(** ** Budget against spending *)

Lemma view_all_budgets_run w :
  view_all_budgets w =
  Ok (Some (map budget_id (rows (db_budgets (store w)))))
     {| store := store w; stdin := stdin w;
        stdout := stdout w ++ budget_listing (rows (db_budgets (store w))) |}.
Proof.
  unfold view_all_budgets, fetch_all, bind, query. simpl.
  destruct (rows (db_budgets (store w))) as [|x l];
    unfold print, tabulate, border, emit, ret; simpl;
    now rewrite <- !app_assoc.
Qed.

Lemma filter_by_key {R} (key : R -> Z) (l : list R) (b : R) :
  NoDup (map key l) -> In b l ->
  filter (fun r => key r =? key b) l = [b].
Proof.
  induction l as [|x l IH]; [intros _ []|]. simpl. intros N.
  inversion N as [|? ? NI N']; subst. intros [->|I].
  - rewrite Z.eqb_refl. f_equal. apply existsb_filter_nil.
    destruct (existsb _ l) eqn:X; [|reflexivity].
    apply existsb_exists in X as (y & Iy & Y). apply Z.eqb_eq in Y.
    destruct NI. rewrite <- Y. now apply in_map.
  - destruct (key x =? key b) eqn:E; [|auto].
    apply Z.eqb_eq in E. destruct NI. rewrite E. now apply in_map.
Qed.

Lemma joined_amounts_some (b : budget) (l : list entry) :
  joined_amounts (map (fun e => (b, Some e)) l) = map entry_amount l.
Proof. induction l as [|x l IH]; [reflexivity|]. simpl. now rewrite IH. Qed.

Lemma references_filed_under c es :
  filter (fun e => references c (entry_category e)) es =
  filter (filed_under c) es.
Proof.
  apply filter_ext. intros e. unfold filed_under.
  now destruct (entry_category e).
Qed.

Section Variance.
Context {RT : Runtime}.

Lemma budget_spent_unique d b :
  NoDup (map budget_id (rows (db_budgets d))) ->
  In b (rows (db_budgets d)) ->
  budget_spent (budget_id b) d =
  Some (budget_amount b, spent (budget_category b) d).
Proof.
  intros N I. unfold budget_spent, budget_join.
  rewrite (filter_by_key budget_id _ b N I). simpl. rewrite app_nil_r.
  unfold spent, amounts_under, entries, real_total. simpl.
  rewrite references_filed_under.
  destruct (filter _ (rows (db_expenses d))) as [|e es]; [reflexivity|].
  change ((b, Some e) :: map (fun x => (b, Some x)) es)
    with (map (fun x => (b, Some x)) (e :: es)).
  rewrite joined_amounts_some. unfold sql_sum.
  now destruct (non_null _).
Qed.

(** C1, amended.  For a budget row [b] (budget keys being unique) whose
    amount is a number [B] and that the user selects in
    [view_category_budget], the details printed are [B], the total [S] that
    SQLite's [SUM] computes in double precision over the amounts, NULL ones
    left out, of the expense rows of the budget's category, and then "over
    budget" by the double-precision difference [S - B] exactly when [S > B]
    holds between the two doubles, "within the budget" otherwise; [S] is 0
    when the category has no expense row. *)
Theorem view_category_budget_variance (w w1 w2 : world)
  (ids : option (list Z)) (b : budget) (B : float) :
  NoDup (map budget_id (rows (db_budgets (store w)))) ->
  In b (rows (db_budgets (store w))) ->
  budget_amount b = Some B ->
  view_all_budgets w = Ok ids w1 ->
  select_id "Enter budget ID to view details: " (the_list ids) 3 w1
    = Ok (Some (budget_id b)) w2 ->
  let S := spent (budget_category b) (store w) in
  exists verdict,
    view_category_budget w =
      Ok tt {| store := store w; stdin := stdin w2;
               stdout := stdout w2 ++
                 [Print [Str nl; Str "Details for Budget ID ";
                         Int (budget_id b); Str ":"];
                  Print [Str "Budget Amount: £"; Amt B];
                  Print [Str "Total Spent: £"; Amt S];
                  verdict;
                  Print [Str "----------"; Str nl]] |} /\
    ((B <? S)%float = true /\
     verdict = Print [Str "Expenditure is £"; Amt (S - B)%float;
                      Str " over budget."]
     \/
     (B <? S)%float = false /\
     verdict = Print [Str "Expenditure is within the budget."]) /\
    (filter (filed_under (budget_category b)) (entries expenses (store w)) = []
     -> S = 0%float).
Proof.
  intros N I HB H1 H2 S.
  assert (store w2 = store w /\ falsy ids = false) as [St F].
  { rewrite view_all_budgets_run in H1. injection H1 as <- <-.
    apply select_id_frame in H2 as ([St _] & _). split; [exact St|].
    destruct (rows (db_budgets (store w))); [destruct I|reflexivity]. }
  pose proof (budget_spent_unique (store w) b N I) as Q. fold S in Q.
  rewrite HB in Q.
  exists (if (B <? S)%float
          then Print [Str "Expenditure is £"; Amt (S - B)%float;
                      Str " over budget."]
          else Print [Str "Expenditure is within the budget."]).
  split; [|split].
  - unfold view_category_budget.
    rewrite (bind_ok _ _ _ _ _ H1), F, (bind_ok _ _ _ _ _ H2).
    rewrite (bind_ok _ _ w2 tt w2).
    2:{ apply as_key_stored. rewrite St.
        exact (stored_row budgets b _ I). }
    unfold bind at 1. unfold query. rewrite St, Q.
    unfold bind, print, emit, format_amount, ret. simpl.
    destruct (B <? S)%float; simpl; rewrite St, <- !app_assoc; reflexivity.
  - destruct (B <? S)%float eqn:G; [left|right]; now split.
  - intros E. unfold S, spent, amounts_under. now rewrite E.
Qed.

(** A budget whose amount is NULL cannot be shown: the view stops with
    [TypeError] once it has announced the budget. *)
Lemma view_category_budget_null (w w1 w2 : world)
  (ids : option (list Z)) (b : budget) :
  NoDup (map budget_id (rows (db_budgets (store w)))) ->
  In b (rows (db_budgets (store w))) ->
  budget_amount b = None ->
  view_all_budgets w = Ok ids w1 ->
  select_id "Enter budget ID to view details: " (the_list ids) 3 w1
    = Ok (Some (budget_id b)) w2 ->
  view_category_budget w =
  Raise TypeError
    {| store := store w; stdin := stdin w2;
       stdout := stdout w2 ++
         [Print [Str nl; Str "Details for Budget ID ";
                 Int (budget_id b); Str ":"]] |}.
Proof.
  intros N I HB H1 H2.
  assert (store w2 = store w /\ falsy ids = false) as [St F].
  { rewrite view_all_budgets_run in H1. injection H1 as <- <-.
    apply select_id_frame in H2 as ([St _] & _). split; [exact St|].
    destruct (rows (db_budgets (store w))); [destruct I|reflexivity]. }
  pose proof (budget_spent_unique (store w) b N I) as Q. rewrite HB in Q.
  unfold view_category_budget.
  rewrite (bind_ok _ _ _ _ _ H1), F, (bind_ok _ _ _ _ _ H2).
  rewrite (bind_ok _ _ w2 tt w2).
  2:{ apply as_key_stored. rewrite St. exact (stored_row budgets b _ I). }
  unfold bind at 1. unfold query. rewrite St, Q.
  unfold bind, print, emit, format_amount, raise. simpl. now rewrite St.
Qed.

End Variance.

Lemma in_the_list_truthy (ids : option (list Z)) (id : Z) :
  In id (the_list ids) -> falsy ids = false.
Proof. destruct ids as [[|x l]|]; simpl; tauto. Qed.

(** ** Goals *)

Lemma find_by_key {R} (key : R -> Z) (l : list R) (g : R) :
  NoDup (map key l) -> In g l ->
  find (fun r => key r =? key g) l = Some g.
Proof.
  induction l as [|x l IH]; [intros _ []|]. simpl. intros N.
  inversion N as [|? ? NI N']; subst. intros [->|I].
  - now rewrite Z.eqb_refl.
  - destruct (key x =? key g) eqn:E; [|auto].
    apply Z.eqb_eq in E. destruct NI. rewrite E. now apply in_map.
Qed.

Section Goals.
Context {RT : Runtime}.

(** C5, amended.  For a goal [g] (goal keys being unique) whose target and
    progress are numbers [T] and [P] and that the user selects in
    [view_goal_progress], the report ends with "target reached" exactly when
    [P >= T] holds between the two doubles, and otherwise with the shortfall
    [T - P] computed in double precision; no shortfall is printed when the
    target is reached. *)
Theorem view_goal_progress_shortfall (w w1 w2 : world)
  (ids : option (list Z)) (g : goal) (T P : float) :
  NoDup (map goal_id (rows (db_financial_goals (store w)))) ->
  In g (rows (db_financial_goals (store w))) ->
  goal_target g = NumReal T ->
  goal_progress g = NumReal P ->
  view_current_goals w = Ok ids w1 ->
  select_id "Enter goal ID to view progress: " (the_list ids) 3 w1
    = Ok (Some (goal_id g)) w2 ->
  exists verdict,
    view_goal_progress w =
      Ok tt {| store := store w; stdin := stdin w2;
               stdout := stdout w2 ++
                 [Print [Str nl; Str "Goal: "; Str (goal_description g)];
                  Print [Str "Target Amount: £"; Amt T];
                  Print [Str "Current Progress: £"; Amt P];
                  verdict;
                  border_line] |} /\
    ((T <=? P)%float = true /\
     verdict = Print [Str nl; Str "You have reached your saving target!"]
     \/
     (T <=? P)%float = false /\
     verdict = Print [Str nl; Str "You are £"; Amt (T - P)%float;
                      Str " short of your target."]).
Proof.
  intros N I HT HP H1 H2.
  pose proof (select_id_frame _ _ _ _ _ _ H2) as ([St2 _] & _ & V).
  assert (falsy ids = false) as F
    by (eapply in_the_list_truthy, V; reflexivity).
  assert (store w1 = store w) as St1.
  { unfold view_current_goals, fetch_all, bind, query in H1.
    destruct (rows (from financial_goals (store w)));
      unfold print, tabulate, border, emit, ret in H1; simpl in H1;
      now injection H1 as _ <-. }
  exists (if (T <=? P)%float
          then Print [Str nl; Str "You have reached your saving target!"]
          else Print [Str nl; Str "You are £"; Amt (T - P)%float;
                      Str " short of your target."]).
  split.
  - unfold view_goal_progress.
    rewrite (bind_ok _ _ _ _ _ H1), F, (bind_ok _ _ _ _ _ H2).
    rewrite (bind_ok _ _ w2 tt w2).
    2:{ apply as_key_stored. rewrite St2, St1.
        exact (stored_row financial_goals g _ I). }
    unfold bind at 1. unfold query. rewrite St2, St1.
    rewrite (find_by_key goal_id _ g N I).
    unfold bind, print, border, emit, format_real, ret. rewrite HT, HP. simpl.
    destruct (T <=? P)%float; simpl; rewrite St2, St1, <- !app_assoc;
      reflexivity.
  - destruct (T <=? P)%float eqn:L; [left|right]; now split.
Qed.

End Goals.

(** ** One budget per category *)

Lemma view_expense_categories_run w :
  view_expense_categories w =
  Ok (Some (map cat_id (categories expense_category (store w))))
     {| store := store w; stdin := stdin w;
        stdout := stdout w ++
          category_listing (categories expense_category (store w)) |}.
Proof.
  unfold view_expense_categories, fetch_all, bind, query, categories. simpl.
  destruct (rows (db_expense_category (store w))) as [|x l];
    unfold print, tabulate, border, emit, ret; simpl;
    now rewrite <- !app_assoc.
Qed.

Section OneBudget.
Context {RT : Runtime}.

(** C2.  When the expense category [c] the user selects in
    [set_category_budget] already has a budget row [b], the action prints
    that the budget already exists and returns with the store exactly as it
    was: no row is inserted and [b] keeps its amount. *)
Theorem set_category_budget_rejects_second (w w1 w2 w3 : world)
  (ids : option (list Z)) (c : Z) (a : float) (b : budget) :
  In b (rows (db_budgets (store w))) ->
  budget_category b = c ->
  view_expense_categories w = Ok ids w1 ->
  select_id "Enter category ID to set budget: " (the_list ids) 3 w1
    = Ok (Some c) w2 ->
  validate_float_input "Enter budget amount: £" w2 = Ok a w3 ->
  set_category_budget w =
    Ok tt {| store := store w; stdin := stdin w3;
             stdout := stdout w3 ++
               [Print [Str "Budget for category ID "; Int c;
                       Str " already exists."]] |}.
Proof.
  intros I C H1 H2 H3.
  pose proof (select_id_frame _ _ _ _ _ _ H2) as ([St2 _] & _ & V).
  assert (falsy ids = false) as F
    by (eapply in_the_list_truthy, V; reflexivity).
  assert (store w1 = store w /\
          ids = Some (map cat_id (categories expense_category (store w))))
    as [St1 Ids]
    by (rewrite view_expense_categories_run in H1; now injection H1 as <- <-).
  pose proof (validate_float_input_frame _ _ _ _ H3) as ([St3 _] & _).
  unfold set_category_budget.
  rewrite (bind_ok _ _ _ _ _ H1), F, (bind_ok _ _ _ _ _ H2),
    (bind_ok _ _ _ _ _ H3).
  rewrite (bind_ok _ _ w3 tt w3).
  2:{ apply as_key_stored. rewrite St3, St2, St1.
      specialize (V c eq_refl). rewrite Ids in V. exact V. }
  unfold bind, query. rewrite St3, St2, St1.
  replace (existsb _ (rows (db_budgets (store w)))) with true.
  - unfold print, emit. now rewrite St3, St2, St1.
  - symmetry. apply existsb_exists. exists b. split; [exact I|].
    now apply Z.eqb_eq.
Qed.

End OneBudget.

(** ** Retry loops *)

Lemma while_true_break {A} (body : M (option A)) w a w' :
  body w = Ok (Some a) w' -> while_true body w = Ok a w'.
Proof. intros H. unfold while_true. now rewrite iterate_S, H. Qed.

Lemma while_true_again {A} (body : M (option A)) w w' :
  body w = Ok None w' ->
  List.length (stdin w) = S (List.length (stdin w')) ->
  while_true body w = while_true body w'.
Proof.
  intros H L. unfold while_true. now rewrite L, iterate_S, H.
Qed.

Section Retries.
Context {RT : Runtime}.

(** It does terminate on every terminal: each round reads a line. *)
Lemma delete_expense_category_loop_terminates valid :
  never_diverges (while_true (delete_expense_category_loop valid)).
Proof.
  apply while_true_terminates.
  - intros w w' H. unfold delete_expense_category_loop in H.
    apply bind_inv in H as (v & w1 & H1 & H).
    apply bind_inv in H as (r & w2 & H2 & H).
    apply validate_int_input_frame in H1 as [_ L].
    apply validate_range_inv in H2 as [(-> & _ & ->)|(-> & _ & _ & I & _)];
      [discriminate|].
    injection H as <-. rewrite I. exact L.
  - intros w w'. unfold delete_expense_category_loop, bind.
    destruct (validate_int_input _ w) as [v w1|e w1] eqn:E1.
    + unfold validate_range.
      destruct (existsb (Z.eqb v) valid); discriminate.
    + intros H. injection H as -> ->.
      now apply validate_int_input_terminates in E1.
Qed.

(** Three integers outside the valid identifiers end a bounded selection:
    the fourth line is never read. *)
Lemma select_id_gives_up p valid d l1 l2 l3 rest o v1 v2 v3 :
  py_int l1 = Some v1 -> py_int l2 = Some v2 -> py_int l3 = Some v3 ->
  ~ In v1 valid -> ~ In v2 valid -> ~ In v3 valid ->
  select_id p valid 3
    {| store := d; stdin := l1 :: l2 :: l3 :: rest; stdout := o |} =
  Ok None
    {| store := d; stdin := rest;
       stdout := o ++ [Prompt p; range_complaint valid;
                       Prompt p; range_complaint valid;
                       Prompt p; range_complaint valid;
                       too_many_attempts; border_line] |}.
Proof.
  intros P1 P2 P3 N1 N2 N3. cbn [select_id].
  rewrite (bind_ok _ _ _ _ _ (validate_int_input_accepts p _ _ _ _ _ P1)).
  rewrite (bind_ok _ _ _ _ _ (validate_range_out _ _ _ _ _ N1)).
  rewrite (bind_ok _ _ _ _ _ (validate_int_input_accepts p _ _ _ _ _ P2)).
  rewrite (bind_ok _ _ _ _ _ (validate_range_out _ _ _ _ _ N2)).
  rewrite (bind_ok _ _ _ _ _ (validate_int_input_accepts p _ _ _ _ _ P3)).
  rewrite (bind_ok _ _ _ _ _ (validate_range_out _ _ _ _ _ N3)).
  unfold bind, print, border, emit, ret. simpl.
  now rewrite <- !app_assoc.
Qed.

Lemma delete_expense_category_loop_retries valid d bad good vb vg :
  py_int bad = Some vb -> py_int good = Some vg ->
  ~ In vb valid -> In vg valid ->
  forall n o,
    while_true (delete_expense_category_loop valid)
      {| store := d; stdin := repeat bad n ++ [good]; stdout := o |} =
    Ok vg
      {| store := d; stdin := [];
         stdout := o ++
           List.concat (repeat [Prompt "Enter category ID to delete: ";
                           range_complaint valid] n) ++
           [Prompt "Enter category ID to delete: "] |}.
Proof.
  intros Pb Pg Nb Ig. induction n as [|n IH]; intros o.
  - apply while_true_break. unfold delete_expense_category_loop. simpl.
    rewrite (bind_ok _ _ _ _ _ (validate_int_input_accepts _ _ _ _ _ _ Pg)).
    rewrite (bind_ok _ _ _ _ _ (validate_range_in _ _ _ Ig)).
    reflexivity.
  - cbn [repeat app List.concat].
    rewrite (while_true_again _ _
               {| store := d; stdin := repeat bad n ++ [good];
                  stdout := (o ++ [Prompt "Enter category ID to delete: "]) ++
                            [range_complaint valid] |}).
    + rewrite IH, <- !app_assoc. reflexivity.
    + unfold delete_expense_category_loop.
      rewrite (bind_ok _ _ _ _ _ (validate_int_input_accepts _ _ _ _ _ _ Pb)).
      rewrite (bind_ok _ _ _ _ _ (validate_range_out _ _ _ _ _ Nb)).
      reflexivity.
    + reflexivity.
Qed.

(** C7, on [delete_expense_category].  The retry loop of this action has no
    bound: after any number [n] of integers outside the listed identifiers
    it prompts again, and a valid identifier typed next is still accepted
    and deleted.  Nothing is printed about too many attempts. *)
Theorem delete_expense_category_retries_unbounded (n : nat)
  (bad good : string) (vb vg : Z) (d : database) (o : list out) :
  py_int bad = Some vb ->
  py_int good = Some vg ->
  ~ In vb (map cat_id (categories expense_category d)) ->
  In vg (map cat_id (categories expense_category d)) ->
  delete_expense_category
    {| store := d; stdin := repeat bad n ++ [good]; stdout := o |} =
  Ok tt
    {| store := delete_cascade expense_category vg d; stdin := [];
       stdout := o ++ category_listing (categories expense_category d) ++
         List.concat (repeat [Prompt "Enter category ID to delete: ";
                         range_complaint
                           (map cat_id (categories expense_category d))] n) ++
         [Prompt "Enter category ID to delete: ";
          Print [Str "Record deleted from "; Str "expense_category"; Str "."];
          border_line] |}.
Proof.
  intros Pb Pg Nb Ig. unfold delete_expense_category.
  rewrite (bind_ok _ _ _ _ _ (view_expense_categories_run _)).
  cbn [store stdin stdout].
  rewrite (in_the_list_truthy (Some _) vg Ig). cbn [the_list].
  fold (delete_expense_category_loop
          (map cat_id (categories expense_category d))).
  rewrite (bind_ok _ _ _ _ _
             (delete_expense_category_loop_retries _ _ _ _ _ _
                Pb Pg Nb Ig n _)).
  rewrite delete_record_run by (right; exact Ig). simpl.
  now rewrite <- !app_assoc.
Qed.

(** With the same three bad identifiers [delete_income_category] gives up:
    the store is untouched and the rest of the input is left unread. *)
Lemma delete_income_category_gives_up (l1 l2 l3 : string) (rest : list string)
  (v1 v2 v3 : Z) (d : database) (o : list out) :
  let valid := map cat_id (categories income_category d) in
  py_int l1 = Some v1 -> py_int l2 = Some v2 -> py_int l3 = Some v3 ->
  ~ In v1 valid -> ~ In v2 valid -> ~ In v3 valid ->
  valid <> [] ->
  exists o',
    delete_income_category
      {| store := d; stdin := l1 :: l2 :: l3 :: rest; stdout := o |} =
    Ok tt {| store := d; stdin := rest; stdout := o' |} /\
    In too_many_attempts o'.
Proof.
  intros valid P1 P2 P3 N1 N2 N3 NE. unfold delete_income_category.
  unfold view_income_categories, fetch_all, bind at 1 2, query.
  unfold valid, categories in *. cbn [store stdin stdout] in *.
  destruct (rows (from income_category d)) as [|c cs] eqn:R;
    [now destruct NE|].
  unfold bind at 1 2 3. unfold print, tabulate, border, emit, ret.
  cbn [store stdin stdout falsy the_list map].
  rewrite (bind_ok _ _ _ _ _
             (select_id_gives_up _ _ _ _ _ _ _ _ _ _ _ P1 P2 P3 N1 N2 N3)).
  eexists. split; [reflexivity|].
  rewrite !in_app_iff. right. simpl. tauto.
Qed.

End Retries.

(** ** Expenses against income *)

(** C9, the empty case of the two category listings.  On a store without
    categories [view_expense_categories] returns the empty list, while
    [view_income_categories] returns [None]. *)
Theorem category_listings_differ_when_empty (i : list string) (o : list out) :
  let w := {| store := create_database; stdin := i; stdout := o |} in
  (exists w', view_expense_categories w = Ok (Some []) w') /\
  (exists w', view_income_categories w = Ok None w').
Proof. split; eexists; reflexivity. Qed.

(** ** Primary keys

    Every store the program can reach from [create_database] has unique
    keys in each table: the four helpers that write keep them so, and every
    menu action writes through these helpers only. *)

Lemma NoDup_snoc {X} (l : list X) (x : X) :
  NoDup l -> ~ In x l -> NoDup (l ++ [x]).
Proof.
  induction l as [|y l IH]; simpl; intros N I.
  - constructor; [tauto|constructor].
  - inversion N as [|? ? NI N']; subst. constructor.
    + rewrite in_app_iff. simpl. intros [H|[H|[]]]; [tauto|]. subst. tauto.
    + apply IH; tauto.
Qed.

Lemma insert_keyed {R} (key : R -> Z) (mk : Z -> R) (tb : table R) :
  (forall i, key (mk i) = i) -> keyed key tb -> keyed key (insert mk tb).
Proof.
  intros K [N B]. split; simpl.
  - rewrite map_app. simpl. rewrite K. apply NoDup_snoc; [exact N|].
    intros I. apply in_map_iff in I as (r & E & I). apply B in I. lia.
  - intros r I. apply in_app_iff in I as [I|[<-|[]]].
    + apply B in I. lia.
    + rewrite K. lia.
Qed.

Lemma NoDup_map_filter {X} (key : X -> Z) (p : X -> bool) (l : list X) :
  NoDup (map key l) -> NoDup (map key (filter p l)).
Proof.
  induction l as [|x l IH]; simpl; intros N; [constructor|].
  inversion N as [|? ? NI N']; subst.
  destruct (p x); simpl; [|auto]. constructor; [|auto].
  intros I. apply NI. apply in_map_iff in I as (y & E & I).
  apply filter_In in I as [I _]. rewrite <- E. now apply in_map.
Qed.

Lemma delete_where_keyed {R} (key : R -> Z) (p : R -> bool) (tb : table R) :
  keyed key tb -> keyed key (delete_where p tb).
Proof.
  intros [N B]. split; simpl.
  - now apply NoDup_map_filter.
  - intros r I. apply filter_In in I as [I _]. now apply B.
Qed.

Lemma update_where_keyed {R} (key : R -> Z) (id : Z) (f : R -> R)
  (tb : table R) :
  (forall r, key (f r) = key r) -> keyed key tb ->
  keyed key (update_where key id f tb).
Proof.
  intros K [N B].
  assert (forall r, key (if key r =? id then f r else r) = key r) as K'
    by (intros r; destruct (key r =? id); auto).
  split; simpl.
  - rewrite map_map. erewrite map_ext; [exact N|exact K'].
  - intros r I. apply in_map_iff in I as (x & <- & I). rewrite K'. now apply B.
Qed.

Lemma table_name_eq_dec (t t' : table_name) : {t = t'} + {t <> t'}.
Proof. repeat decide equality. Defined.

Lemma from_into_same t x d : from t (into t x d) = x.
Proof. now destruct t as [[]|[]| |]. Qed.

Lemma from_into_other t t' x d : t <> t' -> from t' (into t x d) = from t' d.
Proof.
  destruct t as [[]|[]| |], t' as [[]|[]| |]; simpl; intros N;
    try reflexivity; now destruct N.
Qed.

Lemma well_keyed_into t x d :
  well_keyed d -> keyed row_id x -> well_keyed (into t x d).
Proof.
  intros W K t'. destruct (table_name_eq_dec t t') as [<-|N].
  - now rewrite from_into_same.
  - rewrite from_into_other by exact N. apply W.
Qed.

Lemma create_database_well_keyed : well_keyed create_database.
Proof.
  intros t. destruct t as [[]|[]| |]; split; simpl;
    solve [constructor | intros r []].
Qed.

Lemma delete_cascade_well_keyed t id d :
  well_keyed d -> well_keyed (delete_cascade t id d).
Proof.
  intros W. unfold delete_cascade.
  set (d' := into t (delete_where (fun r => row_id r =? id) (from t d)) d).
  assert (well_keyed d') as W'
    by (apply well_keyed_into; [exact W|apply delete_where_keyed, W]).
  destruct t as [[]|[]| |]; try exact W';
    destruct (existsb _ _); try exact W'.
  - apply (well_keyed_into budgets); [|apply delete_where_keyed, (W' budgets)].
    apply (well_keyed_into expenses); [exact W'|].
    apply delete_where_keyed, (W' expenses).
  - apply (well_keyed_into income); [exact W'|].
    apply delete_where_keyed, (W' income).
Qed.

Lemma new_row_id {RT : Runtime} t (values : values_of t) i :
  row_id (new_row t values i) = i.
Proof.
  destruct t as [[]|[]| |]; simpl in *;
    repeat match goal with v : (_ * _)%type |- _ => destruct v end;
    reflexivity.
Qed.

Lemma preserves_ret {A} P (a : A) : preserves P (ret a).
Proof. intros w H. exact H. Qed.

Lemma preserves_raise {A} P e : preserves P (@raise A e).
Proof. intros w H. exact H. Qed.

Lemma preserves_emit P o : preserves P (emit o).
Proof. intros w H. exact H. Qed.

Lemma preserves_input P p : preserves P (input p).
Proof. intros w H. unfold after, input. now destruct (stdin w). Qed.

Lemma preserves_query {A} P (q : database -> A) : preserves P (query q).
Proof. intros w H. exact H. Qed.

Lemma preserves_execute P u :
  (forall d, P d -> P (u d)) -> preserves P (execute u).
Proof. intros U w H. now apply U. Qed.

Lemma preserves_as_key P t i : preserves P (as_key t i).
Proof.
  intros w H. unfold after, as_key, bind, query. now destruct (_ || _).
Qed.

Lemma preserves_bind_values P t values : preserves P (bind_values t values).
Proof.
  destruct t as [c|e| |]; simpl; try (intros w H; exact H);
    destruct values; apply preserves_as_key.
Qed.

Lemma preserves_py_sum {RT : Runtime} P l : preserves P (py_sum l).
Proof.
  intros w H. unfold after, py_sum. destruct l; [exact H|].
  now destruct (numbers _).
Qed.

Lemma preserves_bind {A B} P (m : M A) (k : A -> M B) :
  preserves P m -> (forall a, preserves P (k a)) -> preserves P (bind m k).
Proof.
  intros Hm Hk w H. specialize (Hm w H). unfold after, bind in *.
  destruct (m w) as [a w1|e w1]; [|exact Hm]. now apply Hk.
Qed.

Lemma preserves_iterate {A} P (body : M (option A)) fuel :
  preserves P body -> preserves P (iterate fuel body).
Proof.
  intros Hb. induction fuel as [|fuel IH]; [apply preserves_raise|].
  simpl. apply preserves_bind; [exact Hb|].
  intros [a|]; [apply preserves_ret|exact IH].
Qed.

Lemma preserves_while_true {A} P (body : M (option A)) :
  preserves P body -> preserves P (while_true body).
Proof.
  intros Hb w H.
  exact (preserves_iterate P body (S (List.length (stdin w))) Hb w H).
Qed.

(** Splits an action along its binds and matches, and discharges the
    primitives; what is left are the calls of other functions. *)
Ltac preserve :=
  repeat match goal with
    | |- preserves _ (ret _) => apply preserves_ret
    | |- preserves _ (raise _) => apply preserves_raise
    | |- preserves _ (emit _) => apply preserves_emit
    | |- preserves _ (print _) => apply preserves_emit
    | |- preserves _ (tabulate _ _) => apply preserves_emit
    | |- preserves _ border => apply preserves_emit
    | |- preserves _ (input _) => apply preserves_input
    | |- preserves _ (query _) => apply preserves_query
    | |- preserves _ (as_key _ _) => apply preserves_as_key
    | |- preserves _ (bind_values _ _) => apply preserves_bind_values
    | |- preserves _ (py_sum _) => apply preserves_py_sum
    | |- preserves _ (while_true _) => apply preserves_while_true
    | |- preserves _ (bind _ _) => apply preserves_bind; [|intros ?]
    | |- preserves _ (match ?x with _ => _ end) => destruct x
    | |- preserves _ (let _ := _ in _) => cbv zeta
    end.

Section Keys.
Context {RT : Runtime}.

Lemma validate_int_input_preserves P p : preserves P (validate_int_input p).
Proof. unfold validate_int_input. preserve. Qed.

Lemma validate_float_input_preserves P p :
  preserves P (validate_float_input p).
Proof. unfold validate_float_input. preserve. Qed.

Lemma validate_range_preserves P v valid :
  preserves P (validate_range v valid).
Proof. unfold validate_range. preserve. Qed.

Lemma select_id_preserves P p valid n : preserves P (select_id p valid n).
Proof.
  induction n as [|n IH]; simpl; preserve;
    auto using validate_int_input_preserves, validate_range_preserves.
Qed.

Lemma add_category_well_keyed c n msg :
  preserves well_keyed (add_category c n msg).
Proof.
  unfold add_category. preserve.
  apply preserves_execute. intros d W.
  apply well_keyed_into; [exact W|]. now apply insert_keyed, W.
Qed.

Lemma add_record_well_keyed t values :
  preserves well_keyed (add_record t values).
Proof.
  unfold add_record. preserve.
  apply preserves_execute. intros d W.
  apply well_keyed_into; [exact W|].
  apply insert_keyed; [apply new_row_id|apply W].
Qed.

Lemma set_field_id t f set v r :
  set_field t f = Some set -> row_id (set v r) = @row_id t r.
Proof.
  destruct t as [[]|[]| |], f; simpl; intros [= <-]; reflexivity.
Qed.

Lemma perform_update_well_keyed t f v id :
  preserves well_keyed (perform_update t f v id).
Proof.
  unfold perform_update. destruct (set_field t f) as [set|] eqn:S; preserve.
  apply preserves_execute. intros d W.
  apply well_keyed_into; [exact W|].
  apply update_where_keyed; [|apply W].
  intros r. eapply set_field_id, S.
Qed.

Lemma delete_record_well_keyed t id :
  preserves well_keyed (delete_record t id).
Proof.
  unfold delete_record. preserve.
  apply preserves_execute. intros d. apply delete_cascade_well_keyed.
Qed.

Lemma update_record_well_keyed t id fields :
  preserves well_keyed (update_record t id fields).
Proof.
  unfold update_record. apply preserves_bind; [apply preserves_emit|intros _].
  apply preserves_bind.
  - generalize 0. induction fields as [|f fs IH]; intros i; preserve.
    apply IH.
  - intros _. preserve;
      auto using validate_int_input_preserves, validate_float_input_preserves,
        perform_update_well_keyed.
Qed.

(** Unique keys survive every action of the four sub-menus. *)
Theorem menus_keep_keys_unique (user_choice : Z) :
  preserves well_keyed (expenses_menu user_choice) /\
  preserves well_keyed (income_menu user_choice) /\
  preserves well_keyed (budgets_menu user_choice) /\
  preserves well_keyed (goals_menu user_choice).
Proof.
  split; [|split; [|split]];
    unfold expenses_menu, income_menu, budgets_menu, goals_menu;
    repeat match goal with
           | |- preserves _ (match ?x with _ => _ end) => destruct x
           end;
    unfold add_expense_category, delete_expense_category, add_expense,
      view_expenses_by_category, update_expense, delete_expense,
      add_income_category, delete_income_category, add_income,
      view_income_by_category, update_income, delete_income,
      display_current_budget, set_category_budget, view_category_budget,
      update_category_budget, delete_category_budget, set_financial_goal,
      view_goal_progress, update_goal, delete_goal, invalid_selection;
    unfold view_expenses, view_expense_categories, view_income,
      view_income_categories, view_all_budgets, view_current_goals;
    unfold fetch_expenses, fetch_income, fetch_joined, fetch_all,
      column_exists, format_amount, format_real;
    preserve;
    auto using validate_int_input_preserves, validate_float_input_preserves,
      validate_range_preserves, select_id_preserves, add_category_well_keyed,
      add_record_well_keyed, delete_record_well_keyed,
      update_record_well_keyed.
Qed.

(** So every store a session reaches has unique keys in every table. *)
Theorem reachable_well_keyed (w : world) : reachable w -> well_keyed (store w).
Proof.
  induction 1 as [lines|w m user_choice R IH].
  - apply create_database_well_keyed.
  - destruct (menus_keep_keys_unique user_choice) as (E & I & B & G).
    destruct m; [apply E|apply I|apply B|apply G]; exact IH.
Qed.

Lemma well_keyed_NoDup (d : database) (t : table_name) :
  well_keyed d -> NoDup (map row_id (rows (from t d))).
Proof. intros W. apply W. Qed.

End Keys.

(** * Further properties *)

(** ** Reading a number *)

Lemma reader_loop_skips {A} (parse : string -> option A) p c d bads good
  rest v :
  Forall (fun l => parse l = None) bads ->
  parse good = Some v ->
  forall o,
    while_true (reader parse p c)
      {| store := d; stdin := bads ++ good :: rest; stdout := o |} =
    Ok v {| store := d; stdin := rest;
            stdout := o ++ turned_down p c bads ++ [Prompt p] |}.
Proof.
  intros B G. induction B as [|l bads Pl B IH]; intros o.
  - apply reader_loop_accepts, G.
  - cbn [app]. rewrite (reader_loop_rejects _ _ _ _ _ _ _ Pl), IH.
    unfold turned_down. simpl. now rewrite <- !app_assoc.
Qed.

Lemma reader_loop_exhausts {A} (parse : string -> option A) p c d lines :
  Forall (fun l => parse l = None) lines ->
  forall o,
    while_true (reader parse p c)
      {| store := d; stdin := lines; stdout := o |} =
    Raise EOFError {| store := d; stdin := [];
                      stdout := o ++ turned_down p c lines ++ [Prompt p] |}.
Proof.
  intros B. induction B as [|l lines Pl B IH]; intros o.
  - reflexivity.
  - rewrite (reader_loop_rejects _ _ _ _ _ _ _ Pl), IH.
    unfold turned_down. simpl. now rewrite <- !app_assoc.
Qed.

Section Numbers.
Context {RT : Runtime}.

(** X1.  [validate_int_input] turns down every line [int] cannot read, with
    one complaint each, and returns the first integer, leaving the lines
    after it unread; when no pending line is an integer it ends in
    [EOFError] with the input used up.  The store is not touched. *)
Theorem validate_int_input_first_integer (p : string) (d : database)
  (bads : list string) (o : list out) :
  Forall (fun l => py_int l = None) bads ->
  (forall good v rest,
     py_int good = Some v ->
     validate_int_input p
       {| store := d; stdin := bads ++ good :: rest; stdout := o |} =
     Ok v {| store := d; stdin := rest;
             stdout := o ++ turned_down p int_complaint bads ++ [Prompt p] |})
  /\
  validate_int_input p {| store := d; stdin := bads; stdout := o |} =
  Raise EOFError
    {| store := d; stdin := [];
       stdout := o ++ turned_down p int_complaint bads ++ [Prompt p] |}.
Proof.
  intros B. rewrite !validate_int_input_reader. split.
  - intros good v rest G. now apply reader_loop_skips.
  - now apply reader_loop_exhausts.
Qed.

(** X2.  [validate_float_input] does the same with [float]: one complaint
    per line that is no number, the first number returned, [EOFError] when
    the input holds none. *)
Theorem validate_float_input_first_number (p : string) (d : database)
  (bads : list string) (o : list out) :
  Forall (fun l => py_float l = None) bads ->
  (forall good v rest,
     py_float good = Some v ->
     validate_float_input p
       {| store := d; stdin := bads ++ good :: rest; stdout := o |} =
     Ok v {| store := d; stdin := rest;
             stdout := o ++ turned_down p float_complaint bads ++ [Prompt p] |})
  /\
  validate_float_input p {| store := d; stdin := bads; stdout := o |} =
  Raise EOFError
    {| store := d; stdin := [];
       stdout := o ++ turned_down p float_complaint bads ++ [Prompt p] |}.
Proof.
  intros B. rewrite !validate_float_input_reader. split.
  - intros good v rest G. now apply reader_loop_skips.
  - now apply reader_loop_exhausts.
Qed.

End Numbers.

(** ** What can go wrong *)

Lemma sound_ret {A} (a : A) : sound (ret a).
Proof. intros w. unfold sound_at. simpl. lia. Qed.

Lemma sound_emit o : sound (emit o).
Proof. intros w. unfold sound_at. simpl. lia. Qed.

Lemma sound_query {A} (q : database -> A) : sound (query q).
Proof. intros w. unfold sound_at. simpl. lia. Qed.

Lemma sound_execute u : sound (execute u).
Proof. intros w. unfold sound_at. simpl. lia. Qed.

Lemma sound_input p : sound (input p).
Proof.
  intros w. unfold sound_at, input.
  destruct (stdin w); simpl; [now left|lia].
Qed.

Lemma sound_raise_ValueError {A} : sound (@raise A ValueError).
Proof. intros w. right. now left. Qed.

Lemma sound_raise_TypeError {A} : sound (@raise A TypeError).
Proof. intros w. right. now right. Qed.

Lemma sound_py_sum {RT : Runtime} l : sound (py_sum l).
Proof.
  intros w. unfold sound_at, py_sum. destruct l; [simpl; lia|].
  destruct (numbers _); simpl; [lia|]. right. now right.
Qed.

Lemma sound_at_bind {A B} w (m : M A) (k : A -> M B) :
  sound_at w m ->
  (forall a w1, m w = Ok a w1 -> sound_at w1 (k a)) ->
  sound_at w (bind m k).
Proof.
  unfold sound_at, bind. destruct (m w) as [a w1|e w1]; [|auto].
  intros L H. specialize (H a w1 eq_refl).
  destruct (k a w1); [lia|exact H].
Qed.

Lemma sound_bind {A B} (m : M A) (k : A -> M B) :
  sound m -> (forall a, sound (k a)) -> sound (bind m k).
Proof.
  intros Hm Hk w. apply sound_at_bind; [apply Hm|]. intros a w1 _. apply Hk.
Qed.

Lemma sound_iterate {A} (body : M (option A)) :
  sound body -> consumes body ->
  forall fuel w, (List.length (stdin w) < fuel)%nat ->
    sound_at w (iterate fuel body).
Proof.
  intros Hs Hc. induction fuel as [|fuel IH]; intros w L; [lia|].
  unfold sound_at. rewrite iterate_S. specialize (Hs w). unfold sound_at in Hs.
  destruct (body w) as [[a|] w1|e w1] eqn:E; try exact Hs.
  apply Hc in E. specialize (IH w1 ltac:(lia)). unfold sound_at in IH.
  destruct (iterate fuel body w1); [lia|exact IH].
Qed.

(** A loop whose rounds each read a line neither spins nor fails by
    itself. *)
Lemma sound_while_true {A} (body : M (option A)) :
  sound body -> consumes body -> sound (while_true body).
Proof.
  intros Hs Hc w. apply (sound_iterate body Hs Hc). lia.
Qed.

Lemma reads_input p : reads (input p).
Proof.
  intros w a w' H. apply frame_input in H as [_ E]. rewrite E. simpl. lia.
Qed.

Lemma reads_bind {A B} (m : M A) (k : A -> M B) :
  reads m -> (forall a, sound (k a)) -> reads (bind m k).
Proof.
  intros Hm Hk w b w' H. apply bind_inv in H as (a & w1 & H1 & H2).
  apply Hm in H1. specialize (Hk a w1). unfold sound_at in Hk.
  rewrite H2 in Hk. lia.
Qed.

Lemma reads_consumes {A} (body : M (option A)) : reads body -> consumes body.
Proof. intros H w w' E. eapply H, E. Qed.

(** Splits an action along its binds and matches and discharges the
    primitives; the calls of other functions are left. *)
Ltac soundness :=
  repeat match goal with
    | |- sound (ret _) => apply sound_ret
    | |- sound (emit _) => apply sound_emit
    | |- sound (print _) => apply sound_emit
    | |- sound (tabulate _ _) => apply sound_emit
    | |- sound border => apply sound_emit
    | |- sound (input _) => apply sound_input
    | |- sound (query _) => apply sound_query
    | |- sound (execute _) => apply sound_execute
    | |- sound (py_sum _) => apply sound_py_sum
    | |- sound (raise ValueError) => apply sound_raise_ValueError
    | |- sound (raise TypeError) => apply sound_raise_TypeError
    | |- sound (bind _ _) => apply sound_bind; [|intros ?]
    | |- sound (match ?x with _ => _ end) => destruct x
    | |- sound (let _ := _ in _) => cbv zeta
    end.

Lemma sound_on_sound {A} P (m : M A) : sound m -> sound_on P m.
Proof. intros H w _. apply H. Qed.

Lemma sound_on_bind {A B} P (m : M A) (k : A -> M B) :
  sound m -> quiet m -> (forall a, sound_on P (k a)) ->
  sound_on P (bind m k).
Proof.
  intros Hm Hq Hk w Hw. apply sound_at_bind; [apply Hm|].
  intros a w1 H1. apply Hk. now rewrite (Hq _ _ _ H1).
Qed.

(** Past the binding of a stored key, what is left runs from the same
    world. *)
Lemma sound_on_as_key {A} t i (m : M A) :
  sound m -> sound_on (stored t i) (as_key t i ;; m).
Proof.
  intros Hm w Hw. unfold sound_at.
  rewrite (bind_ok _ _ _ _ _ (as_key_stored t i w Hw)). apply Hm.
Qed.

Lemma quiet_emit o : quiet (emit o).
Proof. intros w a w' H. now injection H as _ <-. Qed.

Lemma quiet_input p : quiet (input p).
Proof. intros w a w' H. now apply frame_input in H as [[S _] _]. Qed.

Section Soundness.
Context {RT : Runtime}.

Lemma validate_int_input_sound p : sound (validate_int_input p).
Proof.
  rewrite validate_int_input_reader.
  apply sound_while_true; [|apply reader_consumes].
  unfold reader. soundness.
Qed.

Lemma validate_float_input_sound p : sound (validate_float_input p).
Proof.
  rewrite validate_float_input_reader.
  apply sound_while_true; [|apply reader_consumes].
  unfold reader. soundness.
Qed.

Lemma validate_int_input_quiet p : quiet (validate_int_input p).
Proof. intros w a w' H. now apply validate_int_input_frame in H as [[S _] _]. Qed.

Lemma validate_float_input_quiet p : quiet (validate_float_input p).
Proof.
  intros w a w' H. now apply validate_float_input_frame in H as [[S _] _].
Qed.

Lemma validate_range_sound v valid : sound (validate_range v valid).
Proof. unfold validate_range. soundness. Qed.

Lemma select_id_sound p valid n : sound (select_id p valid n).
Proof.
  induction n as [|n IH]; simpl; soundness;
    auto using validate_int_input_sound, validate_range_sound.
Qed.

Lemma delete_expense_category_loop_consumes valid :
  consumes (delete_expense_category_loop valid).
Proof.
  intros w w' H. unfold delete_expense_category_loop in H.
  apply bind_inv in H as (v & w1 & H1 & H).
  apply bind_inv in H as (r & w2 & H2 & H).
  apply validate_int_input_frame in H1 as [_ L].
  apply validate_range_inv in H2 as [(-> & _ & ->)|(-> & _ & _ & I & _)];
    [discriminate|].
  injection H as <-. rewrite I. exact L.
Qed.

Lemma add_category_sound c n msg : sound (add_category c n msg).
Proof. unfold add_category. soundness. Qed.

(** The helpers that pass a key to SQLite, on a key that is stored. *)
Lemma delete_record_sound t id : sound_on (stored t id) (delete_record t id).
Proof. unfold delete_record. apply sound_on_as_key. soundness. Qed.

Lemma perform_update_sound t f v id :
  set_field t f <> None -> sound_on (stored t id) (perform_update t f v id).
Proof.
  intros H. unfold perform_update.
  destruct (set_field t f); [|now destruct H].
  apply sound_on_as_key. soundness.
Qed.

Lemma add_entry_sound (e : entry_table) c a :
  sound_on (stored (category_of e) c) (add_record e (c, a)).
Proof. unfold add_record. simpl. apply sound_on_as_key. soundness. Qed.

Lemma add_budget_sound c a :
  sound_on (stored expense_category c) (add_record budgets (c, a)).
Proof. unfold add_record. simpl. apply sound_on_as_key. soundness. Qed.

Lemma add_goal_sound values : sound (add_record financial_goals values).
Proof. unfold add_record. simpl. soundness. Qed.

(** The field menu never indexes outside [fields], and a field of the
    table is always updatable. *)
Lemma update_record_sound t id fields :
  (forall f, In f fields -> set_field t f <> None) ->
  sound_on (stored t id) (update_record t id fields).
Proof.
  intros H. unfold update_record.
  apply sound_on_bind; [apply sound_emit|apply quiet_emit|intros _].
  apply sound_on_bind.
  - generalize 0. clear H. induction fields as [|f fs IH]; intros i;
      soundness. apply IH.
  - generalize 0. clear H. induction fields as [|f fs IH]; intros i w a w' E.
    + now injection E as _ <-.
    + apply bind_inv in E as (u & w1 & E1 & E2).
      apply quiet_emit in E1. apply IH in E2. congruence.
  - intros _.
    apply sound_on_bind;
      [apply validate_int_input_sound|apply validate_int_input_quiet|].
    intros n. cbv zeta.
    destruct (_ || _) eqn:C; [apply sound_on_sound, sound_emit|].
    apply orb_false_iff in C as [C1 C2].
    apply Z.ltb_ge in C1. apply Z.leb_gt in C2.
    destruct (nth_error fields (Z.to_nat (n - 1))) as [f|] eqn:N.
    + apply nth_error_In in N.
      apply sound_on_bind;
        [| |intros v; apply perform_update_sound, H, N];
        destruct f;
        auto using sound_input, validate_float_input_sound, quiet_input,
          validate_float_input_quiet.
    + apply nth_error_None in N. lia.
Qed.

(** The selection that the menu actions share: the key taken from a listing
    of stored keys is a stored key when the action reaches SQLite. *)
Lemma chosen_sound (t : table_name) p valid n (k : Z -> M unit) w :
  (forall i, In i valid -> stored t i (store w)) ->
  (forall i, sound_on (stored t i) (k i)) ->
  sound_at w (r <- select_id p valid n ;;
              match r with
              | None => ret tt
              | Some i => k i
              end).
Proof.
  intros V K. apply sound_at_bind; [apply select_id_sound|].
  intros [i|] w1 H; [|exact (sound_ret tt _)].
  apply select_id_frame in H as ([St _] & _ & I).
  apply K. rewrite St. apply V, I. reflexivity.
Qed.

Lemma view_expense_categories_sound : sound view_expense_categories.
Proof. unfold view_expense_categories, fetch_all. soundness. Qed.

Lemma view_income_categories_sound : sound view_income_categories.
Proof. unfold view_income_categories, fetch_all. soundness. Qed.

Lemma view_expenses_sound : sound view_expenses.
Proof.
  unfold view_expenses, fetch_expenses, fetch_joined. soundness.
Qed.

Lemma view_income_sound : sound view_income.
Proof. unfold view_income, fetch_income, fetch_joined. soundness. Qed.

Lemma view_all_budgets_sound : sound view_all_budgets.
Proof. unfold view_all_budgets, fetch_all. soundness. Qed.

Lemma view_current_goals_sound : sound view_current_goals.
Proof. unfold view_current_goals, fetch_all. soundness. Qed.

(** What the listings of keys return are keys of stored rows. *)
Lemma view_categories_inv (c : category_table) w ids w' :
  match c with
  | expense_category => view_expense_categories
  | income_category => view_income_categories
  end w = Ok ids w' ->
  store w' = store w /\
  forall i, In i (the_list ids) -> stored c i (store w).
Proof.
  destruct c; intros H;
    [unfold view_expense_categories in H|unfold view_income_categories in H];
    unfold fetch_all, bind at 1, query in H; unfold stored;
    destruct (rows (from _ (store w))) as [|x l];
    unfold bind, print, tabulate, border, emit, ret in H;
    injection H as <- <-; simpl; split; auto; intros i [].
Qed.

Lemma view_joined_keys (t : entry_table) w ids w' :
  match t with expenses => view_expenses | income => view_income end w
    = Ok ids w' ->
  store w' = store w /\
  forall i, In i (the_list ids) -> stored t i (store w).
Proof. intros H. apply view_joined_inv in H as (S & _ & V). now split. Qed.

Lemma view_all_budgets_inv w ids w' :
  view_all_budgets w = Ok ids w' ->
  store w' = store w /\
  forall i, In i (the_list ids) -> stored budgets i (store w).
Proof.
  rewrite view_all_budgets_run. intros H. injection H as <- <-.
  split; [reflexivity|]. intros i I. exact I.
Qed.

Lemma view_current_goals_inv w ids w' :
  view_current_goals w = Ok ids w' ->
  store w' = store w /\
  forall i, In i (the_list ids) -> stored financial_goals i (store w).
Proof.
  unfold view_current_goals, fetch_all, bind at 1, query, stored.
  destruct (rows (from financial_goals (store w))) as [|x l];
    unfold bind, print, tabulate, border, emit, ret;
    intros H; injection H as <- <-; simpl; split; auto; intros i [].
Qed.

(** An action made of a listing, the test of what it returned, and a
    selection among the keys listed. *)
Lemma listed_action_sound (t : table_name) (view : M (option (list Z)))
  (otherwise : M unit) p (k : Z -> M unit) :
  sound view ->
  (forall w ids w', view w = Ok ids w' ->
     store w' = store w /\
     forall i, In i (the_list ids) -> stored t i (store w)) ->
  sound otherwise ->
  (forall i, sound_on (stored t i) (k i)) ->
  sound (ids <- view ;;
         if falsy ids then otherwise
         else r <- select_id p (the_list ids) 3 ;;
              match r with
              | None => ret tt
              | Some i => k i
              end).
Proof.
  intros Hv Hi Ho Hk w. apply sound_at_bind; [apply Hv|].
  intros ids w1 H1. apply Hi in H1 as [St V].
  destruct (falsy ids); [apply Ho|].
  apply (chosen_sound t); [|exact Hk].
  intros i I. rewrite St. now apply V.
Qed.

Lemma fields_updatable_entry (e : entry_table) f :
  In f [col_category_id; col_amount] -> set_field e f <> None.
Proof. intros [<-|[<-|[]]]; discriminate. Qed.

Lemma add_expense_category_sound : sound add_expense_category.
Proof. unfold add_expense_category. soundness. apply add_category_sound. Qed.

Lemma add_income_category_sound : sound add_income_category.
Proof. unfold add_income_category. soundness. apply add_category_sound. Qed.

(** The loop of [delete_expense_category] ends on a listed key, with the
    store as it was. *)
Lemma delete_expense_category_loop_inv valid i :
  forall fuel w w',
    iterate fuel (delete_expense_category_loop valid) w = Ok i w' ->
    store w' = store w /\ In i valid.
Proof.
  induction fuel as [|fuel IH]; intros w w' E; [discriminate|].
  rewrite iterate_S in E.
  destruct (delete_expense_category_loop valid w) as [[a|] w1|e w1] eqn:B;
    [| |discriminate];
    unfold delete_expense_category_loop in B;
    apply bind_inv in B as (v & w2 & B1 & B);
    apply bind_inv in B as (r & w3 & B2 & B);
    apply validate_int_input_frame in B1 as [[S1 _] _].
  - injection E as -> ->.
    apply validate_range_inv in B2 as [(-> & I & ->)|(-> & _)];
      [|discriminate].
    injection B as <- <-. now split.
  - apply validate_range_inv in B2 as [(-> & _)|(-> & _ & S2 & _)];
      [discriminate|].
    injection B as <-. apply IH in E as [S3 I]. split; [congruence|exact I].
Qed.

Lemma delete_expense_category_sound : sound delete_expense_category.
Proof.
  intros w. unfold delete_expense_category.
  apply sound_at_bind; [apply view_expense_categories_sound|].
  intros ids w1 H1.
  apply (view_categories_inv expense_category) in H1 as [St V].
  destruct (falsy ids); [apply sound_emit|].
  fold (delete_expense_category_loop (the_list ids)).
  apply sound_at_bind.
  - apply sound_while_true; [|apply delete_expense_category_loop_consumes].
    unfold delete_expense_category_loop. soundness;
      auto using validate_int_input_sound, validate_range_sound.
  - intros i w2 H2. apply delete_record_sound.
    apply delete_expense_category_loop_inv in H2 as [S2 I].
    rewrite S2, St. now apply V.
Qed.

Lemma add_expense_sound : sound add_expense.
Proof.
  unfold add_expense.
  apply (listed_action_sound expense_category);
    [apply view_expense_categories_sound
    |exact (view_categories_inv expense_category)|apply sound_emit|].
  intros c.
  apply sound_on_bind;
    [apply validate_float_input_sound|apply validate_float_input_quiet|].
  intros a. apply (add_entry_sound expenses).
Qed.

Lemma view_expenses_by_category_sound : sound view_expenses_by_category.
Proof.
  unfold view_expenses_by_category.
  apply (listed_action_sound expense_category);
    [apply view_expense_categories_sound
    |exact (view_categories_inv expense_category)|apply sound_ret|].
  intros c. apply sound_on_as_key. soundness.
Qed.

Lemma update_expense_sound : sound update_expense.
Proof.
  unfold update_expense.
  apply (listed_action_sound expenses);
    [apply view_expenses_sound|exact (view_joined_keys expenses)
    |apply sound_ret|].
  intros i. apply update_record_sound, fields_updatable_entry.
Qed.

Lemma delete_expense_sound : sound delete_expense.
Proof.
  unfold delete_expense.
  apply (listed_action_sound expenses);
    [apply view_expenses_sound|exact (view_joined_keys expenses)
    |apply sound_ret|].
  intros i. apply delete_record_sound.
Qed.

Lemma delete_income_category_sound : sound delete_income_category.
Proof.
  unfold delete_income_category.
  apply (listed_action_sound income_category);
    [apply view_income_categories_sound
    |exact (view_categories_inv income_category)|apply sound_ret|].
  intros i. apply delete_record_sound.
Qed.

Lemma add_income_sound : sound add_income.
Proof.
  unfold add_income.
  apply (listed_action_sound income_category);
    [apply view_income_categories_sound
    |exact (view_categories_inv income_category)|apply sound_ret|].
  intros c.
  apply sound_on_bind;
    [apply validate_float_input_sound|apply validate_float_input_quiet|].
  intros a. apply (add_entry_sound income).
Qed.

Lemma view_income_by_category_sound : sound view_income_by_category.
Proof.
  unfold view_income_by_category.
  apply (listed_action_sound income_category);
    [apply view_income_categories_sound
    |exact (view_categories_inv income_category)|apply sound_ret|].
  intros c. apply sound_on_as_key. soundness.
Qed.

Lemma update_income_sound : sound update_income.
Proof.
  unfold update_income.
  apply (listed_action_sound income);
    [apply view_income_sound|exact (view_joined_keys income)|apply sound_ret|].
  intros i. apply update_record_sound, fields_updatable_entry.
Qed.

Lemma delete_income_sound : sound delete_income.
Proof.
  unfold delete_income.
  apply (listed_action_sound income);
    [apply view_income_sound|exact (view_joined_keys income)|apply sound_ret|].
  intros i. apply delete_record_sound.
Qed.

Lemma display_current_budget_sound : sound display_current_budget.
Proof. unfold display_current_budget. soundness. Qed.

Lemma set_category_budget_sound : sound set_category_budget.
Proof.
  unfold set_category_budget.
  apply (listed_action_sound expense_category);
    [apply view_expense_categories_sound
    |exact (view_categories_inv expense_category)|apply sound_ret|].
  intros c.
  apply sound_on_bind;
    [apply validate_float_input_sound|apply validate_float_input_quiet|].
  intros a w Hw. unfold sound_at.
  rewrite (bind_ok _ _ _ _ _ (as_key_stored _ _ w Hw)).
  apply sound_at_bind; [apply sound_query|]. intros found w1 H1.
  injection H1 as _ <-.
  destruct found; [apply sound_emit|now apply add_budget_sound].
Qed.

(** What can fail in the view of a budget is the formatting of an amount
    that is NULL. *)
Lemma view_category_budget_sound : sound view_category_budget.
Proof.
  unfold view_category_budget.
  apply (listed_action_sound budgets);
    [apply view_all_budgets_sound|exact view_all_budgets_inv|apply sound_ret|].
  intros i. apply sound_on_as_key. unfold format_amount. soundness.
Qed.

Lemma update_category_budget_sound : sound update_category_budget.
Proof.
  unfold update_category_budget.
  apply (listed_action_sound budgets);
    [apply view_all_budgets_sound|exact view_all_budgets_inv|apply sound_ret|].
  intros i. apply update_record_sound. intros f [<-|[]]. discriminate.
Qed.

(** [delete_category_budget] does not test the listing. *)
Lemma delete_category_budget_sound : sound delete_category_budget.
Proof.
  intros w. unfold delete_category_budget.
  apply sound_at_bind; [apply view_all_budgets_sound|].
  intros ids w1 H1. apply view_all_budgets_inv in H1 as [St V].
  apply (chosen_sound budgets).
  - intros i I. rewrite St. now apply V.
  - intros i. apply delete_record_sound.
Qed.

Lemma set_financial_goal_sound : sound set_financial_goal.
Proof.
  unfold set_financial_goal, column_exists. soundness;
    auto using validate_float_input_sound, add_goal_sound.
Qed.

(** What can fail in the view of a goal is the formatting of a target or
    progress that is NULL or holds text. *)
Lemma view_goal_progress_sound : sound view_goal_progress.
Proof.
  unfold view_goal_progress.
  apply (listed_action_sound financial_goals);
    [apply view_current_goals_sound|exact view_current_goals_inv
    |apply sound_ret|].
  intros i. apply sound_on_as_key. unfold format_real. soundness.
Qed.

Lemma update_goal_sound : sound update_goal.
Proof.
  unfold update_goal.
  apply (listed_action_sound financial_goals);
    [apply view_current_goals_sound|exact view_current_goals_inv
    |apply sound_ret|].
  intros i. apply update_record_sound.
  intros f [<-|[<-|[<-|[]]]]; discriminate.
Qed.

Lemma delete_goal_sound : sound delete_goal.
Proof.
  unfold delete_goal.
  apply (listed_action_sound financial_goals);
    [apply view_current_goals_sound|exact view_current_goals_inv
    |apply sound_ret|].
  intros i. apply delete_record_sound.
Qed.

Lemma invalid_selection_sound : sound invalid_selection.
Proof. unfold invalid_selection. soundness. Qed.

Lemma submenu_round_is_sound (m : submenu) (user_choice : Z) :
  sound (submenu_round m user_choice).
Proof.
  destruct m; unfold submenu_round, expenses_menu, income_menu, budgets_menu,
    goals_menu;
    repeat match goal with
           | |- sound (match ?x with _ => _ end) => destruct x
           end;
    soundness;
    auto using add_expense_category_sound, delete_expense_category_sound,
      add_expense_sound, view_expenses_sound, view_expense_categories_sound,
      view_expenses_by_category_sound, update_expense_sound,
      delete_expense_sound, add_income_category_sound,
      delete_income_category_sound, add_income_sound, view_income_sound,
      view_income_categories_sound, view_income_by_category_sound,
      update_income_sound, delete_income_sound, display_current_budget_sound,
      set_category_budget_sound, view_all_budgets_sound,
      view_category_budget_sound, update_category_budget_sound,
      delete_category_budget_sound, set_financial_goal_sound,
      view_current_goals_sound, view_goal_progress_sound, update_goal_sound,
      delete_goal_sound, invalid_selection_sound.
Qed.

(** X3.  Whatever the store, the input and the selection, a round of a
    sub-menu either returns without having lengthened the pending input, or
    raises [EOFError], [ValueError] or [TypeError].  It raises no
    [IndexError] (the field number is checked against the menu), no
    [OverflowError] (an identifier that reaches SQLite is the key of a stored
    row) and no [OperationalError], and no loop of it is left running by the
    model ([Diverged]). *)
Theorem submenu_round_sound (m : submenu) (user_choice : Z) :
  sound (submenu_round m user_choice).
Proof. apply submenu_round_is_sound. Qed.

End Soundness.

(** A loop that returns has just run a round that broke. *)
Lemma iterate_last {A} (body : M (option A)) a :
  forall fuel w w',
    iterate fuel body w = Ok a w' -> exists w0, body w0 = Ok (Some a) w'.
Proof.
  induction fuel as [|fuel IH]; intros w w' E; [discriminate|].
  rewrite iterate_S in E.
  destruct (body w) as [[x|] w1|e w1] eqn:B; [| |discriminate].
  - injection E as -> ->. now exists w.
  - eapply IH, E.
Qed.

(** More fuel than pending lines makes no difference. *)
Lemma iterate_fuel {A} (body : M (option A)) :
  consumes body ->
  forall fuel1 fuel2 w,
    (List.length (stdin w) < fuel1)%nat ->
    (List.length (stdin w) < fuel2)%nat ->
    iterate fuel1 body w = iterate fuel2 body w.
Proof.
  intros Hc. induction fuel1 as [|fuel1 IH]; intros fuel2 w L1 L2; [lia|].
  destruct fuel2 as [|fuel2]; [lia|]. rewrite !iterate_S.
  destruct (body w) as [[a|] w1|e w1] eqn:E; try reflexivity.
  apply Hc in E. apply IH; lia.
Qed.

(** A round that does not break hands the loop over to the world it
    leaves. *)
Lemma while_true_next {A} (body : M (option A)) w w' :
  consumes body ->
  body w = Ok None w' ->
  while_true body w = while_true body w'.
Proof.
  intros Hc E. unfold while_true. rewrite iterate_S, E.
  pose proof (Hc _ _ E). apply iterate_fuel; [exact Hc|lia|lia].
Qed.

(** ** The menu loops *)

Section Loops.
Context {RT : Runtime}.
Variable isnumeric : string -> bool.

Lemma read_choice_sound text complaint :
  sound (read_choice isnumeric text complaint).
Proof. unfold read_choice. soundness. Qed.

Lemma read_choice_reads text complaint :
  reads (read_choice isnumeric text complaint).
Proof.
  unfold read_choice. apply reads_bind; [apply reads_input|].
  intros line. soundness.
Qed.

Lemma submenu_loop_sound m : sound (submenu_loop isnumeric m).
Proof.
  unfold submenu_loop. apply sound_while_true.
  - soundness; auto using read_choice_sound, submenu_round_is_sound.
  - apply reads_consumes, reads_bind; [apply read_choice_reads|].
    intros c. soundness. apply submenu_round_is_sound.
Qed.

Lemma main_round_sound : sound (main_round isnumeric).
Proof.
  unfold main_round. soundness;
    auto using read_choice_sound, submenu_loop_sound;
    unfold invalid_selection; soundness.
Qed.

(** The one round of the main menu that breaks is the one that says
    goodbye. *)
Lemma main_round_breaks w w' :
  main_round isnumeric w = Ok (Some tt) w' ->
  exists o, stdout w' = o ++ [goodbye].
Proof.
  unfold main_round. intros H. apply bind_inv in H as (c & w1 & _ & H).
  repeat match type of H with
         | context [match ?x with _ => _ end] => destruct x
         end;
    try (apply bind_inv in H as (u & w2 & _ & H); discriminate);
    try discriminate.
  unfold bind, print, emit, ret in H. injection H as <-.
  now exists (stdout w1).
Qed.

(** X4.  On every store and every finite input the program comes to an end:
    it returns, or it raises [EOFError] because the input ended, or
    [ValueError] or [TypeError]; no other exception escapes, and no loop is
    left running by the model.  It returns only by the Exit of the main
    menu: the last thing written is then the goodbye line. *)
Theorem main_sound :
  sound (main isnumeric) /\
  forall w w', main isnumeric w = Ok tt w' ->
               exists o, stdout w' = o ++ [goodbye].
Proof.
  split.
  - change (main isnumeric) with (while_true (main_round isnumeric)).
    apply sound_while_true; [apply main_round_sound|].
    apply reads_consumes, reads_bind; [apply read_choice_reads|].
    intros c. soundness; auto using submenu_loop_sound;
      unfold invalid_selection; soundness.
  - intros w w' H.
    change (main isnumeric) with (while_true (main_round isnumeric)) in H.
    apply iterate_last in H as (w0 & H). eapply main_round_breaks, H.
Qed.

Lemma main_round_consumes : consumes (main_round isnumeric).
Proof.
  apply reads_consumes, reads_bind; [apply read_choice_reads|].
  intros c. soundness; auto using submenu_loop_sound;
    unfold invalid_selection; soundness.
Qed.

(** A property of the store that the writing helpers keep is kept by the
    whole program. *)
Section Invariant.
Variable P : database -> Prop.
Hypothesis add_category_keeps :
  forall c n msg, preserves P (add_category c n msg).
Hypothesis add_entry_keeps :
  forall (e : entry_table) values, preserves P (add_record e values).
Hypothesis add_goal_keeps :
  forall values, preserves P (add_record financial_goals values).
Hypothesis set_category_budget_keeps : preserves P set_category_budget.
Hypothesis perform_update_keeps :
  forall t f v id, preserves P (perform_update t f v id).
Hypothesis delete_record_keeps :
  forall t id, preserves P (delete_record t id).

Lemma update_record_keeps t id fields :
  preserves P (update_record t id fields).
Proof.
  unfold update_record. apply preserves_bind; [apply preserves_emit|intros _].
  apply preserves_bind.
  - generalize 0. induction fields as [|f fs IH]; intros i; preserve.
    apply IH.
  - intros _. preserve;
      auto using validate_int_input_preserves, validate_float_input_preserves.
Qed.

Lemma submenu_round_keeps m user_choice :
  preserves P (submenu_round m user_choice).
Proof.
  pose proof update_record_keeps.
  destruct m; unfold submenu_round, expenses_menu, income_menu, budgets_menu,
    goals_menu;
    repeat match goal with
           | |- preserves _ (match ?x with _ => _ end) => destruct x
           end;
    try assumption;
    unfold add_expense_category, delete_expense_category, add_expense,
      view_expenses_by_category, update_expense, delete_expense,
      add_income_category, delete_income_category, add_income,
      view_income_by_category, update_income, delete_income,
      display_current_budget, view_category_budget,
      update_category_budget, delete_category_budget, set_financial_goal,
      view_goal_progress, update_goal, delete_goal, invalid_selection;
    unfold view_expenses, view_expense_categories, view_income,
      view_income_categories, view_all_budgets, view_current_goals;
    unfold fetch_expenses, fetch_income, fetch_joined, fetch_all,
      column_exists, format_amount, format_real;
    preserve;
    auto using validate_int_input_preserves, validate_float_input_preserves,
      validate_range_preserves, select_id_preserves.
Qed.

Lemma main_keeps : preserves P (main isnumeric).
Proof.
  unfold main, submenu_loop, read_choice, invalid_selection.
  preserve; auto using submenu_round_keeps.
Qed.

End Invariant.

End Loops.

(** ** What a session keeps *)

Lemma NoDup_map_filter_any {X K} (key : X -> K) (p : X -> bool) (l : list X) :
  NoDup (map key l) -> NoDup (map key (filter p l)).
Proof.
  induction l as [|x l IH]; simpl; intros N; [constructor|].
  inversion N as [|? ? NI N']; subst.
  destruct (p x); simpl; [|auto]. constructor; [|auto].
  intros I. apply NI. apply in_map_iff in I as (y & E & I).
  apply filter_In in I as [I _]. rewrite <- E. now apply in_map.
Qed.

Lemma preserves_query_bind {A B} P (q : database -> A) (k : A -> M B) :
  (forall w, P (store w) -> P (store (after (k (q (store w))) w))) ->
  preserves P (bind (query q) k).
Proof. intros H w Hw. exact (H w Hw). Qed.

Section Kept.
Context {RT : Runtime}.
Variable isnumeric : string -> bool.

Lemma set_category_budget_well_keyed : preserves well_keyed set_category_budget.
Proof.
  unfold set_category_budget, view_expense_categories, fetch_all.
  preserve;
    auto using validate_float_input_preserves, select_id_preserves,
      add_record_well_keyed.
Qed.

(** X5.  Primary keys: a fresh database has unique keys in every table, each
    key handed out by the table's counter, and the program keeps it so from
    any store that has them, whatever is typed. *)
Theorem program_keeps_keys_unique :
  well_keyed create_database /\ preserves well_keyed (main isnumeric).
Proof.
  split; [apply create_database_well_keyed|].
  apply main_keeps;
    auto using add_category_well_keyed, add_record_well_keyed,
      set_category_budget_well_keyed, perform_update_well_keyed,
      delete_record_well_keyed.
Qed.

Lemma add_record_one_budget (t : table_name) values :
  t <> budgets -> preserves one_budget (add_record t values).
Proof.
  intros N. unfold add_record. preserve. apply preserves_execute.
  intros d H. destruct t as [[]|[]| |]; try exact H. now destruct N.
Qed.

Lemma perform_update_one_budget t f v id :
  preserves one_budget (perform_update t f v id).
Proof.
  unfold perform_update.
  destruct t as [[]|[]| |], f; simpl; preserve;
    apply preserves_execute; intros d H; try exact H.
  unfold one_budget in *. simpl. rewrite map_map.
  erewrite map_ext; [exact H|].
  intros b. simpl. now destruct (budget_id b =? id).
Qed.

Lemma delete_record_one_budget t id :
  preserves one_budget (delete_record t id).
Proof.
  unfold delete_record. preserve. apply preserves_execute. intros d H.
  unfold delete_cascade, one_budget in *.
  destruct t as [[]|[]| |]; simpl; try destruct (existsb _ _); simpl;
    try exact H; apply NoDup_map_filter, H.
Qed.

(** The one place that inserts a budget looks for one first. *)
Lemma set_category_budget_one_budget : preserves one_budget set_category_budget.
Proof.
  unfold set_category_budget.
  apply preserves_bind;
    [unfold view_expense_categories, fetch_all; preserve|intros ids].
  destruct (falsy ids); [apply preserves_ret|].
  apply preserves_bind; [apply select_id_preserves|intros [z|]];
    [|apply preserves_ret].
  apply preserves_bind; [apply validate_float_input_preserves|intros amount].
  apply preserves_bind; [apply preserves_as_key|intros _].
  apply preserves_query_bind. intros w H. unfold after.
  destruct (existsb _ _) eqn:E; [exact H|].
  unfold add_record, bind_values, as_key, bind at 1 2, query.
  destruct (_ || _); [|exact H].
  unfold one_budget in *. simpl. rewrite map_app. simpl.
  apply NoDup_snoc; [exact H|]. intros I.
  apply in_map_iff in I as (b & Eb & I).
  assert (existsb (fun b => budget_category b =? z)
            (rows (db_budgets (store w))) = true) as C.
  { apply existsb_exists. exists b. split; [exact I|now apply Z.eqb_eq]. }
  congruence.
Qed.

(** X6.  One budget per category: no two budget rows of a fresh database
    name the same category, and the program keeps it so from any store where
    that holds, whatever is typed. *)
Theorem program_keeps_one_budget :
  one_budget create_database /\ preserves one_budget (main isnumeric).
Proof.
  split; [constructor|].
  apply main_keeps;
    auto using set_category_budget_one_budget, perform_update_one_budget,
      delete_record_one_budget.
  - intros c n msg. unfold add_category. preserve.
    apply preserves_execute. intros d H. now destruct c.
  - intros e values. apply add_record_one_budget. discriminate.
  - intros values. apply add_record_one_budget. discriminate.
Qed.

Lemma add_category_unique_names c n msg :
  preserves unique_names (add_category c n msg).
Proof.
  unfold add_category. cbv zeta. apply preserves_query_bind.
  intros w H. unfold after.
  destruct (existsb _ _) eqn:E; [exact H|].
  intros c'. simpl.
  assert (NoDup (map cat_name (categories c (store w) ++
                                 [{| cat_id := seq (from c (store w)) + 1;
                                     cat_name := title n |}]))) as N.
  { rewrite map_app. simpl. apply NoDup_snoc; [apply H|]. intros I.
    apply in_map_iff in I as (r & Er & I).
    assert (existsb (fun r => String.eqb (cat_name r) (title n))
              (categories c (store w)) = true) as C.
    { apply existsb_exists. exists r. split; [exact I|].
      now apply String.eqb_eq. }
    congruence. }
  destruct c, c';
    first [exact N | exact (H expense_category) | exact (H income_category)].
Qed.

Lemma add_record_unique_names (t : table_name) values :
  (forall c, t <> Cat c) -> preserves unique_names (add_record t values).
Proof.
  intros N. unfold add_record. preserve. apply preserves_execute.
  intros d H c. destruct t as [c0|[]| |]; [now destruct (N c0)| | | |];
    exact (H c).
Qed.

Lemma perform_update_unique_names t f v id :
  preserves unique_names (perform_update t f v id).
Proof.
  unfold perform_update.
  destruct t as [[]|[]| |], f; simpl; preserve;
    apply preserves_execute; intros d H c; exact (H c).
Qed.

Lemma delete_record_unique_names t id :
  preserves unique_names (delete_record t id).
Proof.
  unfold delete_record. preserve. apply preserves_execute. intros d H c.
  unfold delete_cascade, categories.
  destruct t as [[]|[]| |], c; simpl; try destruct (existsb _ _); simpl;
    first [ exact (H expense_category) | exact (H income_category)
          | apply NoDup_map_filter_any;
            first [exact (H expense_category) | exact (H income_category)] ].
Qed.

(** X7.  Category names: no two rows of a category table of a fresh
    database carry the same name, and the program keeps it so from any store
    where that holds, whatever is typed. *)
Theorem program_keeps_names_unique :
  unique_names create_database /\ preserves unique_names (main isnumeric).
Proof.
  split; [intros []; constructor|].
  apply main_keeps;
    auto using add_category_unique_names, perform_update_unique_names,
      delete_record_unique_names.
  - intros e values. apply add_record_unique_names. discriminate.
  - intros values. apply add_record_unique_names. discriminate.
  - unfold set_category_budget, view_expense_categories, fetch_all.
    preserve;
      auto using validate_float_input_preserves, select_id_preserves.
    apply add_record_unique_names. discriminate.
Qed.

End Kept.

(** ** Adding, updating, looking again *)

Lemma lookup_update {R} (key : R -> Z) (id id' : Z) (f : R -> R) (l : list R) :
  (forall r, key (f r) = key r) ->
  lookup key id' (map (fun r => if key r =? id then f r else r) l) =
  if id' =? id then option_map f (lookup key id' l) else lookup key id' l.
Proof.
  intros K. unfold lookup. induction l as [|r l IH]; simpl.
  - now destruct (id' =? id).
  - destruct (key r =? id) eqn:E.
    + rewrite K. destruct (key r =? id') eqn:E'.
      * apply Z.eqb_eq in E, E'. subst.
        now rewrite Z.eqb_refl.
      * exact IH.
    + destruct (key r =? id') eqn:E'; [|exact IH].
      apply Z.eqb_eq in E'. subst. now rewrite E.
Qed.

Lemma find_listed {R} (key : R -> Z) (id : Z) (l : list R) :
  In id (map key l) -> exists r, find (fun x => key x =? id) l = Some r.
Proof.
  intros I. apply in_map_iff in I as (r & E & I).
  destruct (find _ l) eqn:F; [eauto|].
  eapply find_none in F; [|exact I]. apply Z.eqb_neq in F. now destruct F.
Qed.

Lemma category_stored (c : category_table) i d :
  In i (map cat_id (categories c d)) -> stored c i d.
Proof. now destruct c. Qed.

Section Records.
Context {RT : Runtime}.

(** A first line that is a valid identifier is taken at once. *)
Lemma select_id_accepts p valid n d l rest o v :
  py_int l = Some v -> In v valid ->
  select_id p valid (S n) {| store := d; stdin := l :: rest; stdout := o |} =
  Ok (Some v) {| store := d; stdin := rest; stdout := o ++ [Prompt p] |}.
Proof.
  intros P I. cbn [select_id].
  rewrite (bind_ok _ _ _ _ _ (validate_int_input_accepts p _ _ _ _ _ P)).
  now rewrite (bind_ok _ _ _ _ _ (validate_range_in _ _ _ I)).
Qed.

Lemma field_menu_run fs : forall i d input o,
  (fix menu (i : Z) (fs : list field) : M unit :=
     match fs with
     | [] => ret tt
     | f :: fs' => print [Int (i + 1); Str ". "; Str (field_name f)] ;;
                   menu (i + 1) fs'
     end) i fs {| store := d; stdin := input; stdout := o |} =
  Ok tt {| store := d; stdin := input; stdout := o ++ field_lines i fs |}.
Proof.
  induction fs as [|f fs IH]; intros i d input o.
  - simpl. unfold ret. now rewrite app_nil_r.
  - unfold bind, print, emit. cbn [store stdin stdout field_lines].
    rewrite IH. now rewrite <- app_assoc.
Qed.

(** [add_record] of a transaction or a budget under a stored category. *)
Lemma add_entry_run (e : entry_table) c a w :
  stored (category_of e) c (store w) ->
  add_record e (c, a) w =
  Ok tt {| store := into e (insert (new_row e (c, a)) (from e (store w)))
                      (store w);
           stdin := stdin w;
           stdout := stdout w ++
             [Print [Str nl; Str "Record added to "; Str (table_label e);
                     Str "."];
              border_line] |}.
Proof.
  intros S. unfold add_record. cbn [bind_values].
  rewrite (bind_ok _ _ _ _ _ (as_key_stored _ _ w S)).
  unfold bind, execute, print, border, emit. simpl.
  now rewrite <- app_assoc.
Qed.

Lemma add_budget_run c a w :
  stored expense_category c (store w) ->
  add_record budgets (c, a) w =
  Ok tt {| store := into budgets (insert (new_row budgets (c, a))
                                    (from budgets (store w))) (store w);
           stdin := stdin w;
           stdout := stdout w ++
             [Print [Str nl; Str "Record added to "; Str "budgets"; Str "."];
              border_line] |}.
Proof.
  intros S. unfold add_record. cbn [bind_values].
  rewrite (bind_ok _ _ _ _ _ (as_key_stored _ _ w S)).
  unfold bind, execute, print, border, emit. simpl.
  now rewrite <- app_assoc.
Qed.

Lemma perform_update_run t f set v id w :
  set_field t f = Some set ->
  int64 id = true \/ stored t id (store w) ->
  perform_update t f v id w =
  Ok tt {| store := into t (update_where row_id id (set v) (from t (store w)))
                      (store w);
           stdin := stdin w;
           stdout := stdout w ++
             [Print [Str nl; Str (field_capitalized f);
                     Str " updated successfully."];
              border_line] |}.
Proof.
  intros S H. unfold perform_update. rewrite S.
  rewrite (bind_ok _ _ w tt w)
    by (destruct H; [now apply as_key_int64|now apply as_key_stored]).
  unfold bind, execute, print, border, emit. simpl.
  now rewrite <- app_assoc.
Qed.

(** X8.  [add_expense] with a listed category and an amount typed at the
    first try appends one expense row under a fresh key, holding the amount
    as SQLite stores it (NULL for a NaN); it reads exactly the two lines and
    leaves every other table as it was.  The amounts filed under that
    category are those that were there, followed by the new one. *)
Theorem add_expense_records (w : world) (lc la : string) (rest : list string)
  (c : Z) (a : float) :
  stdin w = lc :: la :: rest ->
  py_int lc = Some c ->
  In c (map cat_id (categories expense_category (store w))) ->
  py_float la = Some a ->
  exists w',
    add_expense w = Ok tt w' /\
    stdin w' = rest /\
    entries expenses (store w') =
      entries expenses (store w) ++
      [{| entry_id := seq (db_expenses (store w)) + 1;
          entry_category := IdInt c; entry_amount := real_storage a |}] /\
    (forall t, t <> Ent expenses -> from t (store w') = from t (store w)) /\
    amounts_under expenses c (store w') =
      amounts_under expenses c (store w) ++ [real_storage a].
Proof.
  intros I Pc Ic Pa. destruct w as [d input o]. simpl in *. subst input.
  unfold add_expense.
  rewrite (bind_ok _ _ _ _ _ (view_expense_categories_run _)).
  cbn [store stdin stdout].
  rewrite (in_the_list_truthy (Some _) c Ic). cbn [the_list].
  rewrite (bind_ok _ _ _ _ _ (select_id_accepts _ _ _ _ _ _ _ _ Pc Ic)).
  rewrite (bind_ok _ _ _ _ _ (validate_float_input_accepts _ _ _ _ _ _ Pa)).
  rewrite (add_entry_run expenses)
    by exact (category_stored expense_category _ _ Ic).
  eexists. split; [reflexivity|]. simpl. repeat split.
  - intros t N. destruct t as [[]|[]| |]; try reflexivity. now destruct N.
  - unfold amounts_under, entries. simpl.
    rewrite filter_app, map_app. unfold filed_under at 2. simpl.
    now rewrite Z.eqb_refl.
Qed.

(** X9.  With no expense category, [add_expense] says so and returns: it
    asks for nothing, reads nothing and writes nothing to the store. *)
Theorem add_expense_without_category (w : world) :
  categories expense_category (store w) = [] ->
  add_expense w =
  Ok tt {| store := store w; stdin := stdin w;
           stdout := stdout w ++
             [Print [Str nl; Str "No expense categories have been entered."];
              border_line;
              Print [Str "No valid categories available. Please add a category first."]] |}.
Proof.
  intros E. unfold add_expense.
  rewrite (bind_ok _ _ _ _ _ (view_expense_categories_run _)).
  rewrite E. simpl. unfold print, emit. simpl. now rewrite <- app_assoc.
Qed.

(** X10.  A field number outside the menu of [update_record] ends the
    update with "Invalid selection.": one line has been read and the store
    is as it was. *)
Theorem update_record_invalid_field (t : table_name) (id : Z)
  (fields : list field) (w : world) (l : string) (rest : list string) (n : Z) :
  stdin w = l :: rest ->
  py_int l = Some n ->
  n < 1 \/ Z.of_nat (List.length fields) < n ->
  update_record t id fields w =
  Ok tt {| store := store w; stdin := rest;
           stdout := stdout w ++
             Print [Str "Which field would you like to update?"]
             :: field_lines 0 fields ++
             [Prompt "Enter field number: "; Print [Str "Invalid selection."]]
        |}.
Proof.
  intros I P R. destruct w as [d input o]. simpl in *. subst input.
  unfold update_record. unfold bind at 1. unfold print at 1, emit.
  cbn [store stdin stdout]. unfold bind at 1. rewrite field_menu_run.
  rewrite (bind_ok _ _ _ _ _ (validate_int_input_accepts _ _ _ _ _ _ P)).
  cbv zeta.
  replace ((n - 1 <? 0) || (Z.of_nat (List.length fields) <=? n - 1))
    with true.
  - unfold print, emit. simpl. now rewrite <- !app_assoc.
  - symmetry. apply orb_true_iff. destruct R as [R|R].
    + left. apply Z.ltb_lt. lia.
    + right. apply Z.leb_le. lia.
Qed.

(** X11.  [perform_update] of an amount, on an identifier that fits 64 bits
    or is the key of a stored row, looked up again: the row of that key now
    holds the new amount, as SQLite stores it, under its old category, every
    other key reads as before, and no other table has changed; on a key that
    is not there the lookup stays empty.  On any other identifier
    [OverflowError] is raised and nothing is written or printed. *)
Theorem perform_update_amount_lookup (t : entry_table) (x : float) (id : Z)
  (w : world) :
  (int64 id = true \/ stored t id (store w) ->
   exists w',
     perform_update t col_amount x id w = Ok tt w' /\
     lookup entry_id id (entries t (store w')) =
       option_map (fun e => {| entry_id := entry_id e;
                               entry_category := entry_category e;
                               entry_amount := real_storage x |})
         (lookup entry_id id (entries t (store w))) /\
     (forall id', id' <> id ->
        lookup entry_id id' (entries t (store w')) =
        lookup entry_id id' (entries t (store w))) /\
     (forall t', t' <> Ent t -> from t' (store w') = from t' (store w))) /\
  (int64 id = false -> ~ stored t id (store w) ->
   perform_update t col_amount x id w = Raise OverflowError w).
Proof.
  split.
  - intros H.
    pose (f := fun e : entry => {| entry_id := entry_id e;
                                   entry_category := entry_category e;
                                   entry_amount := real_storage x |}).
    pose (d' := into t (update_where (R := row_of t) row_id id f
                          (from t (store w))) (store w)).
    exists {| store := d'; stdin := stdin w;
              stdout := stdout w ++
                [Print [Str nl; Str (field_capitalized col_amount);
                        Str " updated successfully."];
                 border_line] |}.
    split.
    { exact (perform_update_run t col_amount _ x id w eq_refl H). }
    cbn [store].
    assert (entries t d' =
            map (fun r => if entry_id r =? id then f r else r)
              (entries t (store w))) as E
      by now destruct t.
    split; [|split].
    + rewrite E, lookup_update by reflexivity. now rewrite Z.eqb_refl.
    + intros id' N. rewrite E, lookup_update by reflexivity.
      apply Z.eqb_neq in N. now rewrite N.
    + intros t' N. destruct t; now apply from_into_other.
  - intros H N. unfold perform_update. cbn [set_field].
    now rewrite (bind_raise _ _ _ _ _ (as_key_overflow _ _ _ H N)).
Qed.

End Records.

(** ** Unchecked updates *)

Lemma listed_id_joined es cs e :
  In e es -> has_category cs e = true ->
  In (entry_id e) (map (fun x => fst (fst x)) (join_category es cs)).
Proof.
  intros I C. destruct (entry_joined_row es cs e I C) as (name & H).
  apply in_map_iff. now exists (entry_id e, name, entry_amount e).
Qed.

Section Unchecked.
Context {RT : Runtime}.

(** X12.  [update_expense] takes any integer as the new [category_id]: when
    it is the key of no expense category the row is stored under it all the
    same, and [view_expenses] no longer returns the row's identifier.  (The
    amounts of the rows that [view_expenses] shows are numbers.) *)
Theorem update_expense_unfiles (w : world) (e : entry)
  (lid lfield s : string) (rest : list string) (z : Z) :
  In e (entries expenses (store w)) ->
  has_category (categories expense_category (store w)) e = true ->
  Forall priced (listed expenses (store w)) ->
  stdin w = lid :: lfield :: s :: rest ->
  py_int lid = Some (entry_id e) ->
  py_int lfield = Some 1 ->
  integer_affinity s = Some z ->
  ~ In z (map cat_id (categories expense_category (store w))) ->
  exists w' ids w'',
    update_expense w = Ok tt w' /\
    stdin w' = rest /\
    In {| entry_id := entry_id e; entry_category := IdInt z;
          entry_amount := entry_amount e |} (entries expenses (store w')) /\
    view_expenses w' = Ok (Some ids) w'' /\
    ~ In (entry_id e) ids.
Proof.
  intros I C Pr L Pid Pf A N. destruct w as [d input o]. simpl in *.
  subst input.
  assert (In (entry_id e)
            (map (fun x => fst (fst x)) (joined expenses d))) as Listed
    by exact (listed_id_joined _ _ _ I C).
  pose (f := fun r : entry => {| entry_id := entry_id r;
                                 entry_category := to_idcell s;
                                 entry_amount := entry_amount r |}).
  pose (d' := into expenses
                (update_where (R := row_of expenses) row_id (entry_id e) f
                   (from expenses d)) d).
  assert (entries expenses d' =
          map (fun r => if entry_id r =? entry_id e then f r else r)
            (entries expenses d)) as E' by reflexivity.
  assert (categories expense_category d' = categories expense_category d)
    as C' by reflexivity.
  assert (forall x, In x (listed expenses d') ->
                    In x (listed expenses d) /\ entry_id x <> entry_id e)
    as Still.
  { intros x Ix. unfold listed in Ix. apply filter_In in Ix as [Ix Cx].
    rewrite E' in Ix. simpl category_of in Cx. rewrite C' in Cx.
    apply in_map_iff in Ix as (r & Er & Ir).
    destruct (entry_id r =? entry_id e) eqn:Q.
    - exfalso. subst x. unfold has_category, f, to_idcell in Cx.
      rewrite A in Cx. simpl in Cx.
      apply existsb_exists in Cx as (c & Ic & Rc). apply Z.eqb_eq in Rc.
      apply N. rewrite Rc. now apply in_map.
    - subst x. apply Z.eqb_neq in Q. split; [|exact Q].
      apply filter_In. now split. }
  assert (Forall priced (listed expenses d')) as Pr'.
  { apply Forall_forall. intros x Ix. apply Still in Ix as [Ix _].
    rewrite Forall_forall in Pr. now apply Pr. }
  unfold update_expense.
  rewrite (bind_ok _ _ _ _ _ (view_expenses_run (Build_world d _ _) Pr)).
  cbn [store stdin stdout].
  rewrite (in_the_list_truthy (Some _) _ Listed). cbn [the_list].
  rewrite (bind_ok _ _ _ _ _ (select_id_accepts _ _ _ _ _ _ _ _ Pid Listed)).
  remember [col_category_id; col_amount] as fields eqn:F.
  unfold update_record. unfold bind at 1. unfold print at 1, emit.
  cbn [store stdin stdout]. unfold bind at 1. rewrite field_menu_run.
  rewrite (bind_ok _ _ _ _ _ (validate_int_input_accepts _ _ _ _ _ _ Pf)).
  cbv zeta. subst fields.
  match goal with
  | |- context [if ?c then _ else _] => change c with false
  end.
  match goal with
  | |- context [nth_error ?l ?n] =>
      change (nth_error l n) with (Some col_category_id)
  end.
  cbv iota. unfold bind at 1. unfold input. cbn [store stdin stdout].
  rewrite (perform_update_run expenses col_category_id _ s (entry_id e) _
             eq_refl)
    by (right; exact (stored_row expenses e _ I)).
  cbn [store stdin stdout]. fold f. fold d'.
  eexists. exists (map (fun x => fst (fst x)) (joined expenses d')).
  eexists.
  split; [reflexivity|]. cbn [store stdin stdout].
  split; [reflexivity|]. split; [|split].
  - rewrite E'. apply in_map_iff. exists e.
    rewrite Z.eqb_refl. unfold f, to_idcell. rewrite A. now split.
  - exact (view_expenses_run (Build_world d' rest _) Pr').
  - intros H. unfold joined in H.
    apply joined_id_has_category in H as (x & Ix & Ex & Cx).
    destruct (Still x) as [_ Q]; [|now apply Q].
    apply filter_In. now split.
Qed.

Lemma view_current_goals_listed w :
  rows (db_financial_goals (store w)) <> [] ->
  view_current_goals w =
  Ok (Some (map goal_id (rows (db_financial_goals (store w)))))
     {| store := store w; stdin := stdin w;
        stdout := stdout w ++
          [Print [Str nl; Str "CURRENT FINANCIAL GOALS:"; Str nl];
           Tabulate ["ID"; "Description"]
             (map (fun g => [Int (goal_id g); Str (goal_description g)])
                (rows (db_financial_goals (store w))))] |}.
Proof.
  intros NE. unfold view_current_goals, fetch_all, bind, query. simpl.
  destruct (rows (db_financial_goals (store w))) as [|x l];
    [now destruct NE|].
  unfold print, tabulate, emit, ret. simpl. now rewrite <- !app_assoc.
Qed.

(** A goal whose target holds text cannot be shown. *)
Lemma view_goal_progress_text_target (w : world) (g : goal) (id : Z)
  (l s : string) (rest : list string) :
  find (fun x => goal_id x =? id) (rows (db_financial_goals (store w)))
    = Some g ->
  goal_target g = NumText s ->
  stdin w = l :: rest ->
  py_int l = Some id ->
  exists w', view_goal_progress w = Raise ValueError w' /\ store w' = store w.
Proof.
  intros F T L P. destruct w as [d input o]. simpl in *. subst input.
  assert (In id (map goal_id (rows (db_financial_goals d)))) as I.
  { apply find_some in F as [I E]. apply Z.eqb_eq in E. subst id.
    now apply in_map. }
  assert (rows (db_financial_goals d) <> []) as NE
    by (intros E; rewrite E in I; destruct I).
  unfold view_goal_progress.
  rewrite (bind_ok _ _ _ _ _ (view_current_goals_listed (Build_world d _ _) NE)).
  cbn [store stdin stdout].
  rewrite (in_the_list_truthy (Some _) _ I). cbn [the_list].
  rewrite (bind_ok _ _ _ _ _ (select_id_accepts _ _ _ _ _ _ _ _ P I)).
  rewrite (bind_ok _ _ _ _ _ (as_key_stored financial_goals id (Build_world d _ _) I)).
  unfold bind at 1. unfold query. cbn [store stdin stdout]. rewrite F.
  unfold bind, print, emit, format_real. cbn [store stdin stdout]. rewrite T.
  eexists. split; reflexivity.
Qed.

(** X13.  [update_goal] stores whatever is typed for the target: when the
    text is no number, the next [view_goal_progress] of that goal ends in
    [ValueError], with nothing more written to the store. *)
Theorem update_goal_text_target (w : world) (g : goal)
  (lid lfield s lid' : string) (rest : list string) :
  In g (rows (db_financial_goals (store w))) ->
  stdin w = lid :: lfield :: s :: lid' :: rest ->
  py_int lid = Some (goal_id g) ->
  py_int lfield = Some 2 ->
  real_affinity s = None ->
  py_int lid' = Some (goal_id g) ->
  exists w1 w2,
    update_goal w = Ok tt w1 /\
    stdin w1 = lid' :: rest /\
    view_goal_progress w1 = Raise ValueError w2 /\
    store w2 = store w1.
Proof.
  intros I L Pid Pf A Pid'. destruct w as [d input o]. simpl in *.
  subst input.
  assert (In (goal_id g) (map goal_id (rows (db_financial_goals d)))) as Ig
    by now apply in_map.
  assert (rows (db_financial_goals d) <> []) as NE
    by (intros E; rewrite E in I; destruct I).
  pose (f := fun r => {| goal_id := goal_id r;
                         goal_description := goal_description r;
                         goal_target := to_numcell s;
                         goal_progress := goal_progress r |}).
  assert (exists g',
            find (fun x => goal_id x =? goal_id g)
              (map (fun r => if goal_id r =? goal_id g then f r else r)
                 (rows (db_financial_goals d))) = Some g'
            /\ goal_target g' = NumText s) as (g' & Fg & Tg).
  { destruct (find_listed goal_id _ _ Ig) as (g0 & F0).
    exists (f g0). split; [|unfold f, to_numcell; simpl; now rewrite A].
    pose proof (lookup_update goal_id (goal_id g) (goal_id g) f
                  (rows (db_financial_goals d)) (fun _ => eq_refl)) as U.
    unfold lookup in U. now rewrite U, Z.eqb_refl, F0. }
  unfold update_goal.
  rewrite (bind_ok _ _ _ _ _ (view_current_goals_listed (Build_world d _ _) NE)).
  cbn [store stdin stdout].
  rewrite (in_the_list_truthy (Some _) _ Ig). cbn [the_list].
  rewrite (bind_ok _ _ _ _ _ (select_id_accepts _ _ _ _ _ _ _ _ Pid Ig)).
  remember [col_description; col_target; col_progress] as fields eqn:F.
  unfold update_record. unfold bind at 1. unfold print at 1, emit.
  cbn [store stdin stdout]. unfold bind at 1. rewrite field_menu_run.
  rewrite (bind_ok _ _ _ _ _ (validate_int_input_accepts _ _ _ _ _ _ Pf)).
  cbv zeta. subst fields.
  match goal with
  | |- context [if ?c then _ else _] => change c with false
  end.
  match goal with
  | |- context [nth_error ?l ?n] =>
      change (nth_error l n) with (Some col_target)
  end.
  cbv iota. unfold bind at 1. unfold input. cbn [store stdin stdout].
  rewrite (perform_update_run financial_goals col_target _ s (goal_id g) _
             eq_refl)
    by (right; exact Ig).
  cbn [store stdin stdout].
  lazymatch goal with
  | |- exists w1 w2, Ok tt ?W = Ok tt w1 /\ _ =>
      destruct (view_goal_progress_text_target W g' (goal_id g) lid' s rest
                  Fg Tg eq_refl Pid') as (w2 & Run & St);
      exists W, w2
  end.
  repeat split; assumption.
Qed.

(** X27.  [update_goal] does not look for the description it is given:
    after giving one goal the description of another, the table holds two
    goals with the same description, which [set_financial_goal] would have
    refused. *)
Theorem update_goal_duplicates_description (w : world) (g1 g2 : goal)
  (lid lfield : string) (rest : list string) :
  In g1 (rows (db_financial_goals (store w))) ->
  In g2 (rows (db_financial_goals (store w))) ->
  goal_id g1 <> goal_id g2 ->
  stdin w = lid :: lfield :: goal_description g1 :: rest ->
  py_int lid = Some (goal_id g2) ->
  py_int lfield = Some 1 ->
  exists w',
    update_goal w = Ok tt w' /\
    stdin w' = rest /\
    In g1 (rows (db_financial_goals (store w'))) /\
    In {| goal_id := goal_id g2; goal_description := goal_description g1;
          goal_target := goal_target g2; goal_progress := goal_progress g2 |}
       (rows (db_financial_goals (store w'))).
Proof.
  intros I1 I2 N L Pid Pf. destruct w as [d input o]. simpl in *.
  subst input.
  assert (In (goal_id g2) (map goal_id (rows (db_financial_goals d)))) as Ig
    by now apply in_map.
  assert (rows (db_financial_goals d) <> []) as NE
    by (intros E; rewrite E in I1; destruct I1).
  unfold update_goal.
  rewrite (bind_ok _ _ _ _ _
             (view_current_goals_listed (Build_world d _ _) NE)).
  cbn [store stdin stdout].
  rewrite (in_the_list_truthy (Some _) _ Ig). cbn [the_list].
  rewrite (bind_ok _ _ _ _ _ (select_id_accepts _ _ _ _ _ _ _ _ Pid Ig)).
  remember [col_description; col_target; col_progress] as fields eqn:F.
  unfold update_record. unfold bind at 1. unfold print at 1, emit.
  cbn [store stdin stdout]. unfold bind at 1. rewrite field_menu_run.
  rewrite (bind_ok _ _ _ _ _ (validate_int_input_accepts _ _ _ _ _ _ Pf)).
  cbv zeta. subst fields.
  match goal with
  | |- context [if ?c then _ else _] => change c with false
  end.
  match goal with
  | |- context [nth_error ?l ?n] =>
      change (nth_error l n) with (Some col_description)
  end.
  cbv iota. unfold bind at 1. unfold input. cbn [store stdin stdout].
  rewrite (perform_update_run financial_goals col_description _
             (goal_description g1) (goal_id g2) _ eq_refl)
    by (right; exact Ig).
  eexists. split; [reflexivity|]. simpl. split; [reflexivity|]. split.
  - apply in_map_iff. exists g1. split; [|exact I1].
    apply Z.eqb_neq in N. now rewrite N.
  - apply in_map_iff. exists g2. split; [|exact I2].
    now rewrite Z.eqb_refl.
Qed.

End Unchecked.

(** ** Goals, budgets, totals *)

Section Reports.
Context {RT : Runtime}.

(** X14.  [set_financial_goal] asks for the description, the target and
    the progress first and looks for the description afterwards: when a goal
    with the title-cased description exists, the three lines have been read,
    the goal is refused and the store is as it was. *)
Theorem set_financial_goal_rejects_duplicate (w : world) (g : goal)
  (ld lt lp : string) (rest : list string) (t p : float) :
  In g (rows (db_financial_goals (store w))) ->
  goal_description g = title ld ->
  stdin w = ld :: lt :: lp :: rest ->
  py_float lt = Some t ->
  py_float lp = Some p ->
  set_financial_goal w =
  Ok tt {| store := store w; stdin := rest;
           stdout := stdout w ++
             [Prompt "Enter goal description: ";
              Prompt "Enter target amount: £";
              Prompt "Enter current progress amount: £";
              Print [Str "The goal you are trying to set already exists."];
              border_line] |}.
Proof.
  intros I D L Pt Pp. destruct w as [d input o]. simpl in *. subst input.
  unfold set_financial_goal. unfold bind at 1. unfold input.
  cbn [store stdin stdout].
  rewrite (bind_ok _ _ _ _ _ (validate_float_input_accepts _ _ _ _ _ _ Pt)).
  rewrite (bind_ok _ _ _ _ _ (validate_float_input_accepts _ _ _ _ _ _ Pp)).
  unfold bind at 1. unfold column_exists, query. cbn [store stdin stdout].
  replace (existsb _ _) with true.
  - unfold bind, print, border, emit. simpl. now rewrite <- !app_assoc.
  - symmetry. apply existsb_exists. exists g. split; [exact I|].
    now apply String.eqb_eq.
Qed.

(** X15.  [set_category_budget] on a listed category that has no budget
    yet, category and amount typed at the first try: one budget row is
    appended under a fresh key with that category and the amount as SQLite
    stores it, and no other table changes. *)
Theorem set_category_budget_inserts (w : world) (lc la : string)
  (rest : list string) (c : Z) (a : float) :
  stdin w = lc :: la :: rest ->
  py_int lc = Some c ->
  In c (map cat_id (categories expense_category (store w))) ->
  py_float la = Some a ->
  ~ In c (map budget_category (rows (db_budgets (store w)))) ->
  exists w',
    set_category_budget w = Ok tt w' /\
    stdin w' = rest /\
    rows (db_budgets (store w')) =
      rows (db_budgets (store w)) ++
      [{| budget_id := seq (db_budgets (store w)) + 1;
          budget_category := c; budget_amount := real_storage a |}] /\
    (forall t, t <> budgets -> from t (store w') = from t (store w)).
Proof.
  intros I Pc Ic Pa N. destruct w as [d input o]. simpl in *. subst input.
  unfold set_category_budget.
  rewrite (bind_ok _ _ _ _ _ (view_expense_categories_run _)).
  cbn [store stdin stdout].
  rewrite (in_the_list_truthy (Some _) c Ic). cbn [the_list].
  rewrite (bind_ok _ _ _ _ _ (select_id_accepts _ _ _ _ _ _ _ _ Pc Ic)).
  rewrite (bind_ok _ _ _ _ _ (validate_float_input_accepts _ _ _ _ _ _ Pa)).
  rewrite (bind_ok _ _ _ _ _ (as_key_stored expense_category c (Build_world d _ _) Ic)).
  unfold bind at 1. unfold query. cbn [store stdin stdout].
  replace (existsb _ _) with false.
  - rewrite add_budget_run by exact Ic.
    eexists. split; [reflexivity|]. simpl. repeat split.
    intros t T. destruct t as [[]|[]| |]; try reflexivity. now destruct T.
  - symmetry. apply not_true_iff_false. intros E.
    apply existsb_exists in E as (b & Ib & Eb). apply Z.eqb_eq in Eb.
    apply N. rewrite <- Eb. now apply in_map.
Qed.

(** X16.  [delete_category_budget] does not stop when there is no budget:
    it still asks, turns down three integers whatever they are, and only
    then gives up; the store is as it was. *)
Theorem delete_category_budget_without_budget (w : world)
  (l1 l2 l3 : string) (rest : list string) (v1 v2 v3 : Z) :
  rows (db_budgets (store w)) = [] ->
  stdin w = l1 :: l2 :: l3 :: rest ->
  py_int l1 = Some v1 -> py_int l2 = Some v2 -> py_int l3 = Some v3 ->
  delete_category_budget w =
  Ok tt {| store := store w; stdin := rest;
           stdout := stdout w ++
             [Print [Str nl; Str "No category budgets have been created."];
              border_line;
              Prompt "Enter budget ID to delete: "; range_complaint [];
              Prompt "Enter budget ID to delete: "; range_complaint [];
              Prompt "Enter budget ID to delete: "; range_complaint [];
              too_many_attempts; border_line] |}.
Proof.
  intros E L P1 P2 P3. destruct w as [d input o]. simpl in *. subst input.
  unfold delete_category_budget.
  rewrite (bind_ok _ _ _ _ _ (view_all_budgets_run _)).
  cbn [store stdin stdout]. rewrite E. cbn [map the_list budget_listing].
  rewrite (bind_ok _ _ _ _ _
             (select_id_gives_up _ [] _ _ _ _ _ _ _ _ _ P1 P2 P3
                (fun H => H) (fun H => H) (fun H => H))).
  unfold ret. now rewrite <- !app_assoc.
Qed.

(** X17.  [view_expenses_by_category] on a listed category typed at the
    first try prints the amounts filed under it, NULL ones as empty cells.
    When they are all numbers it goes on with their total, which is Python's
    [sum] of them in rowid order (0 for none); when one of them is NULL it
    stops there with [TypeError]. *)
Theorem view_expenses_by_category_total (w : world) (l : string)
  (rest : list string) (c : Z) :
  stdin w = l :: rest ->
  py_int l = Some c ->
  In c (map cat_id (categories expense_category (store w))) ->
  let amounts := amounts_under expenses c (store w) in
  let shown :=
    stdout w ++
    category_listing (categories expense_category (store w)) ++
    [Prompt "Enter category ID to view: ";
     Tabulate ["Amount"] (map (fun a => [cell a]) amounts)] in
  (Forall (fun a => a <> None) amounts ->
   view_expenses_by_category w =
   Ok tt {| store := store w; stdin := rest;
            stdout := shown ++
              [Print [Str nl; Str "Total Expenses in Category: ";
                      Amt (float_total amounts)];
               border_line] |}) /\
  (In None amounts ->
   view_expenses_by_category w =
   Raise TypeError {| store := store w; stdin := rest; stdout := shown |}).
Proof.
  intros L P I amounts shown.
  destruct w as [d input o]. simpl in *. subst input.
  assert (amounts_in expenses c d = amounts) as A.
  { unfold amounts_in, amounts, amounts_under.
    now rewrite references_filed_under. }
  assert (view_expenses_by_category
            {| store := d; stdin := l :: rest; stdout := o |} =
          bind (py_sum amounts)
            (fun total =>
               bind (print [Str nl; Str "Total Expenses in Category: ";
                            Amt total])
                 (fun _ => border))
            {| store := d; stdin := rest; stdout := shown |}) as Run.
  { unfold view_expenses_by_category.
    rewrite (bind_ok _ _ _ _ _ (view_expense_categories_run _)).
    cbn [store stdin stdout].
    rewrite (in_the_list_truthy (Some _) c I). cbn [the_list].
    rewrite (bind_ok _ _ _ _ _ (select_id_accepts _ _ _ _ _ _ _ _ P I)).
    rewrite (bind_ok _ _ _ _ _ (as_key_stored expense_category c (Build_world d _ _) I)).
    unfold bind at 1. unfold query. cbn [store stdin stdout]. rewrite A.
    unfold bind at 1. unfold tabulate, emit. cbn [store stdin stdout].
    unfold shown. now rewrite <- !app_assoc. }
  rewrite Run. split.
  - intros F. rewrite (bind_ok _ _ _ _ _ (py_sum_numbers _ _ F)).
    unfold bind, print, border, emit. simpl. now rewrite <- !app_assoc.
  - intros N. now rewrite (bind_raise _ _ _ _ _ (py_sum_null _ _ N)).
Qed.

(** X28.  An amount that SQLite stores as NULL (a NaN) breaks the listing:
    after [add_expense] has taken it for a listed category,
    [view_expenses] prints its table, with an empty cell for that row, and
    stops with [TypeError] where the total would be computed. *)
Theorem add_expense_null_amount (w : world) (lc la : string)
  (rest : list string) (c : Z) (a : float) :
  stdin w = lc :: la :: rest ->
  py_int lc = Some c ->
  In c (map cat_id (categories expense_category (store w))) ->
  py_float la = Some a ->
  real_storage a = None ->
  exists w1 name,
    add_expense w = Ok tt w1 /\
    stdin w1 = rest /\
    In (seq (db_expenses (store w)) + 1, name, None)
       (joined expenses (store w1)) /\
    view_expenses w1 =
    Raise TypeError
      {| store := store w1; stdin := rest;
         stdout := stdout w1 ++ expense_table (joined expenses (store w1)) |}.
Proof.
  intros I Pc Ic Pa Null. destruct w as [d input o]. simpl in *. subst input.
  unfold add_expense.
  rewrite (bind_ok _ _ _ _ _ (view_expense_categories_run _)).
  cbn [store stdin stdout].
  rewrite (in_the_list_truthy (Some _) c Ic). cbn [the_list].
  rewrite (bind_ok _ _ _ _ _ (select_id_accepts _ _ _ _ _ _ _ _ Pc Ic)).
  rewrite (bind_ok _ _ _ _ _ (validate_float_input_accepts _ _ _ _ _ _ Pa)).
  rewrite (add_entry_run expenses)
    by exact (category_stored expense_category _ _ Ic).
  cbn [store stdin stdout].
  set (d1 := into expenses _ d).
  destruct (entry_joined_row (entries expenses d1)
              (categories expense_category d1)
              {| entry_id := seq (db_expenses d) + 1;
                 entry_category := IdInt c; entry_amount := None |})
    as (name & J).
  { unfold d1, entries. simpl. apply in_or_app. right. left.
    now rewrite Null. }
  { unfold has_category. simpl. apply existsb_exists.
    apply in_map_iff in Ic as (k & Ek & Ik). exists k.
    split; [exact Ik|]. now apply Z.eqb_eq. }
  simpl in J. eexists. exists name.
  split; [reflexivity|]. cbn [store stdin stdout].
  split; [reflexivity|]. split; [exact J|].
  apply (view_expenses_null (Build_world d1 rest _)).
  apply in_map_iff. now exists (seq (db_expenses d) + 1, name, None).
Qed.

End Reports.
(** ** Navigation *)

Section Navigation.
Context {RT : Runtime}.
Variable isnumeric : string -> bool.

Lemma read_choice_integer text complaint d l rest o n :
  isnumeric l = true -> py_int l = Some n ->
  read_choice isnumeric text complaint
    {| store := d; stdin := l :: rest; stdout := o |} =
  Ok (Some n) {| store := d; stdin := rest; stdout := o ++ [Prompt text] |}.
Proof.
  intros N P. unfold read_choice, bind, input. simpl. now rewrite N, P.
Qed.

(** X19.  A numeric line that reads as 0 at the main menu ends the program:
    it says goodbye and returns, the store is as it was and the lines after
    it are left unread. *)
Theorem main_exits_on_zero (w : world) (l : string) (rest : list string) :
  stdin w = l :: rest ->
  isnumeric l = true ->
  py_int l = Some 0 ->
  main isnumeric w =
  Ok tt {| store := store w; stdin := rest;
           stdout := stdout w ++ [Prompt main_menu_text; goodbye] |}.
Proof.
  intros L N P. destruct w as [d input o]. simpl in *. subst input.
  unfold main. apply while_true_break.
  rewrite (bind_ok _ _ _ _ _ (read_choice_integer _ _ _ _ _ _ _ N P)).
  unfold bind, print, emit, ret. simpl. now rewrite <- app_assoc.
Qed.

(** X20.  A line that [str.isnumeric] accepts and [int] cannot read stops
    the program at the main menu with an uncaught [ValueError]; the store is
    as it was. *)
Theorem main_numeric_not_integer (w : world) (l : string)
  (rest : list string) :
  stdin w = l :: rest ->
  isnumeric l = true ->
  py_int l = None ->
  main isnumeric w =
  Raise ValueError {| store := store w; stdin := rest;
                      stdout := stdout w ++ [Prompt main_menu_text] |}.
Proof.
  intros L N P. destruct w as [d input o]. simpl in *. subst input.
  unfold main, while_true. rewrite iterate_S.
  unfold read_choice, bind, input. simpl. now rewrite N, P.
Qed.

(** X21.  A line that is not numeric is answered with a complaint and the
    main menu is shown again: the program goes on as if started on the rest
    of the input. *)
Theorem main_asks_again (d : database) (l : string) (rest : list string)
  (o : list out) :
  isnumeric l = false ->
  main isnumeric {| store := d; stdin := l :: rest; stdout := o |} =
  main isnumeric
    {| store := d; stdin := rest;
       stdout := o ++
         [Prompt main_menu_text;
          Print [Str nl;
                 Str "Invalid input - please enter selection as an integer."];
          border_line] |}.
Proof.
  intros N. unfold main. apply while_true_again; [|reflexivity].
  unfold read_choice, bind, input, print, border, emit, ret. simpl.
  rewrite N. simpl. now rewrite <- !app_assoc.
Qed.

(** X22.  Entering a sub-menu and leaving it at once: the sub-menu is shown
    once, the main menu comes back, and nothing has been written to the
    store. *)
Theorem main_submenu_and_back (m : submenu) (d : database)
  (lm l0 : string) (rest : list string) (o : list out) :
  isnumeric lm = true ->
  py_int lm = Some (match m with
                    | ExpensesMenu => 1
                    | IncomeMenu => 2
                    | BudgetsMenu => 3
                    | GoalsMenu => 4
                    end) ->
  isnumeric l0 = true ->
  py_int l0 = Some 0 ->
  main isnumeric {| store := d; stdin := lm :: l0 :: rest; stdout := o |} =
  main isnumeric
    {| store := d; stdin := rest;
       stdout := o ++ [Prompt main_menu_text; Prompt (submenu_text m)] |}.
Proof.
  intros Nm Pm N0 P0. change (main isnumeric) with
    (while_true (main_round isnumeric)).
  apply while_true_next; [apply main_round_consumes|]. unfold main_round.
  - rewrite (bind_ok _ _ _ _ _ (read_choice_integer _ _ _ _ _ _ _ Nm Pm)).
    assert (submenu_loop isnumeric m
              {| store := d; stdin := l0 :: rest;
                 stdout := o ++ [Prompt main_menu_text] |} =
            Ok tt {| store := d; stdin := rest;
                     stdout := (o ++ [Prompt main_menu_text]) ++
                               [Prompt (submenu_text m)] |}) as Sub.
    { unfold submenu_loop. apply while_true_break.
      now rewrite (bind_ok _ _ _ _ _
                     (read_choice_integer _ _ _ _ _ _ _ N0 P0)). }
    destruct m; rewrite (bind_ok _ _ _ _ _ Sub); unfold ret;
      now rewrite <- app_assoc.
Qed.

End Navigation.

(** ** Deleting *)

Section Deleting.
Context {RT : Runtime}.

(** X23.  [delete_record] with an identifier that no row of the table
    carries deletes nothing when the identifier fits 64 bits: the store is
    as it was.  When it does not, SQLite cannot take it: [OverflowError] is
    raised, and nothing is written or printed. *)
Theorem delete_record_missing_key (t : table_name) (id : Z) (w : world) :
  (forall r, In r (rows (from t (store w))) -> row_id r <> id) ->
  (int64 id = true ->
   exists w', delete_record t id w = Ok tt w' /\ store w' = store w) /\
  (int64 id = false -> delete_record t id w = Raise OverflowError w).
Proof.
  intros A. split; intros H.
  - eexists. split; [apply delete_record_run; now left|].
    cbn [store]. now apply delete_cascade_absent.
  - assert (~ stored t id (store w)) as N.
    { intros S. unfold stored in S. apply in_map_iff in S as (r & E & I).
      now apply (A r). }
    unfold delete_record.
    now rewrite (bind_raise _ _ _ _ _ (as_key_overflow t id w H N)).
Qed.

(** X24.  Deleting an expense category deletes its budget with it: the
    budget rows left are those of the other categories. *)
Theorem delete_expense_category_drops_budget (r0 : category) (w : world) :
  In r0 (categories expense_category (store w)) ->
  exists w',
    delete_record expense_category (cat_id r0) w = Ok tt w' /\
    forall b, In b (rows (db_budgets (store w'))) <->
              In b (rows (db_budgets (store w))) /\
              budget_category b <> cat_id r0.
Proof. apply delete_record_cascades_budgets. Qed.

(** X25.  [delete_income_category] gives up after three integers that are
    no listed identifier: it says that there were too many attempts, the
    store is as it was, and the lines after the third are left unread. *)
Theorem delete_income_category_abandons (l1 l2 l3 : string)
  (rest : list string) (v1 v2 v3 : Z) (d : database) (o : list out) :
  let valid := map cat_id (categories income_category d) in
  py_int l1 = Some v1 -> py_int l2 = Some v2 -> py_int l3 = Some v3 ->
  ~ In v1 valid -> ~ In v2 valid -> ~ In v3 valid ->
  valid <> [] ->
  exists o',
    delete_income_category
      {| store := d; stdin := l1 :: l2 :: l3 :: rest; stdout := o |} =
    Ok tt {| store := d; stdin := rest; stdout := o' |} /\
    In too_many_attempts o'.
Proof. apply delete_income_category_gives_up. Qed.

(** X26.  [delete_expense] of a listed identifier typed at the first try
    removes the rows of that key from [expenses] and nothing else: the key
    is no longer found, every other key reads as before, and no other table
    changes.  (The amounts of the rows that [view_expenses] shows are
    numbers.) *)
Theorem delete_expense_removes (w : world) (e : entry) (l : string)
  (rest : list string) :
  In e (entries expenses (store w)) ->
  has_category (categories expense_category (store w)) e = true ->
  Forall priced (listed expenses (store w)) ->
  stdin w = l :: rest ->
  py_int l = Some (entry_id e) ->
  exists w',
    delete_expense w = Ok tt w' /\
    stdin w' = rest /\
    lookup entry_id (entry_id e) (entries expenses (store w')) = None /\
    (forall id, id <> entry_id e ->
       lookup entry_id id (entries expenses (store w')) =
       lookup entry_id id (entries expenses (store w))) /\
    (forall t, t <> Ent expenses -> from t (store w') = from t (store w)).
Proof.
  intros I C Pr L P. destruct w as [d input o]. simpl in *. subst input.
  assert (In (entry_id e)
            (map (fun x => fst (fst x)) (joined expenses d))) as Listed
    by exact (listed_id_joined _ _ _ I C).
  unfold delete_expense.
  rewrite (bind_ok _ _ _ _ _ (view_expenses_run (Build_world d _ _) Pr)).
  cbn [store stdin stdout].
  rewrite (in_the_list_truthy (Some _) _ Listed). cbn [the_list].
  rewrite (bind_ok _ _ _ _ _ (select_id_accepts _ _ _ _ _ _ _ _ P Listed)).
  rewrite (delete_record_run expenses)
    by (right; exact (stored_row expenses e _ I)).
  eexists. split; [reflexivity|]. simpl. split; [reflexivity|].
  unfold entries, lookup. simpl.
  generalize (rows (db_expenses d)). intros es. repeat split.
  - induction es as [|x es IH]; [reflexivity|]. simpl.
    destruct (entry_id x =? entry_id e) eqn:E; simpl; [exact IH|].
    now rewrite E.
  - intros id N. induction es as [|x es IH]; [reflexivity|]. simpl.
    destruct (entry_id x =? entry_id e) eqn:E; simpl.
    + apply Z.eqb_eq in E. rewrite E.
      apply Z.eqb_neq in N. rewrite Z.eqb_sym in N. now rewrite N.
    + now rewrite IH.
  - intros t T. destruct t as [[]|[]| |]; try reflexivity. now destruct T.
Qed.

End Deleting.
(** * Closed runs *)

#[local] Existing Instance AsciiRuntime.runtime.

(** Every row of [demo_store] is one the program itself wrote, the two
    dangling [category_id]s through [update_record]. *)
Example demo_store_reachable :
  demo_session (terminal create_database demo_lines) =
  Ok tt (after demo_session (terminal create_database demo_lines)) /\
  store (after demo_session (terminal create_database demo_lines))
    = demo_store /\
  stdin (after demo_session (terminal create_database demo_lines)) = [].
Proof. vm_compute. repeat split. Qed.

(** Food, 12.50 and 7.50: the category view reports a total of 20. *)
Example view_expenses_by_category_food :
  In (Print [Str nl; Str "Total Expenses in Category: "; Amt 20%float])
     (stdout (after view_expenses_by_category (terminal demo_store ["1"]))).
Proof. vm_compute. tauto. Qed.

(** A goal that has met its target: reached, and no shortfall line. *)
Example view_goal_progress_reached :
  let o := stdout (after view_goal_progress (terminal demo_store ["1"])) in
  In (Print [Str nl; Str "You have reached your saving target!"]) o /\
  forall x, ~ In (Print [Str nl; Str "You are £"; Amt x;
                         Str " short of your target."]) o.
Proof.
  split; [vm_compute; tauto|]. intros x. vm_compute.
  intuition discriminate.
Qed.

(** The same lines typed at the two category deletions, four identifiers
    out of range and then 1: the expense side deletes category 1 on the
    fifth line, the income side has given up after the third and leaves the
    rest of the input unread. *)
Example delete_category_asymmetry :
  let lines := ["7"; "7"; "7"; "7"; "1"] in
  categories expense_category
    (store (after delete_expense_category (terminal demo_store lines))) = [] /\
  store (after delete_income_category (terminal demo_store lines))
    = demo_store /\
  stdin (after delete_income_category (terminal demo_store lines))
    = ["7"; "1"].
Proof. vm_compute. repeat split. Qed.

(** A session on a fresh database: a category, an expense whose amount is
    typed as nan, then the list of expenses.  The amount is stored as NULL
    and the list ends in [TypeError]. *)
Example nan_session :
  exists w',
    main AsciiRuntime.isnumeric
      (terminal create_database ["1"; "1"; "food"; "3"; "1"; "nan"; "4"])
    = Raise TypeError w' /\
    entries expenses (store w') =
      [{| entry_id := 1; entry_category := IdInt 1; entry_amount := None |}] /\
    stdin w' = [].
Proof. eexists. vm_compute. repeat split. Qed.

(** The overall view on [demo_store]: income 3 and 5, expenses 12.50, 7.50
    and 4, dangling rows included. *)
Example display_current_budget_demo :
  stdout (after display_current_budget (terminal demo_store [])) =
  [Print [Str nl; Str "Total Income: "; Amt 8%float];
   Print [Str "Total Expenses: "; Amt 24%float];
   Print [Str "Current Overall Budget: "; Amt (-16)%float]].
Proof. vm_compute. reflexivity. Qed.

(** How amounts print with two decimals. *)
Example amount_text_rounds :
  amount_text (typed "12.345") = "12.35" /\
  amount_text (typed "0.125") = "0.12" /\
  amount_text (typed "2.675") = "2.67" /\
  amount_text (typed "-0") = "-0.00" /\
  two_decimals (1 # 8) = "0.12" /\
  two_decimals (- (3 # 8)) = "-0.38".
Proof. vm_compute. repeat split. Qed.

Lemma delete_record_cascades_witness :
  exists w',
    delete_record expense_category 1 (terminal demo_store []) = Ok tt w' /\
    categories expense_category (store w') = [] /\
    forall e, In e (entries expenses (store w')) ->
              entry_category e <> IdInt 1.
Proof.
  destruct (delete_record_cascades expense_category
              {| cat_id := 1; cat_name := "Food" |} (terminal demo_store [])
              ltac:(simpl; tauto))
    as (w' & Run & _ & Gone).
  exists w'. split; [exact Run|]. split.
  - injection Run as <-. reflexivity.
  - intros e I. now apply Gone in I.
Defined.

Lemma view_category_budget_variance_witness :
  exists w',
    view_category_budget (terminal demo_store ["1"]) = Ok tt w' /\
    In (Print [Str "Total Spent: £"; Amt 20%float]) (stdout w') /\
    In (Print [Str "Expenditure is £"; Amt 5%float; Str " over budget."])
       (stdout w').
Proof.
  destruct (view_category_budget_variance (terminal demo_store ["1"]) _ _ _
              {| budget_id := 1; budget_category := 1;
                 budget_amount := Some 15%float |} 15%float
              ltac:(repeat constructor; simpl; tauto)
              ltac:(simpl; tauto) eq_refl eq_refl eq_refl)
    as (verdict & Run & [[_ ->]|[Not _]] & _).
  - eexists. split; [exact Run|]. split; vm_compute; tauto.
  - vm_compute in Not. discriminate.
Defined.

(** C1 does not hold as worded.  A budget of 0.0051 for a category with the
    single expense 35184372088832 (2^45): the expenses sum to that amount,
    whichever way one adds, and S - B is 35184372088831.9949, yet the view
    reports the expenditure as 35184372088832.00 over budget, because the
    difference is rounded to a double. *)
Lemma view_category_budget_variance_counterexample :
  ~ reports_variance (budget_store "0.0051" ["35184372088832"])
      {| budget_id := 1; budget_category := 1;
         budget_amount := Some (typed "0.0051") |}.
Proof.
  intros (B & S & EB & ES & Over & _).
  vm_compute in EB. injection EB as <-.
  vm_compute in ES. injection ES as <-.
  destruct Over as (x & I & T); [reflexivity|].
  vm_compute in I.
  repeat (destruct I as [I|I];
          [try discriminate I;
           injection I as <-; vm_compute in T; discriminate T|]).
  exact I.
Qed.

Lemma set_category_budget_rejects_second_witness :
  exists w',
    set_category_budget (terminal demo_store ["1"; "99.99"]) = Ok tt w' /\
    store w' = demo_store.
Proof.
  eexists. split.
  - exact (set_category_budget_rejects_second
             (terminal demo_store ["1"; "99.99"]) _ _ _ _ 1 _
             {| budget_id := 1; budget_category := 1;
                budget_amount := Some 15%float |}
             ltac:(simpl; tauto) eq_refl eq_refl eq_refl eq_refl).
  - reflexivity.
Defined.

Lemma add_category_twice_witness :
  exists w1 w2,
    add_category expense_category "rent" "taken" (terminal demo_store [])
      = Ok tt w1 /\
    add_category expense_category "RENT" "taken" w1 = Ok tt w2 /\
    List.length (named expense_category "Rent" (store w2)) = 1%nat.
Proof.
  destruct (add_category_twice (RT := AsciiRuntime.runtime)
              expense_category "rent" "RENT" "taken" "taken"
              (terminal demo_store []) ltac:(reflexivity) ltac:(simpl; lia))
    as (w1 & w2 & R1 & R2 & _ & _ & L).
  exists w1, w2. auto.
Defined.

Lemma view_goal_progress_shortfall_witness :
  exists w',
    view_goal_progress (terminal (goal_store "1000" "250.5") ["1"])
      = Ok tt w' /\
    In (Print [Str nl; Str "You are £"; Amt 749.5%float;
               Str " short of your target."]) (stdout w').
Proof.
  destruct (view_goal_progress_shortfall
              (terminal (goal_store "1000" "250.5") ["1"]) _ _ _
              {| goal_id := 1; goal_description := "House";
                 goal_target := NumReal (typed "1000");
                 goal_progress := NumReal (typed "250.5") |}
              (typed "1000") (typed "250.5")
              ltac:(repeat constructor; simpl; tauto)
              ltac:(simpl; tauto) eq_refl eq_refl eq_refl eq_refl)
    as (verdict & Run & [[Reached _]|[_ ->]]).
  - vm_compute in Reached. discriminate.
  - eexists. split; [exact Run|]. vm_compute. tauto.
Defined.

(** C5 does not hold as worded.  A goal with target 35184372088832 (2^45)
    and progress 0.0051 is short of its target by 35184372088831.9949; the
    view reports 35184372088832.00, the difference rounded to a double. *)
Lemma view_goal_progress_shortfall_counterexample :
  ~ reports_shortfall (goal_store "35184372088832" "0.0051") 1
      (typed "35184372088832") (typed "0.0051").
Proof.
  intros (T & P & ET & EP & _ & Short).
  vm_compute in ET. injection ET as <-.
  vm_compute in EP. injection EP as <-.
  destruct Short as (x & I & E); [intros H; vm_compute in H; now apply H|].
  vm_compute in I.
  repeat (destruct I as [I|I];
          [try discriminate I;
           injection I as <-; vm_compute in E; discriminate E|]).
  exact I.
Qed.

(** C6 does not hold as worded.  With the single income 35184372088832
    (2^45) and the single expense 0.0051 the two totals are those amounts,
    whichever way one adds, and their difference is 35184372088831.9949;
    the view reports an overall budget of 35184372088832.00. *)
Lemma display_current_budget_totals_counterexample :
  ~ reports_overall (ledger ["35184372088832"] ["0.0051"]).
Proof.
  intros (I & E & x & y & z & EI & EE & _ & _ & Iz & _ & _ & Tz).
  vm_compute in EI. injection EI as <-.
  vm_compute in EE. injection EE as <-.
  vm_compute in Iz.
  repeat (destruct Iz as [Iz|Iz];
          [try discriminate Iz;
           injection Iz as <-; vm_compute in Tz; discriminate Tz|]).
  exact Iz.
Qed.

Lemma delete_expense_category_retries_unbounded_witness :
  exists w',
    delete_expense_category (terminal demo_store ["7"; "7"; "7"; "7"; "1"])
      = Ok tt w' /\
    categories expense_category (store w') = [] /\
    stdin w' = [] /\
    ~ In too_many_attempts (stdout w').
Proof.
  eexists. split.
  - exact (delete_expense_category_retries_unbounded 4 "7" "1" 7 1
             demo_store [] eq_refl eq_refl
             ltac:(simpl; intuition discriminate) ltac:(simpl; tauto)).
  - repeat split. simpl. intuition discriminate.
Defined.



Lemma view_expenses_skips_uncategorised_witness :
  exists ids w',
    view_expenses (terminal demo_store []) = Ok (Some ids) w' /\
    ~ In 3 ids /\
    In (Print [Str nl; Str "Total Expenses: "; Amt 20%float]) (stdout w').
Proof.
  destruct (view_expenses_skips_uncategorised (terminal demo_store [])
              {| entry_id := 3; entry_category := IdInt 42;
                 entry_amount := Some 4%float |}
              ltac:(simpl; tauto) eq_refl
              ltac:(repeat constructor; simpl; intuition discriminate))
    as (o & _ & Returns & _).
  destruct (Returns ltac:(repeat constructor; discriminate))
    as (ids & Run & Out & _).
  exists ids. eexists. split; [exact Run|]. split; [exact Out|].
  vm_compute in Run. injection Run as _ <-. vm_compute. tauto.
Defined.

(** ** Closed runs of the further properties *)

Lemma validate_int_input_first_integer_witness :
  exists w',
    validate_int_input "ID: " (terminal demo_store ["x"; "7"; "z"]) = Ok 7 w' /\
    stdin w' = ["z"].
Proof.
  eexists. split.
  - exact (proj1 (validate_int_input_first_integer "ID: " demo_store ["x"] []
                    ltac:(repeat constructor)) "7" 7 ["z"] eq_refl).
  - reflexivity.
Defined.

Lemma validate_float_input_first_number_witness :
  exists w',
    validate_float_input "£" (terminal demo_store ["x"; "12.5"; "z"])
      = Ok 12.5%float w' /\
    stdin w' = ["z"].
Proof.
  eexists. split.
  - exact (proj1 (validate_float_input_first_number "£" demo_store ["x"] []
                    ltac:(repeat constructor)) "12.5" 12.5%float ["z"]
             eq_refl).
  - reflexivity.
Defined.

Lemma add_expense_records_witness :
  exists w',
    add_expense (terminal demo_store ["1"; "2.5"]) = Ok tt w' /\
    amounts_under expenses 1 (store w') =
      [Some 12.5%float; Some 7.5%float; Some 2.5%float].
Proof.
  destruct (add_expense_records (RT := AsciiRuntime.runtime)
              (terminal demo_store ["1"; "2.5"])
              "1" "2.5" [] 1 2.5%float eq_refl eq_refl
              ltac:(simpl; tauto) eq_refl)
    as (w' & Run & _ & _ & _ & Under).
  exists w'. split; [exact Run|]. rewrite Under. reflexivity.
Defined.

Lemma add_expense_without_category_witness :
  exists w',
    add_expense (terminal create_database ["1"]) = Ok tt w' /\
    store w' = create_database /\ stdin w' = ["1"].
Proof.
  eexists. split.
  - exact (add_expense_without_category (terminal create_database ["1"])
             eq_refl).
  - split; reflexivity.
Defined.

Lemma update_record_invalid_field_witness :
  exists w',
    update_record expenses 1 [col_category_id; col_amount]
      (terminal demo_store ["5"]) = Ok tt w' /\
    store w' = demo_store.
Proof.
  eexists. split.
  - exact (update_record_invalid_field (RT := AsciiRuntime.runtime)
             expenses 1 [col_category_id; col_amount]
             (terminal demo_store ["5"]) "5" [] 5 eq_refl eq_refl
             ltac:(right; reflexivity)).
  - reflexivity.
Defined.

Lemma update_expense_unfiles_witness :
  exists w' ids w'',
    update_expense (terminal demo_store ["1"; "1"; "77"]) = Ok tt w' /\
    view_expenses w' = Ok (Some ids) w'' /\
    ~ In 1 ids.
Proof.
  destruct (update_expense_unfiles (RT := AsciiRuntime.runtime)
              (terminal demo_store ["1"; "1"; "77"])
              {| entry_id := 1; entry_category := IdInt 1;
                 entry_amount := Some 12.5%float |}
              "1" "1" "77" [] 77
              ltac:(simpl; tauto) eq_refl
              ltac:(repeat constructor; discriminate)
              eq_refl eq_refl eq_refl eq_refl
              ltac:(simpl; intuition discriminate))
    as (w' & ids & w'' & Run & _ & _ & View & Out).
  exists w', ids, w''. auto.
Defined.

Lemma update_goal_text_target_witness :
  exists w1 w2,
    update_goal (terminal demo_store ["1"; "2"; "a lot"; "1"]) = Ok tt w1 /\
    view_goal_progress w1 = Raise ValueError w2.
Proof.
  destruct (update_goal_text_target (RT := AsciiRuntime.runtime)
              (terminal demo_store ["1"; "2"; "a lot"; "1"])
              {| goal_id := 1; goal_description := "Emergency Fund";
                 goal_target := NumReal 1000%float;
                 goal_progress := NumReal 1000%float |}
              "1" "2" "a lot" "1" []
              ltac:(simpl; tauto) eq_refl eq_refl eq_refl eq_refl eq_refl)
    as (w1 & w2 & Run & _ & Crash & _).
  exists w1, w2. auto.
Defined.

Lemma set_financial_goal_rejects_duplicate_witness :
  exists w',
    set_financial_goal (terminal demo_store ["emergency fund"; "5"; "1"])
      = Ok tt w' /\
    store w' = demo_store.
Proof.
  eexists. split.
  - exact (set_financial_goal_rejects_duplicate (RT := AsciiRuntime.runtime)
             (terminal demo_store ["emergency fund"; "5"; "1"])
             {| goal_id := 1; goal_description := "Emergency Fund";
                goal_target := NumReal 1000%float;
                goal_progress := NumReal 1000%float |}
             "emergency fund" "5" "1" [] 5%float 1%float
             ltac:(simpl; tauto) eq_refl eq_refl eq_refl eq_refl).
  - reflexivity.
Defined.

Lemma set_category_budget_inserts_witness :
  exists w',
    set_category_budget (terminal unbudgeted_store ["1"; "20"]) = Ok tt w' /\
    rows (db_budgets (store w')) =
      [{| budget_id := 2; budget_category := 1;
          budget_amount := Some 20%float |}].
Proof.
  destruct (set_category_budget_inserts (RT := AsciiRuntime.runtime)
              (terminal unbudgeted_store ["1"; "20"])
              "1" "20" [] 1 20%float eq_refl eq_refl
              ltac:(simpl; tauto) eq_refl ltac:(simpl; tauto))
    as (w' & Run & _ & Rows & _).
  exists w'. split; [exact Run|]. rewrite Rows. reflexivity.
Defined.

Lemma delete_category_budget_without_budget_witness :
  exists w',
    delete_category_budget (terminal create_database ["1"; "2"; "3"; "4"])
      = Ok tt w' /\
    stdin w' = ["4"].
Proof.
  eexists. split.
  - exact (delete_category_budget_without_budget (RT := AsciiRuntime.runtime)
             (terminal create_database ["1"; "2"; "3"; "4"])
             "1" "2" "3" ["4"] 1 2 3 eq_refl eq_refl eq_refl eq_refl eq_refl).
  - reflexivity.
Defined.

Lemma view_expenses_by_category_total_witness :
  exists w',
    view_expenses_by_category (terminal demo_store ["1"]) = Ok tt w' /\
    In (Print [Str nl; Str "Total Expenses in Category: "; Amt 20%float])
       (stdout w').
Proof.
  destruct (view_expenses_by_category_total (RT := AsciiRuntime.runtime)
              (terminal demo_store ["1"])
              "1" [] 1 eq_refl eq_refl ltac:(simpl; tauto))
    as [Run _].
  eexists. split.
  - apply Run. repeat constructor; discriminate.
  - vm_compute. tauto.
Defined.

Lemma add_expense_null_amount_witness :
  exists w1 w2,
    add_expense (terminal demo_store ["1"; "nan"]) = Ok tt w1 /\
    view_expenses w1 = Raise TypeError w2 /\
    In [Int 4; Str "Food"; Blank]
       (flat_map (fun o => match o with
                           | Tabulate _ body => body
                           | _ => []
                           end) (stdout w2)).
Proof.
  destruct (add_expense_null_amount (RT := AsciiRuntime.runtime)
              (terminal demo_store ["1"; "nan"])
              "1" "nan" [] 1 nan eq_refl eq_refl
              ltac:(simpl; tauto) eq_refl eq_refl)
    as (w1 & name & Run & _ & _ & View).
  exists w1. eexists. split; [exact Run|]. split; [exact View|].
  injection Run as <-. vm_compute. tauto.
Defined.

Lemma main_exits_on_zero_witness :
  exists w',
    main AsciiRuntime.isnumeric (terminal demo_store ["0"; "1"]) = Ok tt w' /\
    store w' = demo_store /\ stdin w' = ["1"].
Proof.
  eexists. split.
  - exact (main_exits_on_zero (RT := AsciiRuntime.runtime)
             AsciiRuntime.isnumeric
             (terminal demo_store ["0"; "1"]) "0" ["1"]
             eq_refl eq_refl eq_refl).
  - split; reflexivity.
Defined.

Lemma main_numeric_not_integer_witness :
  exists w',
    main AsciiRuntime.isnumeric (terminal demo_store ["²"; "0"])
      = Raise ValueError w' /\
    store w' = demo_store.
Proof.
  eexists. split.
  - exact (main_numeric_not_integer (RT := AsciiRuntime.runtime)
             AsciiRuntime.isnumeric
             (terminal demo_store ["²"; "0"]) "²" ["0"]
             eq_refl eq_refl eq_refl).
  - reflexivity.
Defined.

Lemma main_asks_again_witness :
  exists w',
    main AsciiRuntime.isnumeric (terminal demo_store ["one"; "0"]) = Ok tt w' /\
    store w' = demo_store.
Proof.
  eexists. split.
  - unfold terminal.
    rewrite (main_asks_again (RT := AsciiRuntime.runtime)
               AsciiRuntime.isnumeric demo_store "one" ["0"] [] eq_refl).
    reflexivity.
  - reflexivity.
Defined.

Lemma main_submenu_and_back_witness :
  exists w',
    main AsciiRuntime.isnumeric (terminal demo_store ["3"; "0"; "0"])
      = Ok tt w' /\
    store w' = demo_store /\ stdin w' = [].
Proof.
  eexists. split.
  - unfold terminal.
    rewrite (main_submenu_and_back (RT := AsciiRuntime.runtime)
               AsciiRuntime.isnumeric BudgetsMenu
               demo_store "3" "0" ["0"] [] eq_refl eq_refl eq_refl eq_refl).
    reflexivity.
  - split; reflexivity.
Defined.

Lemma delete_record_missing_key_witness :
  (exists w',
     delete_record expenses 99 (terminal demo_store []) = Ok tt w' /\
     store w' = demo_store) /\
  delete_record expenses (2 ^ 63) (terminal demo_store []) =
  Raise OverflowError (terminal demo_store []).
Proof.
  split.
  - exact (proj1 (delete_record_missing_key expenses 99
                    (terminal demo_store [])
                    ltac:(simpl; intros r [<-|[<-|[<-|[]]]]; discriminate))
             eq_refl).
  - exact (proj2 (delete_record_missing_key expenses (2 ^ 63)
                    (terminal demo_store [])
                    ltac:(simpl; intros r [<-|[<-|[<-|[]]]]; discriminate))
             eq_refl).
Defined.

Lemma delete_expense_category_drops_budget_witness :
  exists w',
    delete_record expense_category 1 (terminal demo_store []) = Ok tt w' /\
    rows (db_budgets (store w')) = [].
Proof.
  destruct (delete_expense_category_drops_budget
              {| cat_id := 1; cat_name := "Food" |} (terminal demo_store [])
              ltac:(simpl; tauto))
    as (w' & Run & _).
  exists w'. split; [exact Run|]. injection Run as <-. reflexivity.
Defined.

Lemma delete_income_category_abandons_witness :
  exists o',
    delete_income_category (terminal demo_store ["7"; "8"; "9"; "1"]) =
    Ok tt {| store := demo_store; stdin := ["1"]; stdout := o' |} /\
    In too_many_attempts o'.
Proof.
  exact (delete_income_category_abandons (RT := AsciiRuntime.runtime)
           "7" "8" "9" ["1"] 7 8 9
           demo_store [] eq_refl eq_refl eq_refl
           ltac:(simpl; intuition discriminate)
           ltac:(simpl; intuition discriminate)
           ltac:(simpl; intuition discriminate)
           ltac:(discriminate)).
Defined.

Lemma delete_expense_removes_witness :
  exists w',
    delete_expense (terminal demo_store ["2"]) = Ok tt w' /\
    lookup entry_id 2 (entries expenses (store w')) = None.
Proof.
  destruct (delete_expense_removes (RT := AsciiRuntime.runtime)
              (terminal demo_store ["2"])
              {| entry_id := 2; entry_category := IdInt 1;
                 entry_amount := Some 7.5%float |}
              "2" [] ltac:(simpl; tauto) eq_refl
              ltac:(repeat constructor; discriminate) eq_refl eq_refl)
    as (w' & Run & _ & Gone & _).
  exists w'. split; [exact Run|exact Gone].
Defined.

Lemma update_goal_duplicates_description_witness :
  exists w',
    update_goal
      (after set_financial_goal
         (terminal demo_store
            ["car"; "9000"; "0"; "2"; "1"; "Emergency Fund"])) = Ok tt w' /\
    map goal_description (rows (db_financial_goals (store w'))) =
      ["Emergency Fund"; "Emergency Fund"].
Proof.
  pose (w := after set_financial_goal
               (terminal demo_store
                  ["car"; "9000"; "0"; "2"; "1"; "Emergency Fund"])).
  pose (g1 := {| goal_id := 1; goal_description := "Emergency Fund";
                 goal_target := NumReal 1000%float;
                 goal_progress := NumReal 1000%float |}).
  pose (g2 := {| goal_id := 2; goal_description := "Car";
                 goal_target := NumReal 9000%float;
                 goal_progress := NumReal 0%float |}).
  assert (In g1 (rows (db_financial_goals (store w)))) as I1
    by (vm_compute; tauto).
  assert (In g2 (rows (db_financial_goals (store w)))) as I2
    by (vm_compute; tauto).
  assert (stdin w = ["2"; "1"; goal_description g1]) as L by reflexivity.
  destruct (update_goal_duplicates_description (RT := AsciiRuntime.runtime)
              w g1 g2 "2" "1" [] I1 I2 ltac:(discriminate) L
              eq_refl eq_refl)
    as (w' & Run & _).
  exists w'. split; [exact Run|]. injection Run as <-. reflexivity.
Defined.
